(** * devimteam/jsonrpc: the dispatcher, the error model and the JSON-RPC 2.0
      envelope, as a shallow embedding of [server.go], [error.go] and of the
      scenarios of [json2/json_test.go]. *)

From Stdlib Require Import ZArith Ascii String List Bool Lia.
From Stdlib Require Import DecimalString DecimalZ DecimalPos.
From stdpp Require Import base decidable option list strings gmap fin_maps.

Local Open Scope Z_scope.
Local Open Scope string_scope.

(** ** Go strings

    A Go string is a sequence of bytes; [string] (a list of [ascii], one per
    byte) is that sequence. *)

Definition is_upper (c : ascii) : bool :=
  (65 <=? N_of_ascii c)%N && (N_of_ascii c <=? 90)%N.

Definition is_lower (c : ascii) : bool :=
  (97 <=? N_of_ascii c)%N && (N_of_ascii c <=? 122)%N.

Definition lower_ascii (c : ascii) : ascii :=
  if is_upper c then ascii_of_N (N_of_ascii c + 32) else c.

(** The bytes below [utf8.RuneSelf], the ASCII characters. *)
Definition is_ascii (c : ascii) : bool := (N_of_ascii c <? 128)%N.

Definition isASCII (s : string) : bool := forallb is_ascii (list_ascii_of_string s).

(** The loop of [strings.ToLower] over a string of ASCII characters: each
    upper-case letter moved to lower case. *)
Fixpoint lower_bytes (s : string) : string :=
  match s with
  | EmptyString => EmptyString
  | String c rest => String (lower_ascii c) (lower_bytes rest)
  end.

(** [strings.Map(unicode.ToLower, s)], the path of [strings.ToLower] for a
    string that holds a byte outside ASCII.  The case tables of package
    unicode are not part of these sources: the function is a parameter, of
    which nothing is assumed. *)
Class UnicodeLower := mapToLower : string -> string.

(** [strings.ToLower]: a string of ASCII characters goes through the loop
    above, any other through the Unicode tables. *)
Definition ToLower `{UnicodeLower} (s : string) : string :=
  if isASCII s then lower_bytes s else mapToLower s.

(** Two bytes that are the same letter, in either case. *)
Definition same_letter (c d : ascii) : bool :=
  if Ascii.eqb c d then true
  else (is_upper c && (N_of_ascii d =? N_of_ascii c + 32)%N)
       || (is_upper d && (N_of_ascii c =? N_of_ascii d + 32)%N).

(** Two strings that are equal byte for byte but for the case of the ASCII
    letters. *)
Fixpoint equal_up_to_case (a b : string) : bool :=
  match a, b with
  | EmptyString, EmptyString => true
  | String c a', String d b' => same_letter c d && equal_up_to_case a' b'
  | _, _ => false
  end.

(** [strings.Index(s, substr)]: the byte offset of the first occurrence of
    [substr] in [s], or -1. *)
Definition Index (s substr : string) : Z :=
  match String.index 0 substr s with
  | Some n => Z.of_nat n
  | None => -1
  end.

(** The slice expression [s[:idx]]. *)
Definition slice_to (s : string) (idx : Z) : string :=
  String.substring 0 (Z.to_nat idx) s.

(** ** error.go *)

Definition ErrorCode := Z.

Definition E_PARSE : ErrorCode := -32700.
Definition E_INVALID_REQ : ErrorCode := -32600.
Definition E_NO_METHOD : ErrorCode := -32601.
Definition E_BAD_PARAMS : ErrorCode := -32602.
Definition E_INTERNAL : ErrorCode := -32603.
Definition E_SERVER : ErrorCode := -32000.

Section ErrorModel.

(** [Data interface{}]: any value; the type of values is left open. *)
Context {Val : Type}.

Record Error := mkError {
  Code : ErrorCode;
  Message : string;
  Data : option Val
}.

(** [NewError]: [Data] is left at its zero value, nil. *)
Definition NewError (code : ErrorCode) (message : string) : Error :=
  {| Code := code; Message := message; Data := None |}.

(** [func (e *Error) Error() string] *)
Definition Error_Error (e : Error) : string := Message e.

(** The values of Go's [error] interface: the ones of [errors.New], the
    pointers to [Error], and the errors of any other type (those of
    encoding/json, say), by their message. *)
Inductive error :=
| errorString (s : string)
| ErrorPtr (e : Error)
| foreignError (msg : string).

(** The [Error()] method of the interface. *)
Definition error_Error (e : error) : string :=
  match e with
  | errorString s => s
  | ErrorPtr e => Error_Error e
  | foreignError msg => msg
  end.

Definition ErrNullResult : error := errorString "result is null".

End ErrorModel.

Arguments Error : clear implicits.
Arguments error : clear implicits.

(** ** net/http: headers and the response sink *)

(** [http.Header]: a map from canonical keys to the values of each. *)
Abbreviation Header := (gmap string (list string)).

(** The bytes of an HTTP token, the ones a header key is made of. *)
Definition validHeaderFieldByte (c : ascii) : bool :=
  let n := N_of_ascii c in
  is_upper c || is_lower c || ((48 <=? n)%N && (n <=? 57)%N)
  || existsb (N.eqb n) [33; 35; 36; 37; 38; 39; 42; 43; 45; 46; 94; 95; 96; 124; 126]%N.

Definition upper_ascii (c : ascii) : ascii :=
  if is_lower c then ascii_of_N (N_of_ascii c - 32) else c.

(** The rewriting loop of the canonical form: the first letter and each
    letter after a hyphen in upper case, the others in lower case. *)
Fixpoint canonical_from (upper : bool) (s : string) : string :=
  match s with
  | EmptyString => EmptyString
  | String c rest =>
      let c' := if upper then upper_ascii c else lower_ascii c in
      String c' (canonical_from (Ascii.eqb c' "-") rest)
  end.

(** [http.CanonicalHeaderKey]: a key holding a byte that is not a token byte
    is returned unchanged. *)
Definition CanonicalHeaderKey (s : string) : string :=
  if forallb validHeaderFieldByte (list_ascii_of_string s)
  then canonical_from true s else s.

(** [h.Get(key)]: the first value of the key, or the empty string. *)
Definition Header_Get (h : Header) (key : string) : string :=
  match h !! CanonicalHeaderKey key with
  | Some (v :: _) => v
  | _ => ""
  end.

(** [h.Set(key, value)]: the key now has that one value. *)
Definition Header_Set (h : Header) (key value : string) : Header :=
  <[CanonicalHeaderKey key := [value]]> h.

(** [ResponseRecorder] of json_test.go, the [http.ResponseWriter] the
    dispatcher writes to.  [rw_Body] is [None] for a nil buffer. *)
Record ResponseRecorder := mkRecorder {
  rw_Code : Z;
  rw_HeaderMap : Header;
  rw_Body : option string;
  rw_Flushed : bool
}.

Definition NewRecorder : ResponseRecorder :=
  {| rw_Code := 0; rw_HeaderMap := ∅; rw_Body := Some ""; rw_Flushed := false |}.

Definition rw_Header (rw : ResponseRecorder) : Header := rw_HeaderMap rw.

(** A store through the map that [rw.Header()] returns. *)
Definition rw_Header_Set (rw : ResponseRecorder) (key value : string) : ResponseRecorder :=
  {| rw_Code := rw_Code rw;
     rw_HeaderMap := Header_Set (rw_HeaderMap rw) key value;
     rw_Body := rw_Body rw;
     rw_Flushed := rw_Flushed rw |}.

Definition rw_Write (rw : ResponseRecorder) (buf : string) : ResponseRecorder :=
  {| rw_Code := if (rw_Code rw =? 0)%Z then 200 else rw_Code rw;
     rw_HeaderMap := rw_HeaderMap rw;
     rw_Body := match rw_Body rw with
                | Some b => Some (b +:+ buf)
                | None => None
                end;
     rw_Flushed := rw_Flushed rw |}.

Definition rw_WriteHeader (rw : ResponseRecorder) (code : Z) : ResponseRecorder :=
  {| rw_Code := code;
     rw_HeaderMap := rw_HeaderMap rw;
     rw_Body := rw_Body rw;
     rw_Flushed := rw_Flushed rw |}.

(** [Flush] of the recorder. *)
Definition rw_Flush (rw : ResponseRecorder) : ResponseRecorder :=
  {| rw_Code := rw_Code rw;
     rw_HeaderMap := rw_HeaderMap rw;
     rw_Body := rw_Body rw;
     rw_Flushed := true |}.

(** [WriteError] of server.go: the status, the plain-text content type, the
    message. *)
Definition WriteError (w : ResponseRecorder) (status : Z) (msg : string) : ResponseRecorder :=
  let w := rw_WriteHeader w status in
  let w := rw_Header_Set w "Content-Type" "text/plain; charset=utf-8" in
  rw_Write w msg.

(** The response carries the header that disables content-type sniffing. *)
Definition nosniff (w : ResponseRecorder) : Prop :=
  Header_Get (rw_Header w) "x-content-type-options" = "nosniff".

(** ** reflect: types and values *)

(** [reflect.Type]: the type of [context.Context], and the named types of the
    registered methods' parameters. *)
Inductive rtype :=
| typeOfContext
| typeNamed (name : string).

#[global] Instance rtype_eq_dec : EqDecision rtype.
Proof. solve_decision. Defined.

(** ** server.go *)

Section Dispatcher.

(** [Ctx] is [context.Context], [Val] the Go values that codecs and methods
    exchange ([interface{}]), [St] the private state of a codec request. *)
Context {Ctx Val St : Type}.

(** The Unicode path of [strings.ToLower]. *)
Context {tables : UnicodeLower}.

(** The zero value of each type, what [reflect.New] points to. *)
Variable zeroValue : rtype -> Val.

(** [reflect.Value], as far as the dispatcher makes them: a plain value
    (a receiver), [reflect.ValueOf(ctx)], and a pointer made by
    [reflect.New(ty)] with what it points to. *)
Inductive Value :=
| ValueOf (v : Val)
| ValueOfContext (c : Ctx)
| PtrTo (ty : rtype) (v : Val).

Definition reflect_New (ty : rtype) : Value := PtrTo ty (zeroValue ty).

(** [*http.Request], the part the dispatcher and the codecs read. *)
Record Request := mkRequest {
  req_Method : string;
  req_Header : Header;
  req_Body : string;
  req_Context : Ctx
}.

(** The [CodecRequest] interface: an object with a private state, each
    method taking the state and giving it back.  [cr_ReadRequest] takes the
    holder's type and contents and gives the contents back as it left
    them; the two writers take and give back the response sink. *)
Record CodecRequest := mkCodecRequest {
  cr_state : St;
  cr_Method : St -> string * option (error Val) * St;
  cr_ReadRequest : St -> rtype -> Val -> option (error Val) * Val * St;
  cr_WriteResponse : St -> ResponseRecorder -> Val -> ResponseRecorder * St;
  cr_WriteError : St -> ResponseRecorder -> Z -> error Val -> ResponseRecorder * St;
  cr_Body : St -> string
}.

(** The same object after a call left its state at [st]. *)
Definition with_state (c : CodecRequest) (st : St) : CodecRequest :=
  {| cr_state := st;
     cr_Method := cr_Method c;
     cr_ReadRequest := cr_ReadRequest c;
     cr_WriteResponse := cr_WriteResponse c;
     cr_WriteError := cr_WriteError c;
     cr_Body := cr_Body c |}.

(** The [Codec] interface. *)
Record Codec := mkCodec {
  NewRequest : Request -> CodecRequest
}.

(** [ServerBeforeFunc].  The header map and the codec request are shared
    with the caller: the function gives back, with the context it returns,
    the header map and the state of the codec request as it left them. *)
Definition ServerBeforeFunc : Type :=
  Ctx -> string -> Header -> CodecRequest -> Ctx * Header * St.

(** The entries of the method table (the table itself, [serviceMap], is not
    part of these sources).  [method] stands for [method.Func.Call]: by the
    registry's rule a registered method has two return slots, a result and
    an error, the second nil or an [error]. *)
Record service := mkService {
  rcvr : Value
}.

Record serviceMethod := mkServiceMethod {
  method : list Value -> Val * option (error Val);
  argsType : list rtype
}.

(** [serviceMap], by its one operation the dispatcher calls. *)
Record serviceMap := mkServiceMap {
  get : string -> error Val + service * serviceMethod
}.

(** A value of the interface type [Codec] is nil ([None]) or an
    implementation of the interface; [codecs] holds such values, and a key
    can be bound to nil. *)
Record Server := mkServer {
  codecs : gmap string (option Codec);
  services : serviceMap;
  before : list ServerBeforeFunc
}.

Definition ServerOption : Type := Server -> Server.

Definition ServerBefore (b : ServerBeforeFunc) : ServerOption :=
  fun s => {| codecs := codecs s; services := services s; before := (before s ++ [b])%list |}.

(** [NewServer], from the empty method table [new(serviceMap)]. *)
Definition NewServer (new_serviceMap : serviceMap) (options : list ServerOption) : Server :=
  fold_left (fun s option => option s) options
    {| codecs := ∅; services := new_serviceMap; before := [] |}.

(** [RegisterCodec]: whatever [codec] is, nil too, it is stored under the
    lower-cased content type. *)
Definition RegisterCodec (s : Server) (codec : option Codec) (contentType : string) : Server :=
  {| codecs := <[ToLower contentType := codec]> (codecs s);
     services := services s;
     before := before s |}.

Definition HasMethod (s : Server) (name : string) : bool :=
  match get (services s) name with
  | inr _ => true
  | inl _ => false
  end.

(** What the dispatcher calls on its collaborators, in the order of the
    calls, each with its arguments. *)
Inductive event :=
| ENewRequest (codec : Codec)
| EMethod
| EBefore (i : nat) (ctx : Ctx) (name : string) (h : Header) (codecReq : CodecRequest)
| EGet (name : string)
| EReadRequest (arg : Value)
| ECall (refValue : list Value)
| EWriteResponse (valRet : Val)
| EWriteError (status : Z) (err : error Val).

(** [for _, c := range s.codecs { codec = c }], from [var codec Codec],
    which is nil. *)
Definition rangeCodecs (m : gmap string (option Codec)) : option Codec :=
  fold_left (fun _ kc => snd kc) (map_to_list m) None.

(** Lines 113-118: the content type up to the first semicolon. *)
Definition contentTypeOf (r : Request) : string :=
  let contentType := Header_Get (req_Header r) "Content-Type" in
  let idx := Index contentType ";" in
  if negb (idx =? -1)%Z then slice_to contentType idx else contentType.

(** Lines 143-145: the hooks, in the order of [s.before]; [i] numbers them
    for the log. *)
Fixpoint runBefore (i : nat) (bs : list ServerBeforeFunc) (name : string)
    (ctx : Ctx) (h : Header) (c : CodecRequest)
  : Ctx * Header * CodecRequest * list event :=
  match bs with
  | [] => (ctx, h, c, [])
  | b :: rest =>
      let '(ctx', h', st') := b ctx name h c in
      let '(ctx'', h'', c'', log) := runBefore (S i) rest name ctx' h' (with_state c st') in
      (ctx'', h'', c'', EBefore i ctx name h c :: log)
  end.

(** Lines 155-166: one argument per declared type. *)
Fixpoint readArgs (tys : list rtype) (ctx : Ctx) (c : CodecRequest) (refValue : list Value)
  : (error Val + list Value) * CodecRequest * list event :=
  match tys with
  | [] => (inr refValue, c, [])
  | ty :: rest =>
      let arg := reflect_New ty in
      if decide (ty <> typeOfContext) then
        match cr_ReadRequest c (cr_state c) ty (zeroValue ty) with
        | (Some errRead, _, st') => (inl errRead, with_state c st', [EReadRequest arg])
        | (None, v, st') =>
            let '(res, c', log) := readArgs rest ctx (with_state c st') (refValue ++ [PtrTo ty v])%list in
            (res, c', EReadRequest arg :: log)
        end
      else
        readArgs rest ctx c (refValue ++ [ValueOfContext ctx])%list
  end.

(** Lines 169-188: the call and the encoding of what it returned. *)
Definition invoke (w : ResponseRecorder) (c : CodecRequest) (m : serviceMethod)
    (refValue : list Value) : ResponseRecorder * list event :=
  let '(valRet, errResult) := method m refValue in
  let w := rw_Header_Set w "x-content-type-options" "nosniff" in
  match errResult with
  | None => (fst (cr_WriteResponse c (cr_state c) w valRet),
             [ECall refValue; EWriteResponse valRet])
  | Some e => (fst (cr_WriteError c (cr_state c) w 400 e),
               [ECall refValue; EWriteError 400 e])
  end.

(** Lines 133-188: the request in the hands of the selected codec. *)
Definition serveCodec (s : Server) (w : ResponseRecorder) (r : Request) (codec : Codec)
  : ResponseRecorder * list event :=
  let ctx := req_Context r in
  let codecReq := NewRequest codec r in
  let '(name, errMethod, st) := cr_Method codecReq (cr_state codecReq) in
  let codecReq := with_state codecReq st in
  match errMethod with
  | Some e =>
      (fst (cr_WriteError codecReq (cr_state codecReq) w 400 e),
       [ENewRequest codec; EMethod; EWriteError 400 e])
  | None =>
      let '(ctx, _, codecReq, logB) := runBefore 0 (before s) name ctx (req_Header r) codecReq in
      match get (services s) name with
      | inl errGet =>
          (fst (cr_WriteError codecReq (cr_state codecReq) w 400 errGet),
           ([ENewRequest codec; EMethod] ++ logB ++ [EGet name; EWriteError 400 errGet])%list)
      | inr (serviceSpec, methodSpec) =>
          let refValue := [rcvr serviceSpec] in
          let '(res, codecReq, logR) :=
            if (0 <? length (argsType methodSpec))%nat
            then readArgs (argsType methodSpec) ctx codecReq refValue
            else (inr refValue, codecReq, []) in
          match res with
          | inl errRead =>
              (fst (cr_WriteError codecReq (cr_state codecReq) w 400 errRead),
               ([ENewRequest codec; EMethod] ++ logB ++ [EGet name] ++ logR
                ++ [EWriteError 400 errRead])%list)
          | inr refValue =>
              let '(w', logI) := invoke w codecReq methodSpec refValue in
              (w', ([ENewRequest codec; EMethod] ++ logB ++ [EGet name] ++ logR ++ logI)%list)
          end
      end
  end.

(** How a dispatch ends: [ServeHTTP] returns, or the call of line 134,
    [codec.NewRequest(r)], goes through a nil [codec] and panics. *)
Inductive outcome :=
| Returned
| Panicked.

(** The body of [ServeHTTP], lines 106-189: how the dispatch ends, the
    response sink as it leaves it, and the log of the calls it made.  With an
    empty content type and one entry in [s.codecs] the loop of lines 125-127
    leaves the value of that entry in [codec], and line 134 follows whatever
    it is; elsewhere a missing key and a key bound to nil both read as nil at
    line 128. *)
Definition dispatch (s : Server) (w : ResponseRecorder) (r : Request)
  : outcome * (ResponseRecorder * list event) :=
  if negb (String.eqb (req_Method r) "POST") then
    (Returned,
     (WriteError w 405 ("rpc: POST method required, received " +:+ req_Method r), []))
  else
    let contentType := contentTypeOf r in
    if String.eqb contentType "" && (size (codecs s) =? 1)%nat then
      match rangeCodecs (codecs s) with
      | Some codec => (Returned, serveCodec s w r codec)
      | None => (Panicked, (w, []))
      end
    else
      match codecs s !! ToLower contentType with
      | Some (Some codec) => (Returned, serveCodec s w r codec)
      | Some None | None =>
          (Returned,
           (WriteError w 415 ("rpc: unrecognized Content-Type: " +:+ contentType), []))
      end.

(** [ServeHTTP]: the response sink and the log of the calls, as the dispatch
    leaves them when it ends, either way. *)
Definition ServeHTTP (s : Server) (w : ResponseRecorder) (r : Request)
  : ResponseRecorder * list event :=
  snd (dispatch s w r).

(** *** What the properties are stated with *)

(** The selection of lines 113-131 gives [codec]. *)
Definition selects (s : Server) (r : Request) (codec : Codec) : Prop :=
  req_Method r = "POST"
  /\ ((contentTypeOf r = "" /\ size (codecs s) = 1%nat
       /\ rangeCodecs (codecs s) = Some codec)
      \/ (~ (contentTypeOf r = "" /\ size (codecs s) = 1%nat)
          /\ codecs s !! ToLower (contentTypeOf r) = Some (Some codec))).

(** One turn of the loop of lines 143-145, on the context, the header map
    and the codec request. *)
Definition applyBefore (name : string) (x : Ctx * Header * CodecRequest)
    (b : ServerBeforeFunc) : Ctx * Header * CodecRequest :=
  let '(ctx, h, c) := x in
  let '(ctx', h', st') := b ctx name h c in
  (ctx', h', with_state c st').

(** Lines 155-166 in the words of the specification, for one declared
    parameter: one of the context type is bound to the context, and the
    codec request is left alone; for any other the codec's [ReadRequest] is
    called on a fresh holder, and gives the argument, the holder as the
    codec left it, or the error. *)
Definition bindParameter (ctx : Ctx) (c : CodecRequest) (ty : rtype)
  : (error Val + Value) * CodecRequest :=
  if decide (ty = typeOfContext) then (inr (ValueOfContext ctx), c)
  else
    match cr_ReadRequest c (cr_state c) ty (zeroValue ty) with
    | (Some errRead, _, st') => (inl errRead, with_state c st')
    | (None, v, st') => (inr (PtrTo ty v), with_state c st')
    end.

(** The same for the declared parameters in their order, each on the codec
    request as the one before left it, up to the first that fails. *)
Fixpoint bindParameters (ctx : Ctx) (c : CodecRequest) (tys : list rtype)
  : (error Val + list Value) * CodecRequest :=
  match tys with
  | [] => (inr [], c)
  | ty :: rest =>
      match bindParameter ctx c ty with
      | (inl errRead, c') => (inl errRead, c')
      | (inr arg, c') =>
          match bindParameters ctx c' rest with
          | (inl errRead, c'') => (inl errRead, c'')
          | (inr args, c'') => (inr (arg :: args), c'')
          end
      end
  end.

(** The calls that encode a response. *)
Definition is_encoding (e : event) : bool :=
  match e with
  | EWriteResponse _ | EWriteError _ _ => true
  | _ => false
  end.

Definition is_call (e : event) : bool :=
  match e with
  | ECall _ => true
  | _ => false
  end.

Definition is_read (e : event) : bool :=
  match e with
  | EReadRequest _ => true
  | _ => false
  end.

Definition is_before (e : event) : bool :=
  match e with
  | EBefore _ _ _ _ _ => true
  | _ => false
  end.

(** The calls of [ReadRequest] for the types [tys], each on a fresh
    holder: one per type that is not the context's. *)
Definition reads (tys : list rtype) : list event :=
  (fun ty => EReadRequest (reflect_New ty))
    <$> filter (fun ty => ty <> typeOfContext) tys.

(** The writers of a codec request leave the header in place. *)
Definition keeps_nosniff (c : CodecRequest) : Prop :=
  forall st w, nosniff w ->
    (forall v, nosniff (fst (cr_WriteResponse c st w v)))
    /\ (forall status e, nosniff (fst (cr_WriteError c st w status e))).

(** The hooks leave the codec request as they found it. *)
Definition hooks_read_only (bs : list ServerBeforeFunc) : Prop :=
  Forall (fun b => forall ctx name h c, snd (b ctx name h c) = cr_state c) bs.

(** [RegisterCodec] called once for each pair of a list, in its order. *)
Definition registerAll (s : Server) (l : list (option Codec * string)) : Server :=
  fold_left (fun s x => RegisterCodec s (fst x) (snd x)) l s.

(** Of the pairs of a list, the codec of the last one whose content type has
    the lower-cased form [k], if there is one. *)
Fixpoint lastRegistered (k : string) (l : list (option Codec * string))
  : option (option Codec) :=
  match l with
  | [] => None
  | x :: rest =>
      match lastRegistered k rest with
      | Some codec => Some codec
      | None => if decide (ToLower (snd x) = k) then Some (fst x) else None
      end
  end.

End Dispatcher.

(** ** encoding/json, as far as the envelope needs it

    Package encoding/json is not part of these sources.  What follows is the
    fragment of JSON that the envelopes of the tests are written in, with a
    printer and a reader for it: documents whose numbers are integers and
    whose strings need no escape but those of the quotation mark and the
    backslash.  The reader also takes white space and the one-letter
    escapes; it refuses, where [json.Unmarshal] would go on, a number with a
    fraction or an exponent and an escape by code point.  The printer writes
    the other bytes of a string as they are, where [json.Marshal] would
    escape the control characters and the characters [<], [>] and [&]. *)

(** A JSON document.  Numbers are the integers, the only ones the envelope
    and the tests hold. *)
#[local] Set Warnings "-register-all".

Inductive json :=
| JNull
| JBool (b : bool)
| JNum (n : Z)
| JStr (s : string)
| JArr (elems : list json)
| JObj (fields : list (string * json)).

(** The member of an object by its name, the last if there are several:
    the decoder stores the members in their order, a later one over an
    earlier one of the same name. *)
Fixpoint member (name : string) (fields : list (string * json)) : option json :=
  match fields with
  | [] => None
  | (k, v) :: rest =>
      match member name rest with
      | Some v' => Some v'
      | None => if String.eqb k name then Some v else None
      end
  end.

(** *** Writing *)

(** The quotation mark and the backslash. *)
Definition dquote : ascii := "034"%char.
Definition backslash : ascii := "092"%char.

(** A string between quotes, the quote and the backslash escaped. *)
Fixpoint escape (s : string) : string :=
  match s with
  | EmptyString => EmptyString
  | String c rest =>
      if Ascii.eqb c dquote || Ascii.eqb c backslash
      then String backslash (String c (escape rest))
      else String c (escape rest)
  end.

Definition quote (s : string) : string :=
  String dquote (escape s +:+ String dquote EmptyString).

Definition print_Z (n : Z) : string := NilZero.string_of_int (Z.to_int n).

Fixpoint Marshal (v : json) : string :=
  match v with
  | JNull => "null"
  | JBool true => "true"
  | JBool false => "false"
  | JNum n => print_Z n
  | JStr s => quote s
  | JArr elems =>
      "[" +:+
      (fix elements (l : list json) : string :=
         match l with
         | [] => "]"
         | [x] => Marshal x +:+ "]"
         | x :: rest => Marshal x +:+ "," +:+ elements rest
         end) elems
  | JObj fields =>
      "{" +:+
      (fix members (l : list (string * json)) : string :=
         match l with
         | [] => "}"
         | [(k, x)] => quote k +:+ ":" +:+ Marshal x +:+ "}"
         | (k, x) :: rest => quote k +:+ ":" +:+ Marshal x +:+ "," +:+ members rest
         end) fields
  end.

(** *** Reading *)

Definition is_ws (c : ascii) : bool :=
  Ascii.eqb c " " || Ascii.eqb c "009" || Ascii.eqb c "010" || Ascii.eqb c "013".

Fixpoint skip_ws (s : string) : string :=
  match s with
  | String c rest => if is_ws c then skip_ws rest else s
  | EmptyString => EmptyString
  end.

Definition is_num_char (c : ascii) : bool :=
  Ascii.eqb c "-" || ((48 <=? N_of_ascii c)%N && (N_of_ascii c <=? 57)%N).

(** The longest prefix of sign and digits, and what follows it. *)
Fixpoint span_num (s : string) : string * string :=
  match s with
  | String c rest =>
      if is_num_char c
      then let '(d, r) := span_num rest in (String c d, r)
      else (EmptyString, s)
  | EmptyString => (EmptyString, EmptyString)
  end.

(** An integer: digits after a minus sign or none, with no needless zero in
    front. *)
Definition parse_number (s : string) : option (Z * string) :=
  let '(d, r) := span_num s in
  match NilZero.int_of_string d with
  | Some i =>
      if String.eqb d (print_Z (Z.of_int i)) || String.eqb d "-0"
      then Some (Z.of_int i, r)
      else None
  | None => None
  end.

(** The character that a backslash and [e] stand for; the escapes by code
    point, [\u] and four digits, are not read. *)
Definition unescape (e : ascii) : option ascii :=
  if Ascii.eqb e dquote || Ascii.eqb e backslash || Ascii.eqb e "/" then Some e
  else if Ascii.eqb e "b" then Some "008"%char
  else if Ascii.eqb e "f" then Some "012"%char
  else if Ascii.eqb e "n" then Some "010"%char
  else if Ascii.eqb e "r" then Some "013"%char
  else if Ascii.eqb e "t" then Some "009"%char
  else None.

(** The characters of a string up to its closing quote. *)
Fixpoint parse_chars (s : string) : option (string * string) :=
  match s with
  | EmptyString => None
  | String c rest =>
      if Ascii.eqb c dquote then Some (EmptyString, rest)
      else if Ascii.eqb c backslash then
        match rest with
        | String e rest' =>
            match unescape e with
            | Some c' =>
                match parse_chars rest' with
                | Some (t, r) => Some (String c' t, r)
                | None => None
                end
            | None => None
            end
        | EmptyString => None
        end
      else
        match parse_chars rest with
        | Some (t, r) => Some (String c t, r)
        | None => None
        end
  end.

(** A string literal, at the head of the text. *)
Definition parse_string (s : string) : option (string * string) :=
  match s with
  | String c rest => if Ascii.eqb c dquote then parse_chars rest else None
  | EmptyString => None
  end.

(** The text after the prefix [p], when the text starts with it. *)
Fixpoint strip_prefix (p s : string) : option string :=
  match p with
  | EmptyString => Some s
  | String a p' =>
      match s with
      | String b s' => if Ascii.eqb a b then strip_prefix p' s' else None
      | EmptyString => None
      end
  end.

(** A value at the head of the text, and the text after it.  [fuel] bounds
    the nesting and the number of elements. *)
Fixpoint parse_value (fuel : nat) (s : string) : option (json * string) :=
  match fuel with
  | O => None
  | S fuel =>
      match skip_ws s with
      | EmptyString => None
      | String c rest as s' =>
          if Ascii.eqb c dquote then
            match parse_chars rest with
            | Some (t, r) => Some (JStr t, r)
            | None => None
            end
          else if Ascii.eqb c "[" then
            match strip_prefix "]" (skip_ws rest) with
            | Some r => Some (JArr [], r)
            | None =>
                match parse_elements fuel rest with
                | Some (l, r) => Some (JArr l, r)
                | None => None
                end
            end
          else if Ascii.eqb c "{" then
            match strip_prefix "}" (skip_ws rest) with
            | Some r => Some (JObj [], r)
            | None =>
                match parse_members fuel rest with
                | Some (l, r) => Some (JObj l, r)
                | None => None
                end
            end
          else
            match strip_prefix "null" s' with
            | Some r => Some (JNull, r)
            | None =>
                match strip_prefix "true" s' with
                | Some r => Some (JBool true, r)
                | None =>
                    match strip_prefix "false" s' with
                    | Some r => Some (JBool false, r)
                    | None =>
                        match parse_number s' with
                        | Some (n, r) => Some (JNum n, r)
                        | None => None
                        end
                    end
                end
            end
      end
  end
with parse_elements (fuel : nat) (s : string) : option (list json * string) :=
  match fuel with
  | O => None
  | S fuel =>
      match parse_value fuel s with
      | Some (v, r) =>
          match strip_prefix "," (skip_ws r) with
          | Some r' =>
              match parse_elements fuel r' with
              | Some (l, r'') => Some (v :: l, r'')
              | None => None
              end
          | None =>
              match strip_prefix "]" (skip_ws r) with
              | Some r' => Some ([v], r')
              | None => None
              end
          end
      | None => None
      end
  end
with parse_members (fuel : nat) (s : string) : option (list (string * json) * string) :=
  match fuel with
  | O => None
  | S fuel =>
      match parse_string (skip_ws s) with
      | Some (k, r) =>
          match strip_prefix ":" (skip_ws r) with
          | Some r1 =>
              match parse_value fuel r1 with
              | Some (v, r2) =>
                  match strip_prefix "," (skip_ws r2) with
                  | Some r3 =>
                      match parse_members fuel r3 with
                      | Some (l, r4) => Some ((k, v) :: l, r4)
                      | None => None
                      end
                  | None =>
                      match strip_prefix "}" (skip_ws r2) with
                      | Some r3 => Some ([(k, v)], r3)
                      | None => None
                      end
                  end
              | None => None
              end
          | None => None
          end
      | None => None
      end
  end.

(** [json.Unmarshal] into a document: one value, and white space only after
    it. *)
Definition Unmarshal (s : string) : option json :=
  match parse_value (S (String.length s)) s with
  | Some (v, r) =>
      match skip_ws r with
      | EmptyString => Some v
      | _ => None
      end
  | None => None
  end.

(** *** What the round trip is stated with *)

(** Digits and the sign. *)
Definition is_digit (c : ascii) : bool := (48 <=? N_of_ascii c)%N && (N_of_ascii c <=? 57)%N.

(** The text after the opening bracket of an array, and after the opening
    brace of an object. *)
Definition elements_text : list json -> string :=
  fix elements (l : list json) : string :=
    match l with
    | [] => "]"
    | [x] => Marshal x +:+ "]"
    | x :: rest => Marshal x +:+ "," +:+ elements rest
    end.

Definition members_text : list (string * json) -> string :=
  fix members (l : list (string * json)) : string :=
    match l with
    | [] => "}"
    | [(k, x)] => quote k +:+ ":" +:+ Marshal x +:+ "}"
    | (k, x) :: rest => quote k +:+ ":" +:+ Marshal x +:+ "," +:+ members rest
    end.

(** The fuel that reading a value back takes. *)
Fixpoint sz (v : json) : nat :=
  match v with
  | JArr l =>
      S ((fix go (l : list json) : nat :=
            match l with
            | [] => O
            | x :: rest => S (sz x + go rest)
            end) l)
  | JObj l =>
      S ((fix go (l : list (string * json)) : nat :=
            match l with
            | [] => O
            | (_, x) :: rest => S (sz x + go rest)
            end) l)
  | _ => 1%nat
  end.

Definition sz_elements : list json -> nat :=
  fix go (l : list json) : nat :=
    match l with
    | [] => O
    | x :: rest => S (sz x + go rest)
    end.

Definition sz_members : list (string * json) -> nat :=
  fix go (l : list (string * json)) : nat :=
    match l with
    | [] => O
    | (_, x) :: rest => S (sz x + go rest)
    end.

(** What may follow a value: not a sign, not a digit. *)
Definition ends_number (rest : string) : Prop :=
  match rest with
  | String c _ => is_num_char c = false
  | EmptyString => True
  end.

(** Storing a document into a holder, as [json.Unmarshal] does into a Go
    value seen through its JSON image: null stores nothing, a nil
    [interface{}] holder takes any document, a scalar or an array takes a
    document of its own kind, and a struct takes an object member by member,
    by the names of its fields.  Any other pairing is a type error, [None]. *)
Fixpoint decodeInto (holder src : json) {struct holder} : option json :=
  match src with
  | JNull => Some holder
  | _ =>
      match holder with
      | JNull => Some src
      | JBool _ => match src with JBool _ => Some src | _ => None end
      | JNum _ => match src with JNum _ => Some src | _ => None end
      | JStr _ => match src with JStr _ => Some src | _ => None end
      | JArr _ => match src with JArr _ => Some src | _ => None end
      | JObj hfields =>
          match src with
          | JObj sfields =>
              option_map JObj
                ((fix fields (l : list (string * json)) : option (list (string * json)) :=
                    match l with
                    | [] => Some []
                    | (k, hv) :: rest =>
                        match (match member k sfields with
                               | Some sv => decodeInto hv sv
                               | None => Some hv
                               end), fields rest with
                        | Some v, Some rest' => Some ((k, v) :: rest')
                        | _, _ => None
                        end
                    end) hfields)
          | _ => None
          end
      end
  end.

(** ** Package json2: the JSON-RPC 2.0 codec and its client side *)

Module json2.

Section Codec.

(** The texts of the parse error and of the decode error: the spec fixes
    their codes, not their messages. *)
Variables parseMessage decodeMessage : string.

(** Modelled from the spec: the error of [method()] on a malformed
    envelope, [ParseError] with code -32700 (json2/server.go is not part of
    these sources). *)
Definition ParseError : error json := ErrorPtr (NewError E_PARSE parseMessage).

(** Modelled from the spec: the decode/type error that [readParams]
    surfaces, with the code of invalid method parameters (json2/server.go
    is not part of these sources). *)
Definition DecodeError : error json := ErrorPtr (NewError E_BAD_PARAMS decodeMessage).

(** Modelled from the spec: the inbound envelope [{jsonrpc, method, params,
    id}], an object (json2/server.go is not part of these sources). *)
Definition envelope (body : string) : option (list (string * json)) :=
  match Unmarshal body with
  | Some (JObj fields) => Some fields
  | _ => None
  end.

(** Modelled from the spec: [method()] parses the envelope for the method
    name and fails with [ParseError] on malformed JSON or structure
    (json2/server.go is not part of these sources).  The state of the codec
    request is the raw body. *)
Definition Method (body : string) : string * option (error json) * string :=
  match envelope body with
  | Some fields =>
      match member "method" fields with
      | Some (JStr name) => (name, None, body)
      | None => ("", None, body)
      | Some _ => ("", Some ParseError, body)
      end
  | None => ("", Some ParseError, body)
  end.

(** Modelled from the spec: [readParams(targetHolder)] decodes the [params]
    member into the holder; absent or empty params leave the holder at its
    zero value, an object is decoded by field name, and a positional array
    into a structured holder fails with a decode/type error
    (json2/server.go is not part of these sources). *)
Definition ReadRequest (body : string) (ty : rtype) (holder : json)
  : option (error json) * json * string :=
  match envelope body with
  | Some fields =>
      match member "params" fields with
      | None => (None, holder, body)
      | Some params =>
          match decodeInto holder params with
          | Some holder' => (None, holder', body)
          | None => (Some DecodeError, holder, body)
          end
      end
  | None => (Some ParseError, holder, body)
  end.

(** Modelled from the spec: the [id] of the response echoes the request's,
    or is null (json2/server.go is not part of these sources). *)
Definition echoId (body : string) : json :=
  match envelope body with
  | Some fields => default JNull (member "id" fields)
  | None => JNull
  end.

(** Modelled from the spec: [writeResponse(sink, value)] serializes
    [{jsonrpc, id, result}] with [result = value] (json2/server.go is not
    part of these sources). *)
Definition WriteResponse (body : string) (w : ResponseRecorder) (value : json)
  : ResponseRecorder * string :=
  (rw_Write w (Marshal (JObj [("jsonrpc", JStr "2.0"); ("id", echoId body);
                              ("result", value)])),
   body).

(** Modelled from the spec: an error that is not a tagged [Error] is
    wrapped with code [E_SERVER] and its message text (json2/server.go is
    not part of these sources). *)
Definition tagged (err : error json) : Error json :=
  match err with
  | ErrorPtr e => e
  | _ => NewError E_SERVER (error_Error err)
  end.

(** Modelled from the spec: the wire form [{code, message, data}] of an
    error, [data] optional (json2/server.go is not part of these
    sources). *)
Definition errorJSON (e : Error json) : json :=
  JObj ([("code", JNum (Code e)); ("message", JStr (Message e))]
        ++ match Data e with
           | Some d => [("data", d)]
           | None => []
           end)%list.

(** Modelled from the spec: [writeError(sink, statusHint, err)] serializes
    [{jsonrpc, id, error}]; the status hint is advisory and the transport
    outcome stays in the 200 class (json2/server.go is not part of these
    sources). *)
Definition WriteError (body : string) (w : ResponseRecorder) (status : Z)
    (err : error json) : ResponseRecorder * string :=
  (rw_Write w (Marshal (JObj [("jsonrpc", JStr "2.0"); ("id", echoId body);
                              ("error", errorJSON (tagged err))])),
   body).

(** Modelled from the spec: [newRequestContext(rawRequest)] wraps one
    inbound request, and [body()] exposes its raw bytes (json2/server.go is
    not part of these sources). *)
Definition NewCodec {Ctx : Type} : @Codec Ctx json string :=
  {| NewRequest := fun r =>
       {| cr_state := req_Body r;
          cr_Method := Method;
          cr_ReadRequest := ReadRequest;
          cr_WriteResponse := WriteResponse;
          cr_WriteError := WriteError;
          cr_Body := fun body => body |} |}.

(** Modelled from the spec: the request on the wire, [{jsonrpc, method,
    params, id}] (json2/client.go is not part of these sources; the id is
    the caller's). *)
Definition EncodeClientRequest (name : string) (args id : json) : string :=
  Marshal (JObj [("jsonrpc", JStr "2.0"); ("method", JStr name);
                 ("params", args); ("id", id)]).

(** Modelled from the spec: the error that an [error] member of a response
    stands for (json2/client.go is not part of these sources). *)
Definition errorOfJSON (e : json) : error json :=
  match e with
  | JObj fields =>
      match member "code" fields, member "message" fields with
      | Some (JNum code), Some (JStr message) =>
          ErrorPtr {| Code := code; Message := message; Data := member "data" fields |}
      | _, _ => foreignError decodeMessage
      end
  | _ => foreignError decodeMessage
  end.

(** Modelled from the spec: client-side decoding of a response body.  An
    error envelope gives its error; a success envelope whose [result] is
    null or absent gives [ErrNullResult]; any other result is stored into
    the caller's value.  The value is written only in that last case
    (json2/client.go is not part of these sources). *)
Definition DecodeClientResponse (body : string) (reply : json)
  : option (error json) * json :=
  match envelope body with
  | None => (Some (foreignError parseMessage), reply)
  | Some fields =>
      match member "error" fields with
      | Some JNull | None =>
          match member "result" fields with
          | Some JNull | None => (Some ErrNullResult, reply)
          | Some result =>
              match decodeInto reply result with
              | Some reply' => (None, reply')
              | None => (Some (foreignError decodeMessage), reply)
              end
          end
      | Some e => (Some (errorOfJSON e), reply)
      end
  end.

End Codec.

End json2.

(** ** json2/json_test.go: the service of the tests *)

Module json_test.

(** [context.Context], as the list of the values attached to it; the
    background context has none. *)
Definition Ctx : Type := list string.

(** The content types of the tests are strings of ASCII characters, which
    [strings.ToLower] lowers without the Unicode tables; the scenarios run
    with a stand-in for the tables that is never called. *)
#[export] Instance noTables : UnicodeLower := fun s => s.

(** The text of a raw string literal of the tests, its quotation marks
    written as apostrophes. *)
Fixpoint json_text (s : string) : string :=
  match s with
  | EmptyString => EmptyString
  | String c rest =>
      String (if Ascii.eqb c "'" then dquote else c) (json_text rest)
  end.

Definition parseMessage : string := "parse error".
Definition decodeMessage : string := "cannot unmarshal params".

(** Go's [int], 64 bits wide, two's complement. *)
Definition wrap_int (n : Z) : Z := (n + 2 ^ 63) mod 2 ^ 64 - 2 ^ 63.

Definition Service1DefaultResponse : Z := 9999.

Definition ErrResponseError : Error json := NewError E_SERVER "response error".

(** The integer field of a struct, by name. *)
Definition intField (name : string) (v : json) : Z :=
  match v with
  | JObj fields =>
      match member name fields with
      | Some (JNum n) => n
      | _ => 0
      end
  | _ => 0
  end.

Definition Service1Request (A B : Z) : json := JObj [("A", JNum A); ("B", JNum B)].
Definition Service1Response (Result : Z) : json := JObj [("Result", JNum Result)].

Definition zeroValue (ty : rtype) : json :=
  match ty with
  | typeNamed "Service1Request" => Service1Request 0 0
  | typeNamed "Service1Response" => Service1Response 0
  | _ => JNull
  end.

(** The receiver [new(Service1)], a pointer to an empty struct. *)
Definition Service1 : @Value Ctx json := ValueOf (JObj []).

(** [func (t *Service1) Multiply(req *Service1Request)], returning [*Service1Response] and [error] *)
Definition Multiply (refValue : list (@Value Ctx json)) : json * option (error json) :=
  match refValue with
  | [_; PtrTo _ req] =>
      let A := intField "A" req in
      let B := intField "B" req in
      if (A =? 0)%Z && (B =? 0)%Z
      then (Service1Response Service1DefaultResponse, None)
      else (Service1Response (wrap_int (A * B)), None)
  | _ => (JNull, Some (foreignError "reflect: Call with wrong arguments"))
  end.

(** [func (t *Service1) ResponseError(req *Service1Request)], returning [*Service1Response] and [error] *)
Definition ResponseError (refValue : list (@Value Ctx json)) : json * option (error json) :=
  (JNull, Some (ErrorPtr ErrResponseError)).

(** A method that takes the context first: it answers with the number of
    values attached to the context, times [A]. *)
Definition Scaled (refValue : list (@Value Ctx json)) : json * option (error json) :=
  match refValue with
  | [_; ValueOfContext ctx; PtrTo _ req] =>
      (Service1Response (wrap_int (Z.of_nat (length ctx) * intField "A" req)), None)
  | _ => (JNull, Some (foreignError "reflect: Call with wrong arguments"))
  end.

(** Modelled from the spec: the method table after
    [s.RegisterService(new(Service1), "")]: the accepted methods under
    ["Service1.<MethodName>"], and [MethodNotFound] (code -32601) for any
    other name (the registry, [serviceMap], is not part of these sources;
    the spec does not fix the message). *)
Definition Service1_table : @serviceMap Ctx json :=
  {| get := fun name =>
       if String.eqb name "Service1.Multiply" then
         inr ({| rcvr := Service1 |},
              {| method := Multiply; argsType := [typeNamed "Service1Request"] |})
       else if String.eqb name "Service1.ResponseError" then
         inr ({| rcvr := Service1 |},
              {| method := ResponseError; argsType := [typeNamed "Service1Request"] |})
       else if String.eqb name "Service1.Scaled" then
         inr ({| rcvr := Service1 |},
              {| method := Scaled;
                 argsType := [typeOfContext; typeNamed "Service1Request"] |})
       else inl (ErrorPtr (NewError E_NO_METHOD ("rpc: can't find method " +:+ name))) |}.

Definition NewCodec : @Codec Ctx json string :=
  json2.NewCodec parseMessage decodeMessage.

(** The server of [TestService]. *)
Definition server : @Server Ctx json string :=
  RegisterCodec (NewServer Service1_table []) (Some NewCodec) "application/json".

(** Two hooks: each attaches a value to the context. *)
Definition tagMethod : @ServerBeforeFunc Ctx json string :=
  fun ctx name h c => ((ctx ++ [name])%list, h, cr_state c).

Definition tagLength : @ServerBeforeFunc Ctx json string :=
  fun ctx name h c =>
    ((ctx ++ [print_Z (Z.of_nat (String.length (cr_Body c (cr_state c))))])%list,
     h, cr_state c).

Definition hookedServer : @Server Ctx json string :=
  RegisterCodec (NewServer Service1_table [ServerBefore tagMethod; ServerBefore tagLength])
    (Some NewCodec) "application/json".

(** [http.NewRequest(verb, url, body)]: no header, the background
    context. *)
Definition http_NewRequest (verb body : string) : @Request Ctx :=
  {| req_Method := verb; req_Header := ∅; req_Body := body; req_Context := [] |}.

Definition setHeader (r : @Request Ctx) (key value : string) : @Request Ctx :=
  {| req_Method := req_Method r;
     req_Header := Header_Set (req_Header r) key value;
     req_Body := req_Body r;
     req_Context := req_Context r |}.

(** [w.Body], the bytes written. *)
Definition written (w : ResponseRecorder) : string := default "" (rw_Body w).

(** [executeRaw]: the request marshalled as it is, served, and the
    response decoded into [res]. *)
Definition executeRaw (s : @Server Ctx json string) (req res : json)
  : option (error json) * json :=
  let r := setHeader (http_NewRequest "POST" (Marshal req)) "Content-Type" "application/json" in
  let w := fst (ServeHTTP zeroValue s NewRecorder r) in
  json2.DecodeClientResponse parseMessage decodeMessage (written w) res.

(** [execute]: the same through [EncodeClientRequest]. *)
Definition execute (s : @Server Ctx json string) (name : string) (req res : json)
  : option (error json) * json :=
  let buf := json2.EncodeClientRequest name req (JNum 1) in
  let r := setHeader (http_NewRequest "POST" buf) "Content-Type" "application/json" in
  let w := fst (ServeHTTP zeroValue s NewRecorder r) in
  json2.DecodeClientResponse parseMessage decodeMessage (written w) res.

(** [Service1NoParamsRequest{"2.0", "Service1.Multiply", 1}] *)
Definition noParamsRequest : json :=
  JObj [("jsonrpc", JStr "2.0"); ("method", JStr "Service1.Multiply"); ("id", JNum 1)].

(** [Service1ParamsArrayRequest] with one positional parameter. *)
Definition paramsArrayRequest : json :=
  JObj [("jsonrpc", JStr "2.0"); ("params", JArr [JObj [("T", JStr "test")]]);
        ("method", JStr "Service1.Multiply"); ("id", JNum 1)].

(** Requests of the scenarios below. *)
Definition multiplyBody : string :=
  json2.EncodeClientRequest "Service1.Multiply" (Service1Request 4 2) (JNum 1).

Definition multiplyRequest : @Request Ctx :=
  setHeader (http_NewRequest "POST" multiplyBody) "Content-Type" "application/json".

Definition scaledRequest : @Request Ctx :=
  setHeader
    (http_NewRequest "POST"
       (json2.EncodeClientRequest "Service1.Scaled" (Service1Request 4 2) (JNum 7)))
    "Content-Type" "Application/JSON; charset=utf-8".

Definition arrayRequest : @Request Ctx :=
  setHeader (http_NewRequest "POST" (Marshal paramsArrayRequest)) "Content-Type" "application/json".

Definition getRequest : @Request Ctx := http_NewRequest "GET" "".

(** The body of [TestDecodeNullResult]. *)
Definition nullResultBody : string :=
  json_text "{'jsonrpc': '2.0', 'id': 12345, 'result': null}".

(** No Content-Type header. *)
Definition bareRequest : @Request Ctx := http_NewRequest "POST" multiplyBody.

(** A second codec, registered under the empty content type. *)
Definition twoCodecs : @Server Ctx json string :=
  RegisterCodec server (Some NewCodec) "".

End json_test.

(** ** README.md: a service whose method takes the context alone *)

Module hello.

#[local] Existing Instance json_test.noTables.

Definition PingResp (Message : string) : json := JObj [("Message", JStr Message)].

(** [Ping], answering "Pong" whatever it is sent. *)
Definition Ping (refValue : list (@Value json_test.Ctx json)) : json * option (error json) :=
  (PingResp "Pong", None).

(** Modelled from the spec: the method table after
    [s.RegisterService(new(HelloService), "")] (the registry, [serviceMap],
    is not part of these sources). *)
Definition Hello_table : @serviceMap json_test.Ctx json :=
  {| get := fun name =>
       if String.eqb name "HelloService.Ping" then
         inr ({| rcvr := ValueOf (JObj []) |},
              {| method := Ping; argsType := [typeOfContext] |})
       else inl (ErrorPtr (NewError E_NO_METHOD ("rpc: can't find method " +:+ name))) |}.

Definition server : @Server json_test.Ctx json string :=
  RegisterCodec (NewServer Hello_table [ServerBefore json_test.tagMethod])
    (Some json_test.NewCodec) "application/json".

(** A call of [Ping] with positional params. *)
Definition pingRequest : @Request json_test.Ctx :=
  json_test.setHeader
    (json_test.http_NewRequest "POST"
       (json2.EncodeClientRequest "HelloService.Ping" (JArr [JNum 1]) (JNum 3)))
    "Content-Type" "application/json".

(** A call of a method that [Service1] does not have. *)
Definition unknownRequest : @Request json_test.Ctx :=
  json_test.setHeader
    (json_test.http_NewRequest "POST"
       (json2.EncodeClientRequest "Service1.Divide" (json_test.Service1Request 4 2) (JNum 5)))
    "Content-Type" "application/json".

End hello.

(* ================================================================== *)
(** * Properties *)

(** ** Strings *)

Lemma N_of_ascii_inj c d : N_of_ascii c = N_of_ascii d -> c = d.
Proof.
  intros H. rewrite <- (ascii_N_embedding c), <- (ascii_N_embedding d).
  now rewrite H.
Qed.

Lemma is_upper_range c :
  is_upper c = true <-> (65 <= N_of_ascii c <= 90)%N.
Proof. unfold is_upper. rewrite andb_true_iff, !N.leb_le. tauto. Qed.

Lemma lower_ascii_N c :
  N_of_ascii (lower_ascii c)
  = if is_upper c then (N_of_ascii c + 32)%N else N_of_ascii c.
Proof.
  unfold lower_ascii. destruct (is_upper c) eqn:E; [|reflexivity].
  apply is_upper_range in E. apply N_ascii_embedding. lia.
Qed.

Lemma lower_ascii_same c d :
  lower_ascii c = lower_ascii d <-> same_letter c d = true.
Proof.
  unfold same_letter. destruct (Ascii.eqb_spec c d) as [->|Hne].
  - tauto.
  - assert (Hn : N_of_ascii c <> N_of_ascii d)
      by (intros H; apply Hne, N_of_ascii_inj, H).
    rewrite orb_true_iff, !andb_true_iff, !N.eqb_eq. split.
    + intros H. apply (f_equal N_of_ascii) in H. rewrite !lower_ascii_N in H.
      destruct (is_upper c) eqn:Ec, (is_upper d) eqn:Ed; lia.
    + intros H. apply N_of_ascii_inj. rewrite !lower_ascii_N.
      destruct H as [[Ec H]|[Ed H]].
      * rewrite Ec. destruct (is_upper d) eqn:Ed; [|lia].
        apply is_upper_range in Ec, Ed. lia.
      * rewrite Ed. destruct (is_upper c) eqn:Ec; [|lia].
        apply is_upper_range in Ec, Ed. lia.
Qed.

Lemma lower_bytes_same a b :
  lower_bytes a = lower_bytes b <-> equal_up_to_case a b = true.
Proof.
  revert b. induction a as [|c a IH]; intros [|d b]; simpl; try easy.
  rewrite andb_true_iff, <- IH, <- lower_ascii_same. split.
  - intros H. now inversion H.
  - intros [-> ->]. reflexivity.
Qed.

Lemma lower_ascii_idem c : lower_ascii (lower_ascii c) = lower_ascii c.
Proof.
  apply N_of_ascii_inj. rewrite lower_ascii_N.
  destruct (is_upper (lower_ascii c)) eqn:E; [|reflexivity].
  apply is_upper_range in E. rewrite lower_ascii_N in E.
  destruct (is_upper c) eqn:Ec.
  - apply is_upper_range in Ec. lia.
  - apply not_true_iff_false in Ec. rewrite is_upper_range in Ec. lia.
Qed.

Lemma lower_ascii_not_upper c : is_upper (lower_ascii c) = false.
Proof.
  apply not_true_iff_false. rewrite is_upper_range, lower_ascii_N.
  destruct (is_upper c) eqn:Ec.
  - apply is_upper_range in Ec. lia.
  - apply not_true_iff_false in Ec. rewrite is_upper_range in Ec. lia.
Qed.

Lemma lower_bytes_idem s : lower_bytes (lower_bytes s) = lower_bytes s.
Proof. induction s as [|c s IH]; simpl; [reflexivity|]. now rewrite lower_ascii_idem, IH. Qed.

Lemma lower_bytes_no_upper s :
  forallb (fun c => negb (is_upper c)) (list_ascii_of_string (lower_bytes s)) = true.
Proof.
  induction s as [|c s IH]; simpl; [reflexivity|].
  now rewrite lower_ascii_not_upper, IH.
Qed.

Lemma lower_bytes_fold s : equal_up_to_case (lower_bytes s) s = true.
Proof. apply lower_bytes_same, lower_bytes_idem. Qed.

Section ToLowerProperties.

Context {tables : UnicodeLower}.

(** On a string of ASCII characters [strings.ToLower] is the loop over the
    bytes, whatever the Unicode tables hold. *)
Lemma ToLower_ASCII s : isASCII s = true -> ToLower s = lower_bytes s.
Proof. intros H'. unfold ToLower. now rewrite H'. Qed.

Lemma ToLower_empty : ToLower "" = "".
Proof. reflexivity. Qed.

(** Two strings of ASCII characters have the same lower-case form exactly
    when they differ in letter case only. *)
Lemma ToLower_ASCII_same a b :
  isASCII a = true -> isASCII b = true ->
  (ToLower a = ToLower b <-> equal_up_to_case a b = true).
Proof.
  intros Ha Hb. rewrite (ToLower_ASCII a Ha), (ToLower_ASCII b Hb).
  apply lower_bytes_same.
Qed.

End ToLowerProperties.

Lemma prefix_byte a c s :
  String.prefix (String a "") (String c s) = if ascii_dec a c then true else false.
Proof. simpl. destruct (ascii_dec a c); [now destruct s | reflexivity]. Qed.

Lemma index_byte_cons a c s :
  String.index 0 (String a "") (String c s)
  = if ascii_dec a c then Some 0%nat
    else match String.index 0 (String a "") s with
         | Some n => Some (S n)
         | None => None
         end.
Proof.
  change (String.index 0 (String a "") (String c s))
    with (if String.prefix (String a "") (String c s) then Some 0%nat
          else match String.index 0 (String a "") s with
               | Some n => Some (S n)
               | None => None
               end).
  rewrite prefix_byte. now destruct (ascii_dec a c).
Qed.

Lemma index_semicolon_cut pre post :
  String.index 0 ";" pre = None ->
  String.index 0 ";" (pre +:+ String ";" post) = Some (String.length pre).
Proof.
  induction pre as [|c pre IH]; intros H.
  - change ("" +:+ String ";" post) with (String ";" post).
    rewrite index_byte_cons. now destruct (ascii_dec ";" ";").
  - change ((String c pre) +:+ String ";" post) with (String c (pre +:+ String ";" post)).
    rewrite index_byte_cons in H |- *.
    destruct (ascii_dec ";" c) as [|Hc]; [discriminate H |].
    destruct (String.index 0 ";" pre) eqn:E; [discriminate H |].
    now rewrite IH.
Qed.

Lemma substring_prefix_app pre rest :
  String.substring 0 (String.length pre) (pre +:+ rest) = pre.
Proof.
  induction pre as [|c pre IH]; simpl.
  - now destruct rest.
  - change ((String c pre) +:+ rest) with (String c (pre +:+ rest)). now rewrite IH.
Qed.

(** ** The JSON text: reading back what was written *)

Lemma append_String c s t : String c s +:+ t = String c (s +:+ t).
Proof. reflexivity. Qed.

Lemma append_assoc (a b c : string) : (a +:+ b) +:+ c = a +:+ (b +:+ c).
Proof. induction a as [|x a IH]; [reflexivity|]. rewrite !append_String. now rewrite IH. Qed.

Lemma append_nil_r (a : string) : a +:+ "" = a.
Proof. induction a as [|x a IH]; [reflexivity|]. rewrite append_String. now rewrite IH. Qed.

Lemma strip_prefix_app p rest : strip_prefix p (p +:+ rest) = Some rest.
Proof.
  induction p as [|a p IH]; [reflexivity|].
  rewrite append_String. cbn [strip_prefix]. now rewrite Ascii.eqb_refl.
Qed.

Lemma strip_prefix_head_ne a p c s :
  a <> c -> strip_prefix (String a p) (String c s) = None.
Proof. intros H. cbn [strip_prefix]. now rewrite (proj2 (Ascii.eqb_neq a c) H). Qed.

Lemma is_num_char_cases c :
  is_num_char c = true <-> c = "-"%char \/ is_digit c = true.
Proof.
  unfold is_num_char, is_digit. rewrite orb_true_iff, Ascii.eqb_eq. tauto.
Qed.

Lemma span_num_digits t rest :
  forallb is_num_char (list_ascii_of_string t) = true ->
  match rest with String c _ => is_num_char c = false | EmptyString => True end ->
  span_num (t +:+ rest) = (t, rest).
Proof.
  intros Ht Hr. induction t as [|c t IH].
  - change ("" +:+ rest) with rest. destruct rest as [|c r]; [reflexivity|].
    cbn [span_num]. now rewrite Hr.
  - cbn in Ht. apply andb_true_iff in Ht. destruct Ht as [Hc Ht].
    rewrite append_String. cbn [span_num]. rewrite Hc, (IH Ht). reflexivity.
Qed.

Lemma print_Z_chars n : forallb is_num_char (list_ascii_of_string (print_Z n)) = true.
Proof.
  assert (Hu : forall d, forallb is_num_char
                           (list_ascii_of_string (NilEmpty.string_of_uint d)) = true)
    by (induction d; cbn; try reflexivity; exact IHd).
  assert (Hz : forall d, forallb is_num_char
                           (list_ascii_of_string (NilZero.string_of_uint d)) = true)
    by (intros d; destruct d; try apply Hu; reflexivity).
  unfold print_Z. destruct (Z.to_int n); cbn [NilZero.string_of_int]; [apply Hz|].
  cbn. apply Hz.
Qed.

Lemma print_Z_nonempty n : exists c t, print_Z n = String c t /\ is_num_char c = true.
Proof.
  pose proof (print_Z_chars n) as H.
  assert (Hne : print_Z n <> "").
  { unfold print_Z. destruct n; cbn [Z.to_int NilZero.string_of_int]; try discriminate.
    unfold NilZero.string_of_uint. destruct (Pos.to_uint p); discriminate. }
  destruct (print_Z n) as [|c t]; [contradiction|].
  exists c, t. split; [reflexivity|]. cbn in H. now apply andb_true_iff in H.
Qed.

Lemma int_of_string_print_Z n :
  exists i, NilZero.int_of_string (print_Z n) = Some i /\ Z.of_int i = n.
Proof.
  unfold print_Z. exists (Z.to_int n). split; [|apply DecimalZ.of_to].
  apply NilZero.isi.
  - destruct n; cbn; try discriminate. intros H. injection H as H.
    exact (Unsigned.to_uint_nonnil p H).
  - destruct n; cbn; try discriminate. intros H. injection H as H.
    exact (Unsigned.to_uint_nonnil p H).
Qed.

Lemma parse_number_print_Z n rest :
  match rest with String c _ => is_num_char c = false | EmptyString => True end ->
  parse_number (print_Z n +:+ rest) = Some (n, rest).
Proof.
  intros Hr. unfold parse_number. rewrite (span_num_digits _ _ (print_Z_chars n) Hr).
  destruct (int_of_string_print_Z n) as (i & -> & Hi). rewrite Hi.
  now rewrite String.eqb_refl.
Qed.

Lemma parse_chars_escape s rest :
  parse_chars (escape s +:+ String dquote rest) = Some (s, rest).
Proof.
  induction s as [|c s IH].
  - change (escape "" +:+ String dquote rest) with (String dquote rest).
    cbn [parse_chars]. now rewrite Ascii.eqb_refl.
  - cbn [escape]. destruct (Ascii.eqb c dquote || Ascii.eqb c backslash) eqn:E.
    + rewrite !append_String. cbn [parse_chars].
      change (Ascii.eqb backslash dquote) with false.
      change (Ascii.eqb backslash backslash) with true. cbv iota.
      unfold unescape. rewrite E, IH. reflexivity.
    + rewrite append_String. cbn [parse_chars].
      apply orb_false_iff in E. destruct E as [-> ->]. now rewrite IH.
Qed.

Lemma parse_string_quote s rest : parse_string (quote s +:+ rest) = Some (s, rest).
Proof.
  unfold quote. rewrite append_String, append_assoc, append_String.
  cbn [parse_string]. rewrite Ascii.eqb_refl. apply parse_chars_escape.
Qed.

(** What a sign or a digit is not. *)
Lemma num_char_plain c :
  is_num_char c = true ->
  is_ws c = false /\ Ascii.eqb c dquote = false /\ Ascii.eqb c "[" = false
  /\ Ascii.eqb c "{" = false /\ "n"%char <> c /\ "t"%char <> c /\ "f"%char <> c
  /\ "]"%char <> c /\ "}"%char <> c.
Proof.
  intros H. apply is_num_char_cases in H. destruct H as [->|H].
  - repeat split; try reflexivity; discriminate.
  - assert (Hne : forall x, is_digit x = false -> x <> c) by (intros x Hx ->; congruence).
    assert (Heq : forall x, is_digit x = false -> Ascii.eqb c x = false).
    { intros x Hx. apply Ascii.eqb_neq. intros ->. congruence. }
    repeat split; try (apply Hne; reflexivity); try (apply Heq; reflexivity).
    unfold is_ws. rewrite !Heq; reflexivity.
Qed.

Lemma Marshal_JArr l : Marshal (JArr l) = "[" +:+ elements_text l.
Proof. reflexivity. Qed.

Lemma Marshal_JObj l : Marshal (JObj l) = "{" +:+ members_text l.
Proof. reflexivity. Qed.

(** The text of a value starts with a byte that is neither white space nor
    a closing bracket. *)
Lemma Marshal_head v :
  exists c t, Marshal v = String c t /\ is_ws c = false /\ "]"%char <> c.
Proof.
  destruct v as [|[|]|n|s|l|l].
  - exists "n"%char, "ull". repeat split; discriminate.
  - exists "t"%char, "rue". repeat split; discriminate.
  - exists "f"%char, "alse". repeat split; discriminate.
  - destruct (print_Z_nonempty n) as (c & t & E & Hc).
    exists c, t. split; [exact E|]. apply num_char_plain in Hc. tauto.
  - eexists _, _. split; [reflexivity|]. split; [reflexivity | discriminate].
  - eexists _, _. split; [apply Marshal_JArr|]. split; [reflexivity | discriminate].
  - eexists _, _. split; [apply Marshal_JObj|]. split; [reflexivity | discriminate].
Qed.

Lemma sz_JArr l : sz (JArr l) = S (sz_elements l).
Proof. reflexivity. Qed.

Lemma sz_JObj l : sz (JObj l) = S (sz_members l).
Proof. reflexivity. Qed.

Lemma skip_ws_plain c t : is_ws c = false -> skip_ws (String c t) = String c t.
Proof. intros H. cbn [skip_ws]. now rewrite H. Qed.

Lemma skip_ws_Marshal v rest : skip_ws (Marshal v +:+ rest) = Marshal v +:+ rest.
Proof.
  destruct (Marshal_head v) as (c & t & -> & Hc & _).
  rewrite append_String. now apply skip_ws_plain.
Qed.

Lemma elements_text_cons x l rest :
  elements_text (x :: l) +:+ rest
  = Marshal x +:+ (match l with [] => "]" | _ => "," end) +:+
      (match l with [] => rest | _ => elements_text l +:+ rest end).
Proof.
  destruct l as [|y l].
  - cbn [elements_text]. now rewrite append_assoc.
  - change (elements_text (x :: y :: l))
      with (Marshal x +:+ "," +:+ elements_text (y :: l)).
    now rewrite !append_assoc.
Qed.

Lemma members_text_cons k x l rest :
  members_text ((k, x) :: l) +:+ rest
  = quote k +:+ ":" +:+ Marshal x +:+ (match l with [] => "}" | _ => "," end) +:+
      (match l with [] => rest | _ => members_text l +:+ rest end).
Proof.
  destruct l as [|y l].
  - cbn [members_text]. now rewrite !append_assoc.
  - change (members_text ((k, x) :: y :: l))
      with (quote k +:+ ":" +:+ Marshal x +:+ "," +:+ members_text (y :: l)).
    now rewrite !append_assoc.
Qed.

Lemma parse_value_S fuel s :
  parse_value (S fuel) s
  = match skip_ws s with
    | EmptyString => None
    | String c rest as s' =>
        if Ascii.eqb c dquote then
          match parse_chars rest with
          | Some (t, r) => Some (JStr t, r)
          | None => None
          end
        else if Ascii.eqb c "[" then
          match strip_prefix "]" (skip_ws rest) with
          | Some r => Some (JArr [], r)
          | None =>
              match parse_elements fuel rest with
              | Some (l, r) => Some (JArr l, r)
              | None => None
              end
          end
        else if Ascii.eqb c "{" then
          match strip_prefix "}" (skip_ws rest) with
          | Some r => Some (JObj [], r)
          | None =>
              match parse_members fuel rest with
              | Some (l, r) => Some (JObj l, r)
              | None => None
              end
          end
        else
          match strip_prefix "null" s' with
          | Some r => Some (JNull, r)
          | None =>
              match strip_prefix "true" s' with
              | Some r => Some (JBool true, r)
              | None =>
                  match strip_prefix "false" s' with
                  | Some r => Some (JBool false, r)
                  | None =>
                      match parse_number s' with
                      | Some (n, r) => Some (JNum n, r)
                      | None => None
                      end
                  end
              end
          end
    end.
Proof. reflexivity. Qed.

Lemma parse_elements_S fuel s :
  parse_elements (S fuel) s
  = match parse_value fuel s with
    | Some (v, r) =>
        match strip_prefix "," (skip_ws r) with
        | Some r' =>
            match parse_elements fuel r' with
            | Some (l, r'') => Some (v :: l, r'')
            | None => None
            end
        | None =>
            match strip_prefix "]" (skip_ws r) with
            | Some r' => Some ([v], r')
            | None => None
            end
        end
    | None => None
    end.
Proof. reflexivity. Qed.

Lemma parse_members_S fuel s :
  parse_members (S fuel) s
  = match parse_string (skip_ws s) with
    | Some (k, r) =>
        match strip_prefix ":" (skip_ws r) with
        | Some r1 =>
            match parse_value fuel r1 with
            | Some (v, r2) =>
                match strip_prefix "," (skip_ws r2) with
                | Some r3 =>
                    match parse_members fuel r3 with
                    | Some (l, r4) => Some ((k, v) :: l, r4)
                    | None => None
                    end
                | None =>
                    match strip_prefix "}" (skip_ws r2) with
                    | Some r3 => Some ([(k, v)], r3)
                    | None => None
                    end
                end
            | None => None
            end
        | None => None
        end
    | None => None
    end.
Proof. reflexivity. Qed.

Lemma parse_value_string fuel rest :
  parse_value (S fuel) (String dquote rest)
  = match parse_chars rest with
    | Some (t, r) => Some (JStr t, r)
    | None => None
    end.
Proof. reflexivity. Qed.

Lemma parse_value_array fuel rest :
  parse_value (S fuel) (String "[" rest)
  = match strip_prefix "]" (skip_ws rest) with
    | Some r => Some (JArr [], r)
    | None =>
        match parse_elements fuel rest with
        | Some (l, r) => Some (JArr l, r)
        | None => None
        end
    end.
Proof. reflexivity. Qed.

Lemma parse_value_object fuel rest :
  parse_value (S fuel) (String "{" rest)
  = match strip_prefix "}" (skip_ws rest) with
    | Some r => Some (JObj [], r)
    | None =>
        match parse_members fuel rest with
        | Some (l, r) => Some (JObj l, r)
        | None => None
        end
    end.
Proof. reflexivity. Qed.

Lemma parse_value_number fuel c t :
  is_num_char c = true ->
  parse_value (S fuel) (String c t)
  = match parse_number (String c t) with
    | Some (n, r) => Some (JNum n, r)
    | None => None
    end.
Proof.
  intros Hc. rewrite parse_value_S.
  destruct (num_char_plain c Hc) as (Hws & E1 & E2 & E3 & Hn & Ht & Hf & _).
  rewrite (skip_ws_plain _ _ Hws), E1, E2, E3. cbv zeta.
  now rewrite (strip_prefix_head_ne _ _ _ _ Hn), (strip_prefix_head_ne _ _ _ _ Ht),
    (strip_prefix_head_ne _ _ _ _ Hf).
Qed.

Lemma after_comma r : strip_prefix "," (skip_ws ("," +:+ r)) = Some r.
Proof. reflexivity. Qed.

Lemma after_colon r : strip_prefix ":" (skip_ws (":" +:+ r)) = Some r.
Proof. reflexivity. Qed.

Lemma after_bracket r :
  strip_prefix "," (skip_ws ("]" +:+ r)) = None
  /\ strip_prefix "]" (skip_ws ("]" +:+ r)) = Some r.
Proof. split; reflexivity. Qed.

Lemma after_brace r :
  strip_prefix "," (skip_ws ("}" +:+ r)) = None
  /\ strip_prefix "}" (skip_ws ("}" +:+ r)) = Some r.
Proof. split; reflexivity. Qed.

Lemma skip_ws_quote k r : skip_ws (quote k +:+ r) = quote k +:+ r.
Proof. reflexivity. Qed.

Lemma strip_brace_quote k r : strip_prefix "}" (quote k +:+ r) = None.
Proof. reflexivity. Qed.

Lemma parse_back fuel :
  (forall v rest, (sz v <= fuel)%nat -> ends_number rest ->
     parse_value fuel (Marshal v +:+ rest) = Some (v, rest))
  /\ (forall l rest, l <> [] -> (sz_elements l <= fuel)%nat ->
        parse_elements fuel (elements_text l +:+ rest) = Some (l, rest))
  /\ (forall l rest, l <> [] -> (sz_members l <= fuel)%nat ->
        parse_members fuel (members_text l +:+ rest) = Some (l, rest)).
Proof.
  induction fuel as [|fuel (IHv & IHe & IHm)].
  { split; [|split].
    - intros v rest H. destruct v; cbn in H; lia.
    - intros [|x l] rest Hne H; [contradiction | cbn in H; lia].
    - intros [|[k x] l] rest Hne H; [contradiction | cbn in H; lia]. }
  split; [|split].
  - intros v rest Hsz Hrest.
    destruct v as [|[|]|n|s|l|l].
    + reflexivity.
    + reflexivity.
    + reflexivity.
    + destruct (print_Z_nonempty n) as (c & t & E & Hc).
      pose proof (parse_number_print_Z n rest Hrest) as Hp.
      cbn [Marshal] in *. rewrite E in *. rewrite append_String in *.
      now rewrite (parse_value_number _ _ _ Hc), Hp.
    + cbn [Marshal]. unfold quote. rewrite append_String, append_assoc, append_String.
      now rewrite parse_value_string, parse_chars_escape.
    + rewrite Marshal_JArr.
      change ("[" +:+ elements_text l) with (String "[" (elements_text l)).
      rewrite append_String, parse_value_array.
      destruct l as [|x l].
      * reflexivity.
      * rewrite sz_JArr in Hsz.
        rewrite (IHe (x :: l) rest) by (try discriminate; lia).
        rewrite elements_text_cons, skip_ws_Marshal.
        destruct (Marshal_head x) as (c & t & -> & _ & Hc).
        rewrite append_String, (strip_prefix_head_ne _ _ _ _ Hc). reflexivity.
    + rewrite Marshal_JObj.
      change ("{" +:+ members_text l) with (String "{" (members_text l)).
      rewrite append_String, parse_value_object.
      destruct l as [|[k x] l].
      * reflexivity.
      * rewrite sz_JObj in Hsz.
        rewrite (IHm ((k, x) :: l) rest) by (try discriminate; lia).
        now rewrite members_text_cons, skip_ws_quote, strip_brace_quote.
  - intros [|x l] rest Hne Hsz; [contradiction|].
    rewrite parse_elements_S, elements_text_cons.
    change (sz_elements (x :: l)) with (S (sz x + sz_elements l)) in Hsz.
    rewrite IHv; [|lia|destruct l; reflexivity].
    destruct l as [|y l].
    + destruct (after_bracket rest) as [-> ->]. reflexivity.
    + rewrite after_comma, IHe by (try discriminate; lia). reflexivity.
  - intros [|[k x] l] rest Hne Hsz; [contradiction|].
    rewrite parse_members_S, members_text_cons.
    change (sz_members ((k, x) :: l)) with (S (sz x + sz_members l)) in Hsz.
    rewrite skip_ws_quote, parse_string_quote, after_colon.
    rewrite IHv; [|lia|destruct l; reflexivity].
    destruct l as [|y l].
    + destruct (after_brace rest) as [-> ->]. reflexivity.
    + rewrite after_comma, IHm by (try discriminate; lia). reflexivity.
Qed.

Lemma json_nested_ind (P : json -> Prop) :
  P JNull -> (forall b, P (JBool b)) -> (forall n, P (JNum n)) -> (forall s, P (JStr s)) ->
  (forall l, Forall P l -> P (JArr l)) ->
  (forall l, Forall (fun kv => P (snd kv)) l -> P (JObj l)) ->
  forall v, P v.
Proof.
  intros HNull HBool HNum HStr HArr HObj.
  fix IH 1. intros [|b|n|s|l|l].
  - exact HNull.
  - apply HBool.
  - apply HNum.
  - apply HStr.
  - apply HArr. induction l as [|x l IHl]; constructor; [apply IH | exact IHl].
  - apply HObj. induction l as [|[k x] l IHl]; constructor; [apply IH | exact IHl].
Qed.

Lemma length_append (a b : string) :
  String.length (a +:+ b) = (String.length a + String.length b)%nat.
Proof. induction a as [|c a IH]; [reflexivity|]. rewrite append_String. cbn. now rewrite IH. Qed.

Lemma sz_le_length v : (sz v <= String.length (Marshal v))%nat.
Proof.
  induction v as [|b|n|s|l IH|l IH] using json_nested_ind.
  - cbn. lia.
  - destruct b; cbn; lia.
  - destruct (print_Z_nonempty n) as (c & t & E & _). cbn [Marshal sz]. rewrite E. cbn. lia.
  - cbn. lia.
  - rewrite sz_JArr, Marshal_JArr, length_append. cbn [String.length].
    assert (H : (sz_elements l <= String.length (elements_text l))%nat); [|lia].
    induction IH as [|x l Hx _ IHl]; [cbn; lia|].
    change (sz_elements (x :: l)) with (S (sz x + sz_elements l)).
    rewrite <- (append_nil_r (elements_text (x :: l))), elements_text_cons.
    rewrite !length_append. destruct l as [|y l].
    + change (sz_elements []) with 0%nat. change (String.length "]") with 1%nat. lia.
    + change (String.length ",") with 1%nat. rewrite append_nil_r. lia.
  - rewrite sz_JObj, Marshal_JObj, length_append. cbn [String.length].
    assert (H : (sz_members l <= String.length (members_text l))%nat); [|lia].
    induction IH as [|[k x] l Hx _ IHl]; [cbn; lia|].
    change (sz_members ((k, x) :: l)) with (S (sz x + sz_members l)).
    rewrite <- (append_nil_r (members_text ((k, x) :: l))), members_text_cons.
    rewrite !length_append. cbn [snd] in Hx. destruct l as [|y l].
    + change (sz_members []) with 0%nat. change (String.length "}") with 1%nat. lia.
    + change (String.length ",") with 1%nat. rewrite append_nil_r. lia.
Qed.

(** Reading back what [Marshal] wrote gives the document. *)
Lemma Unmarshal_Marshal v : Unmarshal (Marshal v) = Some v.
Proof.
  unfold Unmarshal.
  pose proof (sz_le_length v) as Hsz.
  destruct (parse_back (S (String.length (Marshal v)))) as [Hv _].
  specialize (Hv v "" (Nat.le_trans _ _ _ Hsz (Nat.le_succ_diag_r _)) I).
  rewrite append_nil_r in Hv. rewrite Hv. reflexivity.
Qed.

(** ** The error model *)

(** C9: the error codes are the fixed values of the wire contract, and the
    error string of an [Error] is its [Message]: two errors with the same
    message have the same error string, whatever their [Code] and [Data]. *)
Theorem error_codes_and_message :
  E_PARSE = -32700 /\ E_INVALID_REQ = -32600 /\ E_NO_METHOD = -32601
  /\ E_BAD_PARAMS = -32602 /\ E_INTERNAL = -32603 /\ E_SERVER = -32000
  /\ (forall (Val : Type) (e : Error Val), Error_Error e = Message e)
  /\ (forall (Val : Type) (c1 c2 : ErrorCode) (m : string) (d1 d2 : option Val),
        Error_Error (mkError c1 m d1) = Error_Error (mkError c2 m d2))
  /\ (forall (Val : Type) (code : ErrorCode) (m : string),
        Error_Error (@NewError Val code m) = m).
Proof. repeat split. Qed.

(** ** The response sink *)

Lemma CanonicalHeaderKey_content_type :
  CanonicalHeaderKey "Content-Type" = "Content-Type".
Proof. reflexivity. Qed.

Lemma CanonicalHeaderKey_nosniff :
  CanonicalHeaderKey "x-content-type-options" = "X-Content-Type-Options".
Proof. reflexivity. Qed.

Lemma Header_Get_Set_same h key value :
  Header_Get (Header_Set h key value) key = value.
Proof. unfold Header_Get, Header_Set. now rewrite lookup_insert_eq. Qed.

Lemma Header_Get_Set_other h key key' value :
  CanonicalHeaderKey key <> CanonicalHeaderKey key' ->
  Header_Get (Header_Set h key value) key' = Header_Get h key'.
Proof. intros H. unfold Header_Get, Header_Set. now rewrite lookup_insert_ne. Qed.

Lemma WriteError_Code w status msg :
  status <> 0 -> rw_Code (WriteError w status msg) = status.
Proof.
  intros H. unfold WriteError, rw_Write; simpl.
  destruct (Z.eqb_spec status 0); [contradiction | reflexivity].
Qed.

Lemma WriteError_Body w status msg :
  rw_Body (WriteError w status msg) = (fun b => b +:+ msg) <$> rw_Body w.
Proof. unfold WriteError, rw_Write; simpl. now destruct (rw_Body w). Qed.

Lemma WriteError_content_type w status msg :
  Header_Get (rw_Header (WriteError w status msg)) "Content-Type"
  = "text/plain; charset=utf-8".
Proof. unfold WriteError, rw_Write, rw_Header; simpl. apply Header_Get_Set_same. Qed.

Lemma WriteError_keeps_nosniff_header w status msg :
  Header_Get (rw_Header (WriteError w status msg)) "x-content-type-options"
  = Header_Get (rw_Header w) "x-content-type-options".
Proof.
  unfold WriteError, rw_Write, rw_Header; simpl.
  apply Header_Get_Set_other. discriminate.
Qed.

(** ** The dispatcher *)

Section DispatcherProperties.

Context {Ctx Val St : Type}.
Context {tables : UnicodeLower}.
Variable zeroValue : rtype -> Val.

Implicit Types (s : @Server Ctx Val St) (r : @Request Ctx) (w : ResponseRecorder).
Implicit Types (c : @CodecRequest Val St) (codec : @Codec Ctx Val St).
Implicit Types (bs : list (@ServerBeforeFunc Ctx Val St)) (ctx : Ctx).

Lemma dispatch_non_POST s w r :
  req_Method r <> "POST" ->
  dispatch zeroValue s w r
  = (Returned,
     (WriteError w 405 ("rpc: POST method required, received " +:+ req_Method r), [])).
Proof.
  intros HP. unfold dispatch.
  destruct (String.eqb_spec (req_Method r) "POST"); [contradiction | reflexivity].
Qed.

Lemma ServeHTTP_non_POST s w r :
  req_Method r <> "POST" ->
  ServeHTTP zeroValue s w r
  = (WriteError w 405 ("rpc: POST method required, received " +:+ req_Method r), []).
Proof. intros HP. unfold ServeHTTP. now rewrite (dispatch_non_POST s w r HP). Qed.

(** C8: a request whose transport method is not POST is answered at once
    with status 405 and a plain-text message, and the dispatcher calls no
    collaborator: no codec, no hook, no lookup, no method. *)
Theorem non_POST_rejected s w r :
  req_Method r <> "POST" ->
  let (w', log) := ServeHTTP zeroValue s w r in
  w' = WriteError w 405 ("rpc: POST method required, received " +:+ req_Method r)
  /\ rw_Code w' = 405
  /\ Header_Get (rw_Header w') "Content-Type" = "text/plain; charset=utf-8"
  /\ rw_Body w'
     = (fun b => b +:+ "rpc: POST method required, received " +:+ req_Method r)
         <$> rw_Body w
  /\ log = [].
Proof.
  intros H. rewrite (ServeHTTP_non_POST s w r H).
  split; [reflexivity|]. split; [now apply WriteError_Code|].
  split; [apply WriteError_content_type|]. split; [apply WriteError_Body|reflexivity].
Qed.

(** *** Codec selection *)

Lemma rangeCodecs_sole (m : gmap string (option (@Codec Ctx Val St))) :
  size m = 1%nat ->
  exists k v, m = {[k := v]} /\ rangeCodecs m = v.
Proof.
  intros Hsz. rewrite <- length_map_to_list in Hsz.
  destruct (map_to_list m) as [|[k v] [|? ?]] eqn:E; try discriminate Hsz.
  exists k, v. split.
  - rewrite <- (list_to_map_to_list m), E. reflexivity.
  - unfold rangeCodecs. now rewrite E.
Qed.

Lemma contentTypeOf_whole r :
  Index (Header_Get (req_Header r) "Content-Type") ";" = -1 ->
  contentTypeOf r = Header_Get (req_Header r) "Content-Type".
Proof. intros H. unfold contentTypeOf. now rewrite H. Qed.

Lemma Index_none (str sub : string) :
  Index str sub = -1 <-> String.index 0 sub str = None.
Proof.
  unfold Index. destruct (String.index 0 sub str); split; intros H; try easy. lia.
Qed.

Lemma contentTypeOf_cut r pre post :
  Header_Get (req_Header r) "Content-Type" = pre +:+ String ";" post ->
  Index pre ";" = -1 ->
  contentTypeOf r = pre.
Proof.
  intros Hh Hpre. apply Index_none in Hpre.
  unfold contentTypeOf, Index, slice_to. rewrite Hh.
  rewrite (index_semicolon_cut pre post Hpre).
  destruct (Z.eqb_spec (Z.of_nat (String.length pre)) (-1)) as [E|_]; [lia|].
  cbn [negb]. rewrite Nat2Z.id. apply substring_prefix_app.
Qed.

Lemma contentTypeOf_absent r :
  req_Header r !! "Content-Type" = None -> contentTypeOf r = "".
Proof.
  intros H. unfold contentTypeOf, Header_Get.
  rewrite CanonicalHeaderKey_content_type, H. reflexivity.
Qed.

Lemma dispatch_sole s w r :
  req_Method r = "POST" -> contentTypeOf r = "" -> size (codecs s) = 1%nat ->
  exists k v, codecs s = {[k := v]}
    /\ rangeCodecs (codecs s) = v
    /\ dispatch zeroValue s w r
       = match v with
         | Some codec => (Returned, serveCodec zeroValue s w r codec)
         | None => (Panicked, (w, []))
         end.
Proof.
  intros HP Hct Hsz. destruct (rangeCodecs_sole _ Hsz) as (k & v & Hm & Hr).
  exists k, v. split; [exact Hm|]. split; [exact Hr|].
  unfold dispatch. rewrite HP, Hct, Hsz, Hr. reflexivity.
Qed.

Lemma dispatch_lookup s w r :
  req_Method r = "POST" ->
  ~ (contentTypeOf r = "" /\ size (codecs s) = 1%nat) ->
  dispatch zeroValue s w r
  = (Returned,
     match codecs s !! ToLower (contentTypeOf r) with
     | Some (Some codec) => serveCodec zeroValue s w r codec
     | _ => (WriteError w 415
               ("rpc: unrecognized Content-Type: " +:+ contentTypeOf r), [])
     end).
Proof.
  intros HP Hn. unfold dispatch. rewrite HP.
  change (negb (String.eqb "POST" "POST")) with false. cbv iota.
  destruct (String.eqb_spec (contentTypeOf r) "") as [E|E];
    destruct (Nat.eqb_spec (size (codecs s)) 1%nat) as [E'|E']; cbn [andb].
  1: exfalso; apply Hn; now split.
  all: now destruct (codecs s !! ToLower (contentTypeOf r)) as [[codec|]|].
Qed.

Lemma ServeHTTP_lookup s w r :
  req_Method r = "POST" ->
  ~ (contentTypeOf r = "" /\ size (codecs s) = 1%nat) ->
  ServeHTTP zeroValue s w r
  = match codecs s !! ToLower (contentTypeOf r) with
    | Some (Some codec) => serveCodec zeroValue s w r codec
    | _ => (WriteError w 415
              ("rpc: unrecognized Content-Type: " +:+ contentTypeOf r), [])
    end.
Proof. intros HP Hn. unfold ServeHTTP. now rewrite (dispatch_lookup s w r HP Hn). Qed.

Lemma serveCodec_log_head s w r codec :
  exists rest, snd (serveCodec zeroValue s w r codec) = ENewRequest codec :: EMethod :: rest.
Proof.
  unfold serveCodec.
  destruct (cr_Method _ _) as [[name [e|]] st].
  - eexists. reflexivity.
  - destruct (runBefore _ _ _ _ _ _) as [[[ctx h] c] logB].
    destruct (get _ _) as [errGet|[svc m]].
    + eexists. reflexivity.
    + destruct (if (0 <? length (argsType m))%nat then _ else _) as [[[e|rv] c'] logR].
      * eexists. reflexivity.
      * destruct (invoke _ _ _ _). eexists. reflexivity.
Qed.

Lemma RegisterCodec_lookup_fold s (v : option (@Codec Ctx Val St)) contentType ct :
  ToLower ct = ToLower contentType ->
  codecs (RegisterCodec s v contentType) !! ToLower ct = Some v.
Proof.
  intros E. unfold RegisterCodec; cbn [codecs]. rewrite E. apply lookup_insert_eq.
Qed.

Lemma classic_sole s r :
  (contentTypeOf r = "" /\ size (codecs s) = 1%nat)
  \/ ~ (contentTypeOf r = "" /\ size (codecs s) = 1%nat).
Proof.
  destruct (String.eqb_spec (contentTypeOf r) "");
    destruct (Nat.eq_dec (size (codecs s)) 1%nat); tauto.
Qed.

(** C3, as the code has it: the Content-Type header is cut at its first
    semicolon.  When what is left is empty (so when the header is absent)
    and the registry has one entry, the codec of that entry serves the
    request, and a nil codec there makes the dispatch panic.  In any other
    case the registry is looked up under the lower-case form of what is
    left: a codec found there serves the request, and the request is
    answered with 415, no codec called, exactly when the lookup finds no
    entry or a nil one: so with no header and no codec, or no header and
    several codecs none of them registered under the empty content type.
    The lookup finds what was registered under a content type of the same
    lower-case form, which for content types of ASCII characters is one
    that differs in letter case only. *)
Theorem codec_selection s w r :
  req_Method r = "POST" ->
  let header := Header_Get (req_Header r) "Content-Type" in
  let entry := codecs s !! ToLower (contentTypeOf r) in
  (Index header ";" = -1 -> contentTypeOf r = header)
  /\ (forall pre post,
        header = pre +:+ String ";" post -> Index pre ";" = -1 -> contentTypeOf r = pre)
  /\ (req_Header r !! "Content-Type" = None -> contentTypeOf r = "")
  /\ (contentTypeOf r = "" -> size (codecs s) = 1%nat ->
      exists k v, codecs s = {[k := v]}
        /\ match v with
           | Some codec =>
               dispatch zeroValue s w r = (Returned, serveCodec zeroValue s w r codec)
               /\ head (snd (ServeHTTP zeroValue s w r)) = Some (ENewRequest codec)
           | None => dispatch zeroValue s w r = (Panicked, (w, []))
           end)
  /\ (~ (contentTypeOf r = "" /\ size (codecs s) = 1%nat) ->
      match entry with
      | Some (Some codec) =>
          dispatch zeroValue s w r = (Returned, serveCodec zeroValue s w r codec)
          /\ head (snd (ServeHTTP zeroValue s w r)) = Some (ENewRequest codec)
      | Some None | None =>
          dispatch zeroValue s w r
          = (Returned,
             (WriteError w 415 ("rpc: unrecognized Content-Type: " +:+ contentTypeOf r), []))
          /\ rw_Code (fst (ServeHTTP zeroValue s w r)) = 415
      end)
  /\ (forall s0 v registered,
        s = RegisterCodec s0 v registered ->
        ToLower (contentTypeOf r) = ToLower registered ->
        entry = Some v)
  /\ (forall registered,
        isASCII (contentTypeOf r) = true -> isASCII registered = true ->
        (ToLower (contentTypeOf r) = ToLower registered
         <-> equal_up_to_case (contentTypeOf r) registered = true))
  /\ (req_Header r !! "Content-Type" = None -> size (codecs s) <> 1%nat ->
      codecs s !! "" = None \/ codecs s !! "" = Some None ->
      rw_Code (fst (ServeHTTP zeroValue s w r)) = 415
      /\ snd (ServeHTTP zeroValue s w r) = []).
Proof.
  intros HP header entry.
  split; [apply contentTypeOf_whole|].
  split; [apply contentTypeOf_cut|].
  split; [apply contentTypeOf_absent|].
  split.
  { intros Hct Hsz. destruct (dispatch_sole s w r HP Hct Hsz) as (k & v & Hm & _ & Hs).
    exists k, v. split; [exact Hm|]. destruct v as [codec|]; [|exact Hs].
    split; [exact Hs|]. unfold ServeHTTP. rewrite Hs. cbn [snd].
    destruct (serveCodec_log_head s w r codec) as [rest ->]. reflexivity. }
  split.
  { intros Hn. unfold ServeHTTP. rewrite (dispatch_lookup s w r HP Hn). fold entry.
    destruct entry as [[codec|]|]; cbn [snd fst].
    - split; [reflexivity|].
      destruct (serveCodec_log_head s w r codec) as [rest ->]. reflexivity.
    - split; [reflexivity | now apply WriteError_Code].
    - split; [reflexivity | now apply WriteError_Code]. }
  split.
  { intros s0 v registered -> Hf. now apply RegisterCodec_lookup_fold. }
  split.
  { intros registered Ha Hb. now apply ToLower_ASCII_same. }
  intros Habs Hsz Hl.
  assert (Hct := contentTypeOf_absent r Habs).
  rewrite (ServeHTTP_lookup s w r HP) by tauto.
  rewrite Hct, ToLower_empty.
  destruct Hl as [-> | ->]; (split; [now apply WriteError_Code | reflexivity]).
Qed.

(** C10: [RegisterCodec] stores the codec under the lower-case form of the
    content type, which for a content type of ASCII characters is that
    content type with each upper-case letter replaced by its lower-case
    one; a second registration under a content type of the same lower-case
    form (for ASCII content types: one that differs from the first in
    letter case only) replaces the first codec, and a request whose content
    type has that lower-case form is served by the second codec. *)
Theorem RegisterCodec_lowercase s (v1 : option (@Codec Ctx Val St)) codec2
    contentType1 contentType2 w r :
  ToLower contentType1 = ToLower contentType2 ->
  req_Method r = "POST" ->
  ToLower (contentTypeOf r) = ToLower contentType2 ->
  let s1 := RegisterCodec s v1 contentType1 in
  let s2 := RegisterCodec s1 (Some codec2) contentType2 in
  codecs s1 = <[ToLower contentType1 := v1]> (codecs s)
  /\ codecs s1 !! ToLower contentType1 = Some v1
  /\ codecs s2 = codecs (RegisterCodec s (Some codec2) contentType2)
  /\ codecs s2 !! ToLower contentType1 = Some (Some codec2)
  /\ dispatch zeroValue s2 w r = (Returned, serveCodec zeroValue s2 w r codec2)
  /\ head (snd (ServeHTTP zeroValue s2 w r)) = Some (ENewRequest codec2)
  /\ (isASCII contentType1 = true ->
      ToLower contentType1 = lower_bytes contentType1
      /\ equal_up_to_case (ToLower contentType1) contentType1 = true
      /\ forallb (fun b => negb (is_upper b))
           (list_ascii_of_string (ToLower contentType1)) = true)
  /\ (forall a b, isASCII a = true -> isASCII b = true ->
        (ToLower a = ToLower b <-> equal_up_to_case a b = true)).
Proof.
  intros E12 HP Er s1 s2.
  assert (Hl : codecs s2 !! ToLower (contentTypeOf r) = Some (Some codec2))
    by now apply RegisterCodec_lookup_fold.
  split; [reflexivity|]. split; [apply lookup_insert_eq|].
  split. { unfold s2, s1, RegisterCodec; cbn [codecs]. rewrite E12. apply insert_insert_eq. }
  split. { unfold s2, RegisterCodec; cbn [codecs]. rewrite E12. apply lookup_insert_eq. }
  assert (Hs : dispatch zeroValue s2 w r = (Returned, serveCodec zeroValue s2 w r codec2)).
  { destruct (classic_sole s2 r) as [[Hct Hsz]|Hn].
    - destruct (dispatch_sole s2 w r HP Hct Hsz) as (k & v & Hm & _ & Hs).
      rewrite Hs. rewrite Hm in Hl.
      apply lookup_singleton_Some in Hl. destruct Hl as [_ ->]. reflexivity.
    - now rewrite (dispatch_lookup s2 w r HP Hn), Hl. }
  split; [exact Hs|]. split.
  { unfold ServeHTTP. rewrite Hs. cbn [snd].
    destruct (serveCodec_log_head s2 w r codec2) as [rest ->]. reflexivity. }
  split.
  { intros Ha. rewrite (ToLower_ASCII _ Ha).
    split; [reflexivity|]. split; [apply lower_bytes_fold | apply lower_bytes_no_upper]. }
  intros a b. apply ToLower_ASCII_same.
Qed.

(** *** Shape of a dispatch *)

Lemma dispatch_selects s w r codec :
  selects s r codec ->
  dispatch zeroValue s w r = (Returned, serveCodec zeroValue s w r codec).
Proof.
  intros [HP [(Hct & Hsz & Hr)|[Hn Hl]]].
  - unfold dispatch. rewrite HP, Hct, Hsz, Hr. reflexivity.
  - now rewrite (dispatch_lookup s w r HP Hn), Hl.
Qed.

Lemma ServeHTTP_selects s w r codec :
  selects s r codec -> ServeHTTP zeroValue s w r = serveCodec zeroValue s w r codec.
Proof. intros Hsel. unfold ServeHTTP. now rewrite (dispatch_selects s w r codec Hsel). Qed.

(** Every dispatch ends in one of four ways. *)
Lemma dispatch_cases s w r :
  (req_Method r <> "POST"
   /\ dispatch zeroValue s w r
      = (Returned,
         (WriteError w 405 ("rpc: POST method required, received " +:+ req_Method r), [])))
  \/ (req_Method r = "POST"
      /\ dispatch zeroValue s w r
         = (Returned,
            (WriteError w 415 ("rpc: unrecognized Content-Type: " +:+ contentTypeOf r), [])))
  \/ (req_Method r = "POST" /\ contentTypeOf r = ""
      /\ (exists k, codecs s = {[k := None]})
      /\ dispatch zeroValue s w r = (Panicked, (w, [])))
  \/ (exists codec, selects s r codec
      /\ dispatch zeroValue s w r = (Returned, serveCodec zeroValue s w r codec)).
Proof.
  destruct (String.eqb_spec (req_Method r) "POST") as [HP|HP].
  - right. destruct (classic_sole s r) as [[Hct Hsz]|Hn].
    + right. destruct (dispatch_sole s w r HP Hct Hsz) as (k & [codec|] & Hm & Hr & Hs).
      * right. exists codec. split; [|exact Hs]. split; [exact HP | left; auto].
      * left. split; [exact HP|]. split; [exact Hct|]. split; [now exists k | exact Hs].
    + rewrite (dispatch_lookup s w r HP Hn).
      destruct (codecs s !! ToLower (contentTypeOf r)) as [[codec|]|] eqn:Hl.
      * right. right. exists codec. split; [|reflexivity]. split; [exact HP | right; auto].
      * left. auto.
      * left. auto.
  - left. split; [exact HP | now apply dispatch_non_POST].
Qed.

Lemma ServeHTTP_cases s w r :
  ServeHTTP zeroValue s w r
  = (WriteError w 405 ("rpc: POST method required, received " +:+ req_Method r), [])
  \/ ServeHTTP zeroValue s w r
     = (WriteError w 415 ("rpc: unrecognized Content-Type: " +:+ contentTypeOf r), [])
  \/ ServeHTTP zeroValue s w r = (w, [])
  \/ (exists codec, selects s r codec
      /\ ServeHTTP zeroValue s w r = serveCodec zeroValue s w r codec).
Proof.
  unfold ServeHTTP.
  destruct (dispatch_cases s w r)
    as [[_ ->]|[[_ ->]|[(_ & _ & _ & ->)|(codec & Hsel & ->)]]]; eauto.
  do 3 right. eauto.
Qed.

(** The hooks: the log and the state they leave. *)
Lemma runBefore_fold bs : forall i name ctx h c,
  let '(ctx', h', c', log) := runBefore i bs name ctx h c in
  (ctx', h', c') = fold_left (applyBefore name) bs (ctx, h, c)
  /\ length log = length bs
  /\ forall j b, bs !! j = Some b ->
       let '(ctx_j, h_j, c_j) := fold_left (applyBefore name) (take j bs) (ctx, h, c) in
       (log : list (@event Ctx Val St)) !! j = Some (EBefore (i + j) ctx_j name h_j c_j).
Proof.
  induction bs as [|b bs IH]; intros i name ctx h c.
  - cbn. repeat split. intros j b Hj. discriminate Hj.
  - cbn [runBefore]. destruct (b ctx name h c) as [[ctx1 h1] st1] eqn:Eb.
    specialize (IH (S i) name ctx1 h1 (with_state c st1)).
    destruct (runBefore (S i) bs name ctx1 h1 (with_state c st1))
      as [[[ctx2 h2] c2] log] eqn:Er.
    destruct IH as (Hf & Hlen & Hj).
    split; [|split].
    + cbn [fold_left]. unfold applyBefore at 2. rewrite Eb. exact Hf.
    + cbn. now rewrite Hlen.
    + intros [|j] b' Hb'.
      * cbn. now rewrite Nat.add_0_r.
      * cbn [take fold_left]. unfold applyBefore at 2. rewrite Eb.
        specialize (Hj j b' Hb').
        destruct (fold_left (applyBefore name) (take j bs) (ctx1, h1, with_state c st1))
          as [[ctx_j h_j] c_j].
        cbn. rewrite Nat.add_succ_r. exact Hj.
Qed.

Lemma runBefore_is_before bs : forall i name ctx h c,
  Forall (fun e : @event Ctx Val St => is_before e = true)
    (snd (runBefore i bs name ctx h c)).
Proof.
  induction bs as [|b bs IH]; intros i name ctx h c; cbn [runBefore].
  - constructor.
  - destruct (b ctx name h c) as [[ctx1 h1] st1].
    specialize (IH (S i) name ctx1 h1 (with_state c st1)).
    destruct (runBefore (S i) bs name ctx1 h1 (with_state c st1)) as [[[ctx2 h2] c2] log].
    cbn in *. constructor; [reflexivity | exact IH].
Qed.


Lemma readArgs_spec tys : forall ctx c refValue,
  match readArgs zeroValue tys ctx c refValue with
  | (inr vals, c', log) =>
      exists args,
        vals = (refValue ++ args)%list
        /\ length args = length tys
        /\ (forall i ty, tys !! i = Some ty ->
              if decide (ty = typeOfContext)
              then args !! i = Some (ValueOfContext ctx)
              else exists v, args !! i = Some (PtrTo ty v))
        /\ log = reads zeroValue tys
  | (inl e, c', log) =>
      exists pre ty post,
        tys = (pre ++ ty :: post)%list
        /\ ty <> typeOfContext
        /\ log = reads zeroValue (pre ++ [ty])
        /\ exists cst v st',
             cr_ReadRequest c cst ty (zeroValue ty) = (Some e, v, st')
             /\ c' = with_state c st'
  end.
Proof.
  induction tys as [|ty tys IH]; intros ctx c refValue.
  - cbn. exists []. rewrite app_nil_r. repeat split. intros i ty H. discriminate H.
  - cbn [readArgs]. destruct (decide (ty <> typeOfContext)) as [Hty|Hty].
    + destruct (cr_ReadRequest c (cr_state c) ty (zeroValue ty)) as [[[e|] v] st'] eqn:Er.
      * exists [], ty, tys. split; [reflexivity|]. split; [exact Hty|]. split.
        { unfold reads. cbn. rewrite decide_True by exact Hty. reflexivity. }
        exists (cr_state c), v, st'. auto.
      * specialize (IH ctx (with_state c st') (refValue ++ [PtrTo ty v])%list).
        destruct (readArgs zeroValue tys ctx (with_state c st') _) as [[[e|vals] c'] log].
        -- destruct IH as (pre & ty' & post & -> & Hty' & -> & cst & v' & st'' & Hr & ->).
           exists (ty :: pre), ty', post. split; [reflexivity|]. split; [exact Hty'|].
           split.
           { unfold reads. cbn. rewrite decide_True by exact Hty. reflexivity. }
           exists cst, v', st''. split; [exact Hr | reflexivity].
        -- destruct IH as (args & -> & Hlen & Hi & ->).
           exists (PtrTo ty v :: args). rewrite <- app_assoc. split; [reflexivity|].
           split; [cbn; now rewrite Hlen|]. split.
           { intros [|i] ty' H.
             - cbn in H. injection H as <-. rewrite decide_False by exact Hty.
               exists v. reflexivity.
             - apply (Hi i ty' H). }
           unfold reads. cbn. rewrite decide_True by exact Hty. reflexivity.
    + assert (ty = typeOfContext) as -> by (destruct (decide (ty = typeOfContext)); tauto).
      specialize (IH ctx c (refValue ++ [ValueOfContext ctx])%list).
      destruct (readArgs zeroValue tys ctx c _) as [[[e|vals] c'] log].
      * destruct IH as (pre & ty' & post & -> & Hty' & -> & cst & v' & st'' & Hr & ->).
        exists (typeOfContext :: pre), ty', post. split; [reflexivity|].
        split; [exact Hty'|]. split.
        { unfold reads. cbn. rewrite decide_False by tauto. reflexivity. }
        exists cst, v', st''. split; [exact Hr | reflexivity].
      * destruct IH as (args & -> & Hlen & Hi & ->).
        exists (ValueOfContext ctx :: args). rewrite <- app_assoc. split; [reflexivity|].
        split; [cbn; now rewrite Hlen|]. split.
        { intros [|i] ty' H.
          - cbn in H. injection H as <-. rewrite decide_True by reflexivity. reflexivity.
          - apply (Hi i ty' H). }
        unfold reads. cbn. rewrite decide_False by tauto. reflexivity.
Qed.


Lemma with_state_id c : with_state c (cr_state c) = c.
Proof. now destruct c. Qed.

Lemma runBefore_same_object bs : forall i name ctx h c,
  exists st', snd (fst (runBefore i bs name ctx h c)) = with_state c st'.
Proof.
  induction bs as [|b bs IH]; intros i name ctx h c; cbn [runBefore].
  - exists (cr_state c). cbn. now rewrite with_state_id.
  - destruct (b ctx name h c) as [[ctx1 h1] st1].
    destruct (IH (S i) name ctx1 h1 (with_state c st1)) as [st' Hst].
    destruct (runBefore (S i) bs name ctx1 h1 (with_state c st1)) as [[[ctx2 h2] c2] log].
    cbn in *. exists st'. exact Hst.
Qed.

Lemma readArgs_same_object tys : forall ctx c refValue,
  exists st', snd (fst (readArgs zeroValue tys ctx c refValue)) = with_state c st'.
Proof.
  induction tys as [|ty tys IH]; intros ctx c refValue; cbn [readArgs].
  - exists (cr_state c). cbn. now rewrite with_state_id.
  - destruct (decide (ty <> typeOfContext)).
    + destruct (cr_ReadRequest c (cr_state c) ty (zeroValue ty)) as [[[e|] v] st'].
      * exists st'. reflexivity.
      * destruct (IH ctx (with_state c st') (refValue ++ [PtrTo ty v])%list) as [st'' H].
        destruct (readArgs zeroValue tys ctx (with_state c st') _) as [[res c'] log].
        cbn in *. exists st''. exact H.
    + apply IH.
Qed.

Lemma readArgs_is_read tys : forall ctx c refValue,
  Forall (fun e : @event Ctx Val St => is_read e = true)
    (snd (readArgs zeroValue tys ctx c refValue)).
Proof.
  induction tys as [|ty tys IH]; intros ctx c refValue; cbn [readArgs].
  - constructor.
  - destruct (decide (ty <> typeOfContext)).
    + destruct (cr_ReadRequest c (cr_state c) ty (zeroValue ty)) as [[[e|] v] st'].
      * repeat constructor.
      * specialize (IH ctx (with_state c st') (refValue ++ [PtrTo ty v])%list).
        destruct (readArgs zeroValue tys ctx (with_state c st') _) as [[res c'] log].
        cbn in *. constructor; [reflexivity | exact IH].
    + apply IH.
Qed.

(** The request in the hands of the codec, stage by stage. *)
Lemma serveCodec_stages s w r codec :
  let c0 := NewRequest codec r in
  let '(name, errMethod, st) := cr_Method c0 (cr_state c0) in
  let c1 := with_state c0 st in
  match errMethod with
  | Some e =>
      serveCodec zeroValue s w r codec
      = (fst (cr_WriteError c1 (cr_state c1) w 400 e),
         [ENewRequest codec; EMethod; EWriteError 400 e])
  | None =>
      let '(ctx, h, c2, logB) :=
        runBefore 0 (before s) name (req_Context r) (req_Header r) c1 in
      match get (services s) name with
      | inl errGet =>
          serveCodec zeroValue s w r codec
          = (fst (cr_WriteError c2 (cr_state c2) w 400 errGet),
             ([ENewRequest codec; EMethod] ++ logB
              ++ [EGet name; EWriteError 400 errGet])%list)
      | inr (svc, m) =>
          let '(res, c3, logR) := readArgs zeroValue (argsType m) ctx c2 [rcvr svc] in
          match res with
          | inl e =>
              serveCodec zeroValue s w r codec
              = (fst (cr_WriteError c3 (cr_state c3) w 400 e),
                 ([ENewRequest codec; EMethod] ++ logB ++ [EGet name] ++ logR
                  ++ [EWriteError 400 e])%list)
          | inr refValue =>
              serveCodec zeroValue s w r codec
              = (fst (invoke w c3 m refValue),
                 ([ENewRequest codec; EMethod] ++ logB ++ [EGet name] ++ logR
                  ++ snd (invoke w c3 m refValue))%list)
          end
      end
  end.
Proof.
  unfold serveCodec. cbv zeta.
  destruct (cr_Method _ _) as [[name [e|]] st]; [reflexivity|].
  destruct (runBefore _ _ _ _ _ _) as [[[ctx h] c2] logB].
  destruct (get _ _) as [errGet|[svc m]]; [reflexivity|].
  assert (Hg : (if (0 <? length (argsType m))%nat
                then readArgs zeroValue (argsType m) ctx c2 [rcvr svc]
                else (inr [rcvr svc], c2, []))
               = readArgs zeroValue (argsType m) ctx c2 [rcvr svc])
    by (destruct (argsType m); reflexivity).
  rewrite Hg. destruct (readArgs _ _ _ _ _) as [[[e|refValue] c3] logR]; [reflexivity|].
  now destruct (invoke _ _ _ _).
Qed.


Lemma NewServer_before_app (options : list (@ServerOption Ctx Val St)) : forall s0 bs,
  options = ServerBefore <$> bs ->
  before (fold_left (fun s option => option s) options s0) = (before s0 ++ bs)%list.
Proof.
  induction options as [|o options IH]; intros s0 bs H.
  - destruct bs; [|discriminate H]. cbn. now rewrite app_nil_r.
  - destruct bs as [|b bs]; [discriminate H|]. cbn in H. injection H as -> ->.
    cbn [fold_left]. rewrite (IH _ bs eq_refl). cbn [ServerBefore before].
    now rewrite <- app_assoc.
Qed.

(** C6: once the codec has given the method name, the hooks run in the
    order of their registration, the first on the request's context and
    each next one on the context its predecessor returned, all with the
    method name, the header map and the codec request; the chain lies
    between the extraction of the method name and the lookup in the method
    table, so it has run when the lookup fails; and the context the last
    hook returned is the one bound to a context-typed parameter. *)
Theorem hooks_run_in_order s w r codec name st :
  selects s r codec ->
  cr_Method (NewRequest codec r) (cr_state (NewRequest codec r)) = (name, None, st) ->
  let init := (req_Context r, req_Header r, with_state (NewRequest codec r) st) in
  let final := fold_left (applyBefore name) (before s) init in
  (forall new_serviceMap bs,
     before (NewServer new_serviceMap (ServerBefore <$> bs) : @Server Ctx Val St) = bs)
  /\ exists logB rest,
       snd (ServeHTTP zeroValue s w r)
       = ([ENewRequest codec; EMethod] ++ logB ++ EGet name :: rest)%list
       /\ length logB = length (before s)
       /\ (forall j b, before s !! j = Some b ->
             let '(ctx_j, h_j, c_j) :=
               fold_left (applyBefore name) (take j (before s)) init in
             logB !! j = Some (EBefore j ctx_j name h_j c_j))
       /\ Forall (fun e => is_before e = false) rest
       /\ (forall errGet, get (services s) name = inl errGet ->
             rest = [EWriteError 400 errGet])
       /\ (forall svc m refValue,
             get (services s) name = inr (svc, m) ->
             In (ECall refValue) rest ->
             forall i, argsType m !! i = Some typeOfContext ->
               refValue !! S i = Some (ValueOfContext (fst (fst final)))).
Proof.
  intros Hsel HM init final. split.
  { intros sm bs. unfold NewServer. now rewrite (NewServer_before_app _ _ bs eq_refl). }
  rewrite (ServeHTTP_selects s w r codec Hsel).
  pose proof (serveCodec_stages s w r codec) as Hst. cbv zeta in Hst. rewrite HM in Hst.
  pose proof (runBefore_fold (before s) 0 name (req_Context r) (req_Header r)
                (with_state (NewRequest codec r) st)) as Hfold.
  destruct (runBefore 0 (before s) name (req_Context r) (req_Header r)
              (with_state (NewRequest codec r) st)) as [[[ctx h] c2] logB].
  destruct Hfold as (Hfin & Hlen & Hj).
  assert (Hctx : fst (fst final) = ctx) by (unfold final, init; now rewrite <- Hfin).
  exists logB.
  destruct (get (services s) name) as [errGet|[svc m]] eqn:Hget.
  - exists [EWriteError 400 errGet]. rewrite Hst. cbn [snd].
    split; [reflexivity|]. split; [exact Hlen|]. split; [exact Hj|].
    split; [repeat constructor|]. split.
    + intros e He. now injection He as ->.
    + intros svc m rv H. discriminate H.
  - pose proof (readArgs_spec (argsType m) ctx c2 [rcvr svc]) as Hspec.
    pose proof (readArgs_is_read (argsType m) ctx c2 [rcvr svc]) as Hread.
    destruct (readArgs zeroValue (argsType m) ctx c2 [rcvr svc]) as [[[e|rv] c3] logR].
    + exists (logR ++ [EWriteError 400 e])%list. rewrite Hst. cbn [snd].
      split; [reflexivity|]. split; [exact Hlen|]. split; [exact Hj|].
      cbn [snd] in Hread. split; [|split].
      * apply Forall_app. split; [|repeat constructor].
        eapply Forall_impl; [exact Hread|]. intros [] H; try discriminate H; reflexivity.
      * intros e' H. discriminate H.
      * intros svc' m' rv' _ Hin. exfalso. apply in_app_or in Hin.
        destruct Hin as [Hin|[Hin|[]]]; [|discriminate Hin].
        rewrite Forall_forall in Hread. apply list_elem_of_In in Hin.
        specialize (Hread _ Hin). discriminate Hread.
    + exists (logR ++ snd (invoke w c3 m rv))%list. rewrite Hst. cbn [snd].
      split; [reflexivity|]. split; [exact Hlen|]. split; [exact Hj|].
      cbn [snd] in Hread.
      assert (Hinv : snd (invoke w c3 m rv) = [ECall rv; EWriteResponse (fst (method m rv))]
                     \/ exists e, snd (invoke w c3 m rv) = [ECall rv; EWriteError 400 e]).
      { unfold invoke. destruct (method m rv) as [v [e|]]; [right; now exists e | now left]. }
      split; [|split].
      * apply Forall_app. split.
        -- eapply Forall_impl; [exact Hread|]. intros [] H; try discriminate H; reflexivity.
        -- destruct Hinv as [->|[e ->]]; repeat constructor.
      * intros e' H. discriminate H.
      * intros svc' m' rv' Heq Hin i Hi. injection Heq as <- <-.
        assert (rv' = rv) as ->.
        { apply in_app_or in Hin. destruct Hin as [Hin|Hin].
          - rewrite Forall_forall in Hread. apply list_elem_of_In in Hin.
            specialize (Hread _ Hin). discriminate Hread.
          - destruct Hinv as [E|[e E]]; rewrite E in Hin;
              destruct Hin as [Hin|[Hin|[]]]; congruence. }
        destruct Hspec as (args & -> & _ & Hargs & _).
        specialize (Hargs i typeOfContext Hi). rewrite decide_True in Hargs by reflexivity.
        rewrite Hctx. exact Hargs.
Qed.


Lemma filter_keep {A} (f : A -> bool) (l : list A) :
  Forall (fun x => f x = true) l -> List.filter f l = l.
Proof. induction 1 as [|x l Hx _ IH]; cbn; [reflexivity|]. now rewrite Hx, IH. Qed.

Lemma filter_drop {A} (f : A -> bool) (l : list A) :
  Forall (fun x => f x = false) l -> List.filter f l = [].
Proof. induction 1 as [|x l Hx _ IH]; cbn; [reflexivity|]. now rewrite Hx, IH. Qed.

Lemma runBefore_no_read bs i name ctx h c :
  List.filter is_read (snd (runBefore i bs name ctx h c)) = [].
Proof.
  apply filter_drop. eapply Forall_impl; [apply runBefore_is_before|].
  intros [] H; try discriminate H; reflexivity.
Qed.

Lemma runBefore_no_call bs i name ctx h c :
  Forall (fun e : @event Ctx Val St => is_call e = false)
    (snd (runBefore i bs name ctx h c)).
Proof.
  eapply Forall_impl; [apply runBefore_is_before|].
  intros [] H; try discriminate H; reflexivity.
Qed.

Lemma readArgs_no_call tys ctx c refValue :
  Forall (fun e : @event Ctx Val St => is_call e = false)
    (snd (readArgs zeroValue tys ctx c refValue)).
Proof.
  eapply Forall_impl; [apply readArgs_is_read|].
  intros [] H; try discriminate H; reflexivity.
Qed.

(** The specification's account of the parameters against [readArgs]. *)
Lemma reads_cons_context tys :
  reads zeroValue (typeOfContext :: tys) = (reads zeroValue tys : list (@event Ctx Val St)).
Proof. unfold reads. cbn. rewrite decide_False by tauto. reflexivity. Qed.

Lemma reads_cons_other ty tys :
  ty <> typeOfContext ->
  reads zeroValue (ty :: tys)
  = (EReadRequest (reflect_New zeroValue ty) :: reads zeroValue tys
     : list (@event Ctx Val St)).
Proof. intros Hty. unfold reads. cbn. rewrite decide_True by exact Hty. reflexivity. Qed.

Lemma reads_is_read tys :
  Forall (fun e : @event Ctx Val St => is_read e = true) (reads zeroValue tys).
Proof.
  induction tys as [|ty tys IH]; [constructor|].
  destruct (decide (ty = typeOfContext)) as [->|Hty].
  - now rewrite reads_cons_context.
  - rewrite (reads_cons_other ty tys Hty). now constructor.
Qed.

Lemma bindParameters_context ctx c tys :
  bindParameters zeroValue ctx c (typeOfContext :: tys)
  = match bindParameters zeroValue ctx c tys with
    | (inl e, c') => (inl e, c')
    | (inr args, c') => (inr (ValueOfContext ctx :: args), c')
    end.
Proof.
  cbn [bindParameters]. unfold bindParameter. rewrite decide_True by reflexivity.
  reflexivity.
Qed.

Lemma bindParameters_other ctx c ty tys :
  ty <> typeOfContext ->
  bindParameters zeroValue ctx c (ty :: tys)
  = match cr_ReadRequest c (cr_state c) ty (zeroValue ty) with
    | (Some e, _, st') => (inl e, with_state c st')
    | (None, v, st') =>
        match bindParameters zeroValue ctx (with_state c st') tys with
        | (inl e, c') => (inl e, c')
        | (inr args, c') => (inr (PtrTo ty v :: args), c')
        end
    end.
Proof.
  intros Hty. cbn [bindParameters]. unfold bindParameter. rewrite decide_False by exact Hty.
  now destruct (cr_ReadRequest c (cr_state c) ty (zeroValue ty)) as [[[e|] v] st'].
Qed.

Lemma readArgs_bindParameters tys : forall ctx c refValue,
  match bindParameters zeroValue ctx c tys with
  | (inr args, c') =>
      readArgs zeroValue tys ctx c refValue
      = (inr (refValue ++ args)%list, c', reads zeroValue tys)
  | (inl e, c') =>
      exists pre ty post argsPre cPre v st',
        tys = (pre ++ ty :: post)%list
        /\ ty <> typeOfContext
        /\ bindParameters zeroValue ctx c pre = (inr argsPre, cPre)
        /\ cr_ReadRequest cPre (cr_state cPre) ty (zeroValue ty) = (Some e, v, st')
        /\ c' = with_state cPre st'
        /\ readArgs zeroValue tys ctx c refValue
           = (inl e, c', reads zeroValue (pre ++ [ty]))
  end.
Proof.
  induction tys as [|ty tys IH]; intros ctx c refValue.
  - cbn. now rewrite app_nil_r.
  - destruct (decide (ty = typeOfContext)) as [->|Hty].
    + rewrite bindParameters_context. cbn [readArgs]. rewrite decide_False by tauto.
      specialize (IH ctx c (refValue ++ [ValueOfContext ctx])%list).
      destruct (bindParameters zeroValue ctx c tys) as [[e|args] c'].
      * destruct IH as (pre & ty & post & argsPre & cPre & v & st' & -> & Hty & Hpre & Hr
                        & -> & Hra).
        exists (typeOfContext :: pre), ty, post, (ValueOfContext ctx :: argsPre), cPre, v, st'.
        split; [reflexivity|]. split; [exact Hty|]. split.
        { rewrite bindParameters_context. now rewrite Hpre. }
        split; [exact Hr|]. split; [reflexivity|].
        rewrite Hra. cbn [app]. now rewrite reads_cons_context.
      * rewrite IH, reads_cons_context, <- app_assoc. reflexivity.
    + rewrite (bindParameters_other ctx c ty tys Hty). cbn [readArgs].
      rewrite decide_True by exact Hty.
      destruct (cr_ReadRequest c (cr_state c) ty (zeroValue ty)) as [[[e|] v] st'] eqn:Er.
      * exists [], ty, tys, [], c, v, st'.
        split; [reflexivity|]. split; [exact Hty|]. split; [reflexivity|].
        split; [exact Er|]. split; [reflexivity|].
        cbn [app]. rewrite (reads_cons_other ty [] Hty). reflexivity.
      * specialize (IH ctx (with_state c st') (refValue ++ [PtrTo ty v])%list).
        destruct (bindParameters zeroValue ctx (with_state c st') tys) as [[e|args] c'].
        -- destruct IH as (pre & ty' & post & argsPre & cPre & v' & st'' & -> & Hty' & Hpre
                           & Hr & -> & Hra).
           exists (ty :: pre), ty', post, (PtrTo ty v :: argsPre), cPre, v', st''.
           split; [reflexivity|]. split; [exact Hty'|]. split.
           { rewrite (bindParameters_other ctx c ty pre Hty), Er. now rewrite Hpre. }
           split; [exact Hr|]. split; [reflexivity|].
           rewrite Hra. cbn [app]. now rewrite (reads_cons_other ty _ Hty).
        -- rewrite IH, (reads_cons_other ty tys Hty), <- app_assoc. reflexivity.
Qed.

(** Each argument, by its position: bound to the context, or the holder as
    [ReadRequest] left it, called on the codec request in the state that the
    parameters before it left. *)
Lemma bindParameters_positions tys : forall ctx c args c',
  bindParameters zeroValue ctx c tys = (inr args, c') ->
  length args = length tys
  /\ forall i ty, tys !! i = Some ty ->
       exists argsI cI,
         bindParameters zeroValue ctx c (take i tys) = (inr argsI, cI)
         /\ if decide (ty = typeOfContext)
            then args !! i = Some (ValueOfContext ctx)
            else exists v st',
                   cr_ReadRequest cI (cr_state cI) ty (zeroValue ty) = (None, v, st')
                   /\ args !! i = Some (PtrTo ty v).
Proof.
  induction tys as [|ty tys IH]; intros ctx c args c' Hb.
  - cbn in Hb. injection Hb as <- <-. split; [reflexivity|]. intros i ty Hi. discriminate Hi.
  - destruct (decide (ty = typeOfContext)) as [->|Hty].
    + rewrite bindParameters_context in Hb.
      destruct (bindParameters zeroValue ctx c tys) as [[e|args0] c0] eqn:E0;
        [discriminate Hb|]. injection Hb as <- <-.
      destruct (IH ctx c args0 c0 E0) as [Hlen Hpos]. split; [cbn; now rewrite Hlen|].
      intros [|i] ty Hi.
      * cbn in Hi. injection Hi as <-. exists [], c. split; [reflexivity|].
        rewrite decide_True by reflexivity. reflexivity.
      * destruct (Hpos i ty Hi) as (argsI & cI & HbI & Harg).
        exists (ValueOfContext ctx :: argsI), cI. split; [|exact Harg].
        cbn [take]. rewrite bindParameters_context. now rewrite HbI.
    + rewrite (bindParameters_other ctx c ty tys Hty) in Hb.
      destruct (cr_ReadRequest c (cr_state c) ty (zeroValue ty)) as [[[e|] v] st'] eqn:Er;
        [discriminate Hb|].
      destruct (bindParameters zeroValue ctx (with_state c st') tys) as [[e|args0] c0] eqn:E0;
        [discriminate Hb|]. injection Hb as <- <-.
      destruct (IH ctx (with_state c st') args0 c0 E0) as [Hlen Hpos].
      split; [cbn; now rewrite Hlen|].
      intros [|i] ty' Hi.
      * cbn in Hi. injection Hi as <-. exists [], c. split; [reflexivity|].
        rewrite decide_False by exact Hty. exists v, st'. split; [exact Er | reflexivity].
      * destruct (Hpos i ty' Hi) as (argsI & cI & HbI & Harg).
        exists (PtrTo ty v :: argsI), cI. split; [|exact Harg].
        cbn [take]. rewrite (bindParameters_other ctx c ty _ Hty), Er. now rewrite HbI.
Qed.

Lemma bindParameters_same_object tys : forall ctx c,
  exists st', snd (bindParameters zeroValue ctx c tys) = with_state c st'.
Proof.
  induction tys as [|ty tys IH]; intros ctx c.
  - exists (cr_state c). cbn. now rewrite with_state_id.
  - destruct (decide (ty = typeOfContext)) as [->|Hty].
    + rewrite bindParameters_context. destruct (IH ctx c) as [st' Hst].
      destruct (bindParameters zeroValue ctx c tys) as [[e|args] c']; exists st'; exact Hst.
    + rewrite (bindParameters_other ctx c ty tys Hty).
      destruct (cr_ReadRequest c (cr_state c) ty (zeroValue ty)) as [[[e|] v] st'].
      * exists st'. reflexivity.
      * destruct (IH ctx (with_state c st')) as [st'' Hst].
        destruct (bindParameters zeroValue ctx (with_state c st') tys) as [[e|args] c'];
          exists st''; exact Hst.
Qed.

(** The dispatch of a request that has a method, against that account of
    its parameters. *)
Lemma ServeHTTP_bound s w r codec name st svc m :
  selects s r codec ->
  cr_Method (NewRequest codec r) (cr_state (NewRequest codec r)) = (name, None, st) ->
  get (services s) name = inr (svc, m) ->
  let final := fold_left (applyBefore name) (before s)
                 (req_Context r, req_Header r, with_state (NewRequest codec r) st) in
  exists logB,
    Forall (fun e => is_before e = true) logB
    /\ match bindParameters zeroValue (fst (fst final)) (snd final) (argsType m) with
       | (inr args, c) =>
           ServeHTTP zeroValue s w r
           = (fst (invoke w (with_state (NewRequest codec r) (cr_state c)) m
                     (rcvr svc :: args)),
              ([ENewRequest codec; EMethod] ++ logB ++ [EGet name]
               ++ reads zeroValue (argsType m)
               ++ snd (invoke w (with_state (NewRequest codec r) (cr_state c)) m
                         (rcvr svc :: args)))%list)
       | (inl e, c) =>
           exists pre ty post argsPre cPre v st',
             argsType m = (pre ++ ty :: post)%list
             /\ ty <> typeOfContext
             /\ bindParameters zeroValue (fst (fst final)) (snd final) pre = (inr argsPre, cPre)
             /\ cr_ReadRequest cPre (cr_state cPre) ty (zeroValue ty) = (Some e, v, st')
             /\ c = with_state cPre st'
             /\ ServeHTTP zeroValue s w r
                = (fst (cr_WriteError (NewRequest codec r) (cr_state c) w 400 e),
                   ([ENewRequest codec; EMethod] ++ logB ++ [EGet name]
                    ++ reads zeroValue (pre ++ [ty]) ++ [EWriteError 400 e])%list)
       end.
Proof.
  intros Hsel HM Hget final.
  rewrite (ServeHTTP_selects s w r codec Hsel).
  pose proof (serveCodec_stages s w r codec) as Hst. cbv zeta in Hst.
  rewrite HM, Hget in Hst.
  pose proof (runBefore_fold (before s) 0 name (req_Context r) (req_Header r)
                (with_state (NewRequest codec r) st)) as Hfold.
  pose proof (runBefore_is_before (before s) 0 name (req_Context r) (req_Header r)
                (with_state (NewRequest codec r) st)) as HB.
  pose proof (runBefore_same_object (before s) 0 name (req_Context r) (req_Header r)
                (with_state (NewRequest codec r) st)) as [st2 Hobj].
  destruct (runBefore 0 (before s) name (req_Context r) (req_Header r)
              (with_state (NewRequest codec r) st)) as [[[ctx h] c2] logB].
  destruct Hfold as (Hfin & _ & _). cbn [fst snd] in HB, Hobj.
  assert (Hfinal : final = (ctx, h, c2)) by (unfold final; now rewrite <- Hfin).
  rewrite Hfinal. cbn [fst snd]. exists logB. split; [exact HB|].
  pose proof (readArgs_bindParameters (argsType m) ctx c2 [rcvr svc]) as Hbind.
  destruct (bindParameters_same_object (argsType m) ctx c2) as [st3 Hobj3].
  destruct (bindParameters zeroValue ctx c2 (argsType m)) as [[e|args] c3].
  - destruct Hbind as (pre & ty & post & argsPre & cPre & v & st' & Htys & Hty & Hpre & Hr
                       & Hc3 & Hra).
    exists pre, ty, post, argsPre, cPre, v, st'.
    split; [exact Htys|]. split; [exact Hty|]. split; [exact Hpre|]. split; [exact Hr|].
    split; [exact Hc3|]. rewrite Hra in Hst. rewrite Hst.
    cbn [snd] in Hobj3. rewrite Hobj3, Hobj. reflexivity.
  - rewrite Hbind in Hst. cbn [app] in Hst. rewrite Hst.
    cbn [snd] in Hobj3. rewrite Hobj3, Hobj. reflexivity.
Qed.

(** C1: in a dispatch that has resolved its method, the declared
    parameters are taken in order; a parameter of the context type is bound
    to the context that the hook chain returned, and the codec is not
    asked; for any other a fresh holder of the declared type goes to the
    codec's [ReadRequest], and what the codec left in it is the argument;
    when every decode succeeds the method is called once, on the receiver
    and these arguments; at the first decode that fails the dispatch ends
    by writing the codec's error with status 400 through the codec, and the
    method is not called. *)
Theorem arguments_bound s w r codec name st svc m :
  selects s r codec ->
  cr_Method (NewRequest codec r) (cr_state (NewRequest codec r)) = (name, None, st) ->
  get (services s) name = inr (svc, m) ->
  let init := (req_Context r, req_Header r, with_state (NewRequest codec r) st) in
  let final := fold_left (applyBefore name) (before s) init in
  let ctx := fst (fst final) in
  let w' := fst (ServeHTTP zeroValue s w r) in
  let log := snd (ServeHTTP zeroValue s w r) in
  match bindParameters zeroValue ctx (snd final) (argsType m) with
  | (inr args, _) =>
      List.filter is_read log = reads zeroValue (argsType m)
      /\ List.filter is_call log = [ECall (rcvr svc :: args)]
      /\ length args = length (argsType m)
      /\ (forall i ty, argsType m !! i = Some ty ->
            exists argsI cI,
              bindParameters zeroValue ctx (snd final) (take i (argsType m)) = (inr argsI, cI)
              /\ if decide (ty = typeOfContext)
                 then args !! i = Some (ValueOfContext ctx)
                 else exists v st',
                        cr_ReadRequest cI (cr_state cI) ty (zeroValue ty) = (None, v, st')
                        /\ args !! i = Some (PtrTo ty v))
  | (inl errRead, c) =>
      w' = fst (cr_WriteError (NewRequest codec r) (cr_state c) w 400 errRead)
      /\ last log = Some (EWriteError 400 errRead)
      /\ List.filter is_call log = []
      /\ exists pre ty post argsPre cPre v st',
           argsType m = (pre ++ ty :: post)%list
           /\ ty <> typeOfContext
           /\ bindParameters zeroValue ctx (snd final) pre = (inr argsPre, cPre)
           /\ cr_ReadRequest cPre (cr_state cPre) ty (zeroValue ty) = (Some errRead, v, st')
           /\ c = with_state cPre st'
           /\ List.filter is_read log = reads zeroValue (pre ++ [ty])
  end.
Proof.
  intros Hsel HM Hget init final ctx w' log. subst w' log.
  destruct (ServeHTTP_bound s w r codec name st svc m Hsel HM Hget) as (logB & HB & Hb).
  cbv zeta in Hb. fold init in Hb. fold final in Hb. fold ctx in Hb.
  assert (HBr : List.filter is_read logB = []).
  { apply filter_drop. eapply Forall_impl; [exact HB|].
    intros [] He; try discriminate He; reflexivity. }
  assert (HBc : List.filter is_call logB = []).
  { apply filter_drop. eapply Forall_impl; [exact HB|].
    intros [] He; try discriminate He; reflexivity. }
  assert (Hrr : forall tys,
            List.filter is_read (reads zeroValue tys : list (@event Ctx Val St))
            = reads zeroValue tys).
  { intros tys. apply filter_keep, reads_is_read. }
  assert (Hrc : forall tys,
            List.filter is_call (reads zeroValue tys : list (@event Ctx Val St)) = []).
  { intros tys. apply filter_drop. eapply Forall_impl; [apply reads_is_read|].
    intros [] He; try discriminate He; reflexivity. }
  pose proof (bindParameters_positions (argsType m) ctx (snd final)) as Hpos.
  destruct (bindParameters zeroValue ctx (snd final) (argsType m)) as [[e|args] c].
  - destruct Hb as (pre & ty & post & argsPre & cPre & v & st' & Htys & Hty & Hpre & Hr
                    & Hc & ->).
    cbn [fst snd]. split; [reflexivity|].
    split. { rewrite !app_assoc. apply last_snoc. }
    split. { rewrite !List.filter_app, HBc, Hrc. reflexivity. }
    exists pre, ty, post, argsPre, cPre, v, st'.
    split; [exact Htys|]. split; [exact Hty|]. split; [exact Hpre|]. split; [exact Hr|].
    split; [exact Hc|]. rewrite !List.filter_app, HBr, Hrr. cbn. now rewrite app_nil_r.
  - rewrite Hb. cbn [fst snd]. destruct (Hpos args c eq_refl) as [Hlen Hargs].
    split.
    { rewrite !List.filter_app, HBr, Hrr. unfold invoke.
      destruct (method m _) as [vr [er|]]; cbn; now rewrite app_nil_r. }
    split.
    { rewrite !List.filter_app, HBc, Hrc. unfold invoke.
      destruct (method m _) as [vr [er|]]; reflexivity. }
    split; [exact Hlen | exact Hargs].
Qed.

(** C2: once the method has been called, one encoding follows and only
    one, by the codec request that [NewRequest] made, in the state in which
    the decoding of the arguments left it, on the response with the header
    set: [WriteError] with status 400 and the error when the error slot is
    not nil, with no [WriteResponse]; [WriteResponse] with the result slot
    when it is nil. *)
Theorem result_or_error_encoded s w r refValue :
  In (ECall refValue) (snd (ServeHTTP zeroValue s w r)) ->
  let w1 := rw_Header_Set w "x-content-type-options" "nosniff" in
  exists codec name st svc m args c pre,
    selects s r codec
    /\ cr_Method (NewRequest codec r) (cr_state (NewRequest codec r)) = (name, None, st)
    /\ get (services s) name = inr (svc, m)
    /\ (let final := fold_left (applyBefore name) (before s)
                       (req_Context r, req_Header r, with_state (NewRequest codec r) st) in
        bindParameters zeroValue (fst (fst final)) (snd final) (argsType m) = (inr args, c))
    /\ refValue = rcvr svc :: args
    /\ Forall (fun e => is_call e = false /\ is_encoding e = false) pre
    /\ match method m refValue with
       | (valRet, None) =>
           ServeHTTP zeroValue s w r
           = (fst (cr_WriteResponse (NewRequest codec r) (cr_state c) w1 valRet),
              (pre ++ [ECall refValue; EWriteResponse valRet])%list)
       | (_, Some errResult) =>
           ServeHTTP zeroValue s w r
           = (fst (cr_WriteError (NewRequest codec r) (cr_state c) w1 400 errResult),
              (pre ++ [ECall refValue; EWriteError 400 errResult])%list)
       end.
Proof.
  intros Hin w1.
  destruct (ServeHTTP_cases s w r) as [E|[E|[E|(codec & Hsel & E)]]];
    try (rewrite E in Hin; destruct Hin).
  pose proof (serveCodec_stages s w r codec) as Hst. cbv zeta in Hst.
  destruct (cr_Method (NewRequest codec r) (cr_state (NewRequest codec r)))
    as [[name [e|]] st] eqn:HM.
  { rewrite E, Hst in Hin. cbn in Hin. destruct Hin as [Hi|[Hi|[Hi|[]]]]; discriminate Hi. }
  destruct (get (services s) name) as [errGet|[svc m]] eqn:Hget.
  { exfalso. rewrite E in Hin.
    pose proof (runBefore_no_call (before s) 0 name (req_Context r) (req_Header r)
                  (with_state (NewRequest codec r) st)) as HB.
    destruct (runBefore 0 (before s) name (req_Context r) (req_Header r)
                (with_state (NewRequest codec r) st)) as [[[ctx h] c2] logB].
    cbn [snd] in HB. rewrite Hst in Hin. cbn [snd] in Hin.
    assert (Hnc : Forall (fun e : @event Ctx Val St => is_call e = false)
                    ([ENewRequest codec; EMethod] ++ logB
                     ++ [EGet name; EWriteError 400 errGet])%list)
      by (repeat (apply Forall_app; split); try assumption; repeat constructor).
    rewrite Forall_forall in Hnc. apply list_elem_of_In in Hin.
    specialize (Hnc _ Hin). discriminate Hnc. }
  clear Hst E.
  destruct (ServeHTTP_bound s w r codec name st svc m Hsel HM Hget) as (logB & HB & Hb).
  cbv zeta in Hb.
  assert (HB' : Forall (fun e : @event Ctx Val St =>
                          is_call e = false /\ is_encoding e = false) logB).
  { eapply Forall_impl; [exact HB|]. intros [] He; try discriminate He. now split. }
  assert (HR' : forall tys, Forall (fun e : @event Ctx Val St =>
                                      is_call e = false /\ is_encoding e = false)
                              (reads zeroValue tys)).
  { intros tys. eapply Forall_impl; [apply reads_is_read|].
    intros [] He; try discriminate He. now split. }
  destruct (bindParameters zeroValue _ _ (argsType m)) as [[e|args] c] eqn:Eb.
  { exfalso.
    destruct Hb as (pre & ty & post & argsPre & cPre & v & st' & _ & _ & _ & _ & _ & Hs).
    rewrite Hs in Hin. cbn [snd] in Hin.
    assert (Hnc : Forall (fun e : @event Ctx Val St =>
                            is_call e = false /\ is_encoding e = false)
                    ([ENewRequest codec; EMethod] ++ logB ++ [EGet name]
                     ++ reads zeroValue (pre ++ [ty]))%list)
      by (repeat (apply Forall_app; split); try assumption; try apply HR';
          repeat constructor).
    rewrite !app_assoc in Hin. apply in_app_or in Hin. destruct Hin as [Hin|[Hi|[]]];
      [|discriminate Hi].
    rewrite <- !app_assoc in Hin.
    rewrite Forall_forall in Hnc. apply list_elem_of_In in Hin.
    destruct (Hnc _ Hin) as [Hc _]. discriminate Hc. }
  assert (Hpre : Forall (fun e : @event Ctx Val St =>
                           is_call e = false /\ is_encoding e = false)
                   ([ENewRequest codec; EMethod] ++ logB ++ [EGet name]
                    ++ reads zeroValue (argsType m))%list)
    by (repeat (apply Forall_app; split); try assumption; try apply HR';
        repeat constructor).
  assert (refValue = rcvr svc :: args) as ->.
  { rewrite Hb in Hin. cbn [snd] in Hin. rewrite !app_assoc in Hin.
    apply in_app_or in Hin. destruct Hin as [Hin|Hin].
    - rewrite <- !app_assoc in Hin. rewrite Forall_forall in Hpre.
      apply list_elem_of_In in Hin. destruct (Hpre _ Hin) as [Hc _]. discriminate Hc.
    - unfold invoke in Hin. destruct (method m _) as [vr [er|]];
        destruct Hin as [Hi|[Hi|[]]]; congruence. }
  exists codec, name, st, svc, m, args, c,
    ([ENewRequest codec; EMethod] ++ logB ++ [EGet name] ++ reads zeroValue (argsType m))%list.
  split; [exact Hsel|]. split; [exact HM|]. split; [exact Hget|].
  split; [exact Eb|]. split; [reflexivity|]. split; [exact Hpre|].
  rewrite Hb. unfold invoke, w1. destruct (method m (rcvr svc :: args)) as [vr [er|]];
    cbn [fst snd with_state cr_state cr_WriteResponse cr_WriteError];
    f_equal; rewrite <- !app_assoc; reflexivity.
Qed.

(** How a dispatch ends: rejected before any codec or stopped by a nil one,
    ended by the codec's [WriteError] on the sink as it came, or ended after
    the call on the sink with the header set. *)
Lemma ServeHTTP_outcome s w r :
  let w' := fst (ServeHTTP zeroValue s w r) in
  let log := snd (ServeHTTP zeroValue s w r) in
  let w1 := rw_Header_Set w "x-content-type-options" "nosniff" in
  (log = [] /\ (w' = w \/ exists status msg, w' = WriteError w status msg))
  \/ (exists codec st e,
        selects s r codec /\ log <> []
        /\ Forall (fun e => is_call e = false) log
        /\ w' = fst (cr_WriteError (NewRequest codec r) st w 400 e))
  \/ (exists codec st refValue,
        selects s r codec /\ In (ECall refValue) log
        /\ ((exists v, w' = fst (cr_WriteResponse (NewRequest codec r) st w1 v))
            \/ (exists e, w' = fst (cr_WriteError (NewRequest codec r) st w1 400 e)))).
Proof.
  intros w' log w1. subst w' log.
  destruct (ServeHTTP_cases s w r) as [E|[E|[E|(codec & Hsel & E)]]]; rewrite E.
  1, 2: left; split; [reflexivity | right; eauto].
  1: left; split; [reflexivity | now left].
  right.
  pose proof (serveCodec_stages s w r codec) as Hst. cbv zeta in Hst.
  destruct (cr_Method (NewRequest codec r) (cr_state (NewRequest codec r)))
    as [[name [e|]] st].
  { left. exists codec, st, e. rewrite Hst. cbn [fst snd].
    split; [exact Hsel|]. split; [discriminate|]. split; [repeat constructor | reflexivity]. }
  pose proof (runBefore_no_call (before s) 0 name (req_Context r) (req_Header r)
                (with_state (NewRequest codec r) st)) as HB.
  pose proof (runBefore_same_object (before s) 0 name (req_Context r) (req_Header r)
                (with_state (NewRequest codec r) st)) as [st2 Hobj].
  destruct (runBefore 0 (before s) name (req_Context r) (req_Header r)
              (with_state (NewRequest codec r) st)) as [[[ctx h] c2] logB].
  cbn [fst snd] in HB, Hobj. subst c2.
  destruct (get (services s) name) as [errGet|[svc m]].
  { left. exists codec, st2, errGet. rewrite Hst. cbn [fst snd].
    split; [exact Hsel|]. split; [discriminate|]. split; [|reflexivity].
    repeat (apply Forall_app; split); try assumption; repeat constructor. }
  pose proof (readArgs_no_call (argsType m) ctx
                (with_state (with_state (NewRequest codec r) st) st2) [rcvr svc]) as HR.
  pose proof (readArgs_same_object (argsType m) ctx
                (with_state (with_state (NewRequest codec r) st) st2) [rcvr svc])
    as [st3 Hobj].
  destruct (readArgs zeroValue (argsType m) ctx _ [rcvr svc]) as [[[e|rv] c3] logR];
    cbn [fst snd] in HR, Hobj; subst c3; rewrite Hst; cbn [fst snd].
  - left. exists codec, st3, e.
    split; [exact Hsel|]. split; [discriminate|]. split; [|reflexivity].
    repeat (apply Forall_app; split); try assumption; repeat constructor.
  - right. exists codec, st3, rv. split; [exact Hsel|]. split.
    + do 4 (apply in_or_app; right). unfold invoke.
      destruct (method m rv) as [vr [er|]]; now left.
    + unfold invoke. destruct (method m rv) as [vr [er|]]; cbn [fst];
        [right; now exists er | left; now exists vr].
Qed.

(** C7, as the code has it: the dispatcher sets the header that disables
    content-type sniffing once the method has been called, before the
    codec encodes the result or the error, so the response of a success or
    of an application error carries it when the codec's writers leave a
    header in place; a request rejected for its verb or its content type,
    and one that the codec ends before the call, are written on the
    response as it came, the header untouched by the dispatcher. *)
Theorem nosniff_set_before_encoding s w r :
  let w' := fst (ServeHTTP zeroValue s w r) in
  let log := snd (ServeHTTP zeroValue s w r) in
  let w1 := rw_Header_Set w "x-content-type-options" "nosniff" in
  nosniff w1
  /\ ((exists refValue, In (ECall refValue) log) ->
      (exists codec st,
         selects s r codec
         /\ ((exists v, w' = fst (cr_WriteResponse (NewRequest codec r) st w1 v))
             \/ (exists e, w' = fst (cr_WriteError (NewRequest codec r) st w1 400 e))))
      /\ ((forall codec, selects s r codec -> keeps_nosniff (NewRequest codec r)) ->
          nosniff w'))
  /\ (req_Method r <> "POST" -> log = [])
  /\ (log = [] ->
      Header_Get (rw_Header w') "x-content-type-options"
      = Header_Get (rw_Header w) "x-content-type-options")
  /\ (log <> [] -> (forall refValue, ~ In (ECall refValue) log) ->
      exists codec st e,
        selects s r codec
        /\ w' = fst (cr_WriteError (NewRequest codec r) st w 400 e)).
Proof.
  intros w' log w1.
  assert (Hw1 : nosniff w1) by apply Header_Get_Set_same.
  split; [exact Hw1|].
  pose proof (ServeHTTP_outcome s w r) as Hout. cbv zeta in Hout. fold w' log w1 in Hout.
  split; [|split; [|split]].
  - intros [rv Hin].
    destruct Hout as [[Hl _]|[(codec & st & e & _ & _ & Hnc & _)|(codec & st & rv' & Hsel & _ & Hw)]].
    + rewrite Hl in Hin. destruct Hin.
    + rewrite Forall_forall in Hnc. apply list_elem_of_In in Hin.
      specialize (Hnc _ Hin). discriminate Hnc.
    + split; [exists codec, st; auto|].
      intros Hk. specialize (Hk codec Hsel st w1 Hw1). destruct Hk as [Hk1 Hk2].
      destruct Hw as [[v ->]|[e ->]]; [apply Hk1 | apply Hk2].
  - intros HP. unfold log. now rewrite (ServeHTTP_non_POST s w r HP).
  - intros Hl.
    destruct Hout as [[_ [->|(status & msg & ->)]]|[(codec & st & e & _ & Hne & _)|(codec & st & rv' & _ & Hin & _)]].
    + reflexivity.
    + apply WriteError_keeps_nosniff_header.
    + contradiction.
    + rewrite Hl in Hin. destruct Hin.
  - intros Hne Hnc.
    destruct Hout as [[Hl _]|[(codec & st & e & Hsel & _ & _ & Hw)|(codec & st & rv' & _ & Hin & _)]].
    + contradiction.
    + exists codec, st, e. auto.
    + destruct (Hnc _ Hin).
Qed.

Lemma runBefore_read_only bs : forall i name ctx h c,
  hooks_read_only bs ->
  snd (fst (runBefore i bs name ctx h c)) = c.
Proof.
  induction bs as [|b bs IH]; intros i name ctx h c Hbs; cbn [runBefore].
  - reflexivity.
  - inversion Hbs as [|b' bs' Hb Hrest]; subst.
    specialize (Hb ctx name h c).
    destruct (b ctx name h c) as [[ctx1 h1] st1]. cbn in Hb. subst st1.
    rewrite with_state_id.
    specialize (IH (S i) name ctx1 h1 c Hrest).
    destruct (runBefore (S i) bs name ctx1 h1 c) as [[[ctx2 h2] c2] log].
    exact IH.
Qed.

Lemma readArgs_first_fails pre : forall ty post ctx c refValue e v st',
  Forall (fun t => t = typeOfContext) pre ->
  ty <> typeOfContext ->
  cr_ReadRequest c (cr_state c) ty (zeroValue ty) = (Some e, v, st') ->
  readArgs zeroValue (pre ++ ty :: post) ctx c refValue
  = (inl e, with_state c st', [EReadRequest (reflect_New zeroValue ty)]).
Proof.
  induction pre as [|t pre IH]; intros ty post ctx c refValue e v st' Hpre Hty Hr.
  - cbn [app readArgs]. rewrite decide_True by exact Hty. now rewrite Hr.
  - inversion Hpre as [|t' pre' Ht Hrest]; subst.
    cbn [app readArgs]. rewrite decide_False by tauto.
    now apply (IH ty post ctx c _ e v st').
Qed.

End DispatcherProperties.

(** ** The codec and the client of package json2 *)

Section Json2Properties.

Context {Ctx : Type}.
Context {tables : UnicodeLower}.
Variables parseMessage decodeMessage : string.
Variable zeroValue : rtype -> json.

Implicit Types (s : @Server Ctx json string) (r : @Request Ctx).

Lemma decodeInto_array_into_struct hfields elems :
  decodeInto (JObj hfields) (JArr elems) = None.
Proof. reflexivity. Qed.

Lemma ReadRequest_array body fields elems ty hfields :
  json2.envelope body = Some fields ->
  member "params" fields = Some (JArr elems) ->
  json2.ReadRequest parseMessage decodeMessage body ty (JObj hfields)
  = (Some (json2.DecodeError decodeMessage), JObj hfields, body).
Proof. intros He Hp. unfold json2.ReadRequest. now rewrite He, Hp. Qed.

Lemma Method_named body fields name :
  json2.envelope body = Some fields ->
  member "method" fields = Some (JStr name) ->
  json2.Method parseMessage body = (name, None, body).
Proof. intros He Hm. unfold json2.Method. now rewrite He, Hm. Qed.

Lemma DecodeClientResponse_error body reply (e : Error json) :
  Data e = None ->
  json2.DecodeClientResponse parseMessage decodeMessage
    (Marshal (JObj [("jsonrpc", JStr "2.0"); ("id", json2.echoId body);
                    ("error", json2.errorJSON e)])) reply
  = (Some (ErrorPtr e), reply).
Proof.
  intros Hd. unfold json2.DecodeClientResponse, json2.envelope.
  rewrite Unmarshal_Marshal. destruct e as [code message data]. cbn in Hd. subst data.
  reflexivity.
Qed.

(** C5: a success-shaped response whose [result] is null decodes to
    [ErrNullResult], an error that is neither a decode error nor a tagged
    [Error], and the caller's value is left as it was. *)
Theorem null_result_distinguished body fields reply :
  json2.envelope body = Some fields ->
  member "error" fields = None \/ member "error" fields = Some JNull ->
  member "result" fields = Some JNull ->
  json2.DecodeClientResponse parseMessage decodeMessage body reply
  = (Some ErrNullResult, reply)
  /\ (forall msg, @ErrNullResult json <> foreignError msg)
  /\ (forall e, @ErrNullResult json <> ErrorPtr e).
Proof.
  intros He Herr Hres. split; [|split; discriminate].
  unfold json2.DecodeClientResponse. rewrite He, Hres.
  destruct Herr as [-> | ->]; reflexivity.
Qed.


(** C4, as the code has it: a request whose body is an object with a
    [params] member that is a positional array, for a method whose first
    decoded parameter is a structured holder, the hooks leaving the codec
    request as they found it: the decode fails with the decode error and
    leaves the holder as it was, the dispatcher writes that error through
    the codec with status 400 and does not call the method, and the
    client's decoding of the response gives the error and leaves the
    response value as it was. *)
Theorem positional_params_rejected s r fields elems name svc m pre ty post hfields :
  selects s r (json2.NewCodec parseMessage decodeMessage) ->
  hooks_read_only (before s) ->
  json2.envelope (req_Body r) = Some fields ->
  member "method" fields = Some (JStr name) ->
  member "params" fields = Some (JArr elems) ->
  get (services s) name = inr (svc, m) ->
  argsType m = (pre ++ ty :: post)%list ->
  Forall (fun t => t = typeOfContext) pre ->
  ty <> typeOfContext ->
  zeroValue ty = JObj hfields ->
  let w' := fst (ServeHTTP zeroValue s NewRecorder r) in
  let log := snd (ServeHTTP zeroValue s NewRecorder r) in
  json2.ReadRequest parseMessage decodeMessage (req_Body r) ty (zeroValue ty)
  = (Some (json2.DecodeError decodeMessage), zeroValue ty, req_Body r)
  /\ List.filter is_read log = [EReadRequest (reflect_New zeroValue ty)]
  /\ Forall (fun e => is_call e = false) log
  /\ last log = Some (EWriteError 400 (json2.DecodeError decodeMessage))
  /\ w' = fst (cr_WriteError (NewRequest (json2.NewCodec parseMessage decodeMessage) r)
                 (req_Body r) NewRecorder 400 (json2.DecodeError decodeMessage))
  /\ forall res,
       json2.DecodeClientResponse parseMessage decodeMessage (default "" (rw_Body w')) res
       = (Some (json2.DecodeError decodeMessage), res).
Proof.
  intros Hsel Hhooks He Hm Hp Hget Htys Hpre Hty Hzero w' log. subst w' log.
  assert (Hread := ReadRequest_array (req_Body r) fields elems ty hfields He Hp).
  rewrite <- Hzero in Hread. split; [exact Hread|].
  rewrite (ServeHTTP_selects zeroValue s NewRecorder r _ Hsel).
  pose proof (serveCodec_stages zeroValue s NewRecorder r
                (json2.NewCodec parseMessage decodeMessage)) as Hst.
  cbv zeta in Hst.
  assert (HM : cr_Method (NewRequest (json2.NewCodec parseMessage decodeMessage) r)
                 (cr_state (NewRequest (json2.NewCodec parseMessage decodeMessage) r))
               = (name, None, req_Body r))
    by exact (Method_named (req_Body r) fields name He Hm).
  rewrite HM in Hst.
  pose proof (runBefore_read_only (before s) 0 name (req_Context r) (req_Header r)
                (with_state (NewRequest (json2.NewCodec parseMessage decodeMessage) r)
                   (req_Body r)) Hhooks) as Hobj.
  pose proof (runBefore_no_call (before s) 0 name (req_Context r) (req_Header r)
                (with_state (NewRequest (json2.NewCodec parseMessage decodeMessage) r)
                   (req_Body r))) as HncB.
  pose proof (runBefore_no_read (before s) 0 name (req_Context r) (req_Header r)
                (with_state (NewRequest (json2.NewCodec parseMessage decodeMessage) r)
                   (req_Body r))) as HnrB.
  destruct (runBefore 0 (before s) name (req_Context r) (req_Header r) _)
    as [[[ctx h] c2] logB].
  cbn [fst snd] in Hobj, HncB, HnrB. subst c2.
  rewrite Hget, Htys in Hst.
  rewrite (readArgs_first_fails zeroValue pre ty post ctx
             (with_state (NewRequest (json2.NewCodec parseMessage decodeMessage) r)
                (req_Body r))
             [rcvr svc]
             (json2.DecodeError decodeMessage) (zeroValue ty) (req_Body r) Hpre Hty Hread)
    in Hst.
  rewrite Hst. cbn [fst snd].
  split; [|split; [|split; [|split]]].
  - rewrite !List.filter_app, HnrB. reflexivity.
  - repeat (apply Forall_app; split); try assumption; repeat constructor.
  - rewrite !app_assoc. apply last_snoc.
  - reflexivity.
  - intros res. cbn [with_state cr_WriteError cr_state fst json2.WriteError].
    unfold rw_Write, NewRecorder; cbn [rw_Body default].
    change ("" +:+ ?x) with x.
    apply DecodeClientResponse_error. reflexivity.
Qed.

End Json2Properties.

(** ** The dispatcher on the service of the tests *)

Section Scenarios.

Import json_test.

Lemma non_POST_rejected_witness :
req_Method getRequest <> "POST"
/\ let (w', log) := ServeHTTP zeroValue hookedServer NewRecorder getRequest in
   w' = WriteError NewRecorder 405 ("rpc: POST method required, received " +:+ req_Method getRequest)
   /\ rw_Code w' = 405
   /\ Header_Get (rw_Header w') "Content-Type" = "text/plain; charset=utf-8"
   /\ rw_Body w'
      = (fun b => b +:+ "rpc: POST method required, received " +:+ req_Method getRequest)
          <$> rw_Body NewRecorder
   /\ log = [].
Proof.
split; [discriminate|].
apply (non_POST_rejected zeroValue hookedServer NewRecorder getRequest). discriminate.
Defined.

Lemma contentTypeOf_multiplyRequest : contentTypeOf multiplyRequest = "application/json".
Proof. vm_compute. reflexivity. Qed.

Lemma contentTypeOf_scaledRequest : contentTypeOf scaledRequest = "Application/JSON".
Proof. vm_compute. reflexivity. Qed.

Lemma lookup_server : codecs server !! "application/json" = Some (Some NewCodec).
Proof.
  unfold server, RegisterCodec; cbn [codecs].
  change (ToLower "application/json") with "application/json". apply lookup_insert_eq.
Qed.

Lemma lookup_hookedServer : codecs hookedServer !! "application/json" = Some (Some NewCodec).
Proof.
  unfold hookedServer, RegisterCodec; cbn [codecs].
  change (ToLower "application/json") with "application/json". apply lookup_insert_eq.
Qed.

Lemma selects_server_multiply : selects server multiplyRequest NewCodec.
Proof.
split; [reflexivity|]. right. rewrite contentTypeOf_multiplyRequest. split.
- intros [H _]. discriminate H.
- exact lookup_server.
Qed.

Lemma selects_hooked_scaled : selects hookedServer scaledRequest NewCodec.
Proof.
split; [reflexivity|]. right. rewrite contentTypeOf_scaledRequest. split.
- intros [H _]. discriminate H.
- change (ToLower "Application/JSON") with "application/json". exact lookup_hookedServer.
Qed.

(** Against C3 as stated: a POST request without a Content-Type header, to a
  server with two codecs of which one is registered under the empty
  content type, is not answered with 415: that codec serves it. *)
Lemma absent_header_two_codecs_served :
  let w' := fst (ServeHTTP zeroValue twoCodecs NewRecorder bareRequest) in
  let log := snd (ServeHTTP zeroValue twoCodecs NewRecorder bareRequest) in
  req_Method bareRequest = "POST"
  /\ req_Header bareRequest !! "Content-Type" = None
  /\ size (codecs twoCodecs) = 2%nat
  /\ rw_Code w' <> 415
  /\ log <> []
  /\ List.filter is_call log
     = [ECall [Service1; PtrTo (typeNamed "Service1Request") (Service1Request 4 2)]]
  /\ json2.DecodeClientResponse parseMessage decodeMessage (written w') (Service1Response 0)
     = (None, Service1Response 8).
Proof.
  intros w' log. subst w' log.
  split; [reflexivity|]. split; [reflexivity|]. split; [reflexivity|].
  split; [vm_compute; discriminate|].
  split.
  { intros H. apply (f_equal (@length _)) in H. vm_compute in H. discriminate H. }
  split; vm_compute; reflexivity.
Qed.

(** Against C7 as stated: the response to a request that is not a POST does
  not carry the header. *)
Lemma rejected_response_lacks_nosniff :
~ nosniff (fst (ServeHTTP zeroValue server NewRecorder getRequest)).
Proof. vm_compute. discriminate. Qed.

Lemma method_scaled :
cr_Method (NewRequest NewCodec scaledRequest) (cr_state (NewRequest NewCodec scaledRequest))
= ("Service1.Scaled", None, req_Body scaledRequest).
Proof. vm_compute. reflexivity. Qed.

Lemma method_multiply :
cr_Method (NewRequest NewCodec multiplyRequest) (cr_state (NewRequest NewCodec multiplyRequest))
= ("Service1.Multiply", None, req_Body multiplyRequest).
Proof. vm_compute. reflexivity. Qed.

Lemma codec_selection_witness :
contentTypeOf scaledRequest = "Application/JSON"
/\ dispatch zeroValue hookedServer NewRecorder scaledRequest
   = (Returned, serveCodec zeroValue hookedServer NewRecorder scaledRequest NewCodec)
/\ head (snd (ServeHTTP zeroValue hookedServer NewRecorder scaledRequest))
   = Some (ENewRequest NewCodec).
Proof.
pose proof (codec_selection zeroValue hookedServer NewRecorder scaledRequest eq_refl) as H.
cbv zeta in H. destruct H as (_ & Hcut & _ & _ & Hlook & _).
assert (Hct : contentTypeOf scaledRequest = "Application/JSON").
{ apply (Hcut "Application/JSON" " charset=utf-8"); reflexivity. }
split; [exact Hct|].
assert (Hn : ~ (contentTypeOf scaledRequest = "" /\ size (codecs hookedServer) = 1%nat)).
{ rewrite Hct. intros [H _]. discriminate H. }
specialize (Hlook Hn). rewrite Hct in Hlook.
change (ToLower "Application/JSON") with "application/json" in Hlook.
rewrite lookup_hookedServer in Hlook. exact Hlook.
Defined.

Lemma RegisterCodec_lowercase_witness :
let s1 := RegisterCodec (NewServer Service1_table []) (Some (json2.NewCodec "a" "b"))
            "Application/JSON" in
let s2 := RegisterCodec s1 (Some NewCodec) "application/json" in
ToLower "Application/JSON" = "application/json"
/\ codecs s2 !! "application/json" = Some (Some NewCodec)
/\ size (codecs s2) = 1%nat
/\ head (snd (ServeHTTP zeroValue s2 NewRecorder scaledRequest)) = Some (ENewRequest NewCodec).
Proof.
intros s1 s2.
pose proof (RegisterCodec_lowercase zeroValue (NewServer Service1_table [])
              (Some (json2.NewCodec "a" "b")) NewCodec "Application/JSON" "application/json"
              NewRecorder scaledRequest eq_refl eq_refl eq_refl) as H.
cbv zeta in H. destruct H as (_ & _ & H3 & H4 & _ & H6 & _).
split; [reflexivity|]. split; [exact H4|]. split; [|exact H6].
fold s1 in H3. fold s2 in H3. rewrite H3. unfold RegisterCodec; cbn [codecs].
unfold NewServer; cbn [fold_left codecs].
rewrite insert_empty. apply map_size_singleton.
Defined.

Lemma hooks_run_in_order_witness :
exists logB rest,
  snd (ServeHTTP zeroValue hookedServer NewRecorder scaledRequest)
  = ([ENewRequest NewCodec; EMethod] ++ logB ++ EGet "Service1.Scaled" :: rest)%list
  /\ length logB = 2%nat.
Proof.
pose proof (hooks_run_in_order zeroValue hookedServer NewRecorder scaledRequest NewCodec
              "Service1.Scaled" (req_Body scaledRequest)
              selects_hooked_scaled method_scaled) as H.
cbv zeta in H. destruct H as (_ & logB & rest & Hlog & Hlen & _).
exists logB, rest. split; [exact Hlog | exact Hlen].
Defined.

Lemma contentTypeOf_arrayRequest : contentTypeOf arrayRequest = "application/json".
Proof. vm_compute. reflexivity. Qed.

Lemma selects_server_array : selects server arrayRequest NewCodec.
Proof.
  split; [reflexivity|]. right. rewrite contentTypeOf_arrayRequest. split.
  - intros [H _]. discriminate H.
  - exact lookup_server.
Qed.

Lemma method_array :
  cr_Method (NewRequest NewCodec arrayRequest) (cr_state (NewRequest NewCodec arrayRequest))
  = ("Service1.Multiply", None, req_Body arrayRequest).
Proof. vm_compute. reflexivity. Qed.

Lemma multiply_get :
  get (services server) "Service1.Multiply"
  = inr ({| rcvr := Service1 |},
         {| method := Multiply; argsType := [typeNamed "Service1Request"] |}).
Proof. reflexivity. Qed.

Lemma arguments_bound_witness :
  List.filter is_call (snd (ServeHTTP zeroValue hookedServer NewRecorder scaledRequest))
  = [ECall [Service1; ValueOfContext ["Service1.Scaled"; "74"];
            PtrTo (typeNamed "Service1Request") (Service1Request 4 2)]]
  /\ List.filter is_read (snd (ServeHTTP zeroValue hookedServer NewRecorder scaledRequest))
     = [EReadRequest (PtrTo (typeNamed "Service1Request") (Service1Request 0 0))]
  /\ fst (ServeHTTP zeroValue server NewRecorder arrayRequest)
     = fst (cr_WriteError (NewRequest NewCodec arrayRequest) (req_Body arrayRequest)
              NewRecorder 400 (json2.DecodeError decodeMessage))
  /\ List.filter is_call (snd (ServeHTTP zeroValue server NewRecorder arrayRequest)) = [].
Proof.
  pose proof (arguments_bound zeroValue hookedServer NewRecorder scaledRequest NewCodec
                "Service1.Scaled" (req_Body scaledRequest) {| rcvr := Service1 |}
                {| method := Scaled; argsType := [typeOfContext; typeNamed "Service1Request"] |}
                selects_hooked_scaled method_scaled eq_refl) as H.
  pose proof (arguments_bound zeroValue server NewRecorder arrayRequest NewCodec
                "Service1.Multiply" (req_Body arrayRequest) {| rcvr := Service1 |}
                {| method := Multiply; argsType := [typeNamed "Service1Request"] |}
                selects_server_array method_array multiply_get) as H'.
  cbv zeta in H, H'. cbn [argsType rcvr] in H, H'.
  match type of H with
  | match ?b with _ => _ end =>
      assert (E : fst b
                  = inr [ValueOfContext ["Service1.Scaled"; "74"];
                         PtrTo (typeNamed "Service1Request") (Service1Request 4 2)])
        by (vm_compute; reflexivity);
      destruct b as [[e|args] c]; cbn [fst] in E; [discriminate E|]
  end.
  injection E as ->. destruct H as (Hr & Hc & _).
  match type of H' with
  | match ?b with _ => _ end =>
      assert (E : fst b = inl (json2.DecodeError decodeMessage))
        by (vm_compute; reflexivity);
      assert (E' : cr_state (snd b) = req_Body arrayRequest)
        by (vm_compute; reflexivity);
      destruct b as [[e|args] c']; cbn [fst snd] in E, E'; [|discriminate E]
  end.
  injection E as ->. rewrite E' in H'. destruct H' as (Hw & _ & Hnc & _).
  split; [exact Hc|]. split; [exact Hr|]. split; [exact Hw | exact Hnc].
Defined.

Lemma multiply_called :
In (ECall [Service1; PtrTo (typeNamed "Service1Request") (Service1Request 4 2)])
   (snd (ServeHTTP zeroValue server NewRecorder multiplyRequest)).
Proof.
  apply (proj1 (filter_In is_call _ _)).
  assert (H : List.filter is_call (snd (ServeHTTP zeroValue server NewRecorder multiplyRequest))
              = [ECall [Service1; PtrTo (typeNamed "Service1Request") (Service1Request 4 2)]])
    by (vm_compute; reflexivity).
  rewrite H. now left.
Qed.

Lemma selects_server_unique codec :
selects server multiplyRequest codec -> codec = NewCodec.
Proof.
intros [_ [(H & _)|(_ & H)]].
- rewrite contentTypeOf_multiplyRequest in H. discriminate H.
- rewrite contentTypeOf_multiplyRequest in H.
  change (ToLower "application/json") with "application/json" in H.
  rewrite lookup_server in H. now injection H as <-.
Qed.

Lemma result_or_error_encoded_witness :
  exists pre,
    ServeHTTP zeroValue server NewRecorder multiplyRequest
    = (fst (cr_WriteResponse (NewRequest NewCodec multiplyRequest) (req_Body multiplyRequest)
              (rw_Header_Set NewRecorder "x-content-type-options" "nosniff")
              (Service1Response 8)),
       (pre ++ [ECall [Service1; PtrTo (typeNamed "Service1Request") (Service1Request 4 2)];
                EWriteResponse (Service1Response 8)])%list).
Proof.
  destruct (result_or_error_encoded zeroValue server NewRecorder multiplyRequest _
              multiply_called)
    as (codec & name & st & svc & m & args & c & pre & Hsel & HM & Hget & Hb & _ & _ & H).
  apply selects_server_unique in Hsel. subst codec.
  rewrite method_multiply in HM. injection HM as <- <-.
  rewrite multiply_get in Hget. injection Hget as <- <-. cbn [method] in H.
  cbv zeta in Hb. apply (f_equal (fun x => cr_state (snd x))) in Hb. cbn [snd] in Hb.
  assert (Hm : Multiply [Service1; PtrTo (typeNamed "Service1Request") (Service1Request 4 2)]
               = (Service1Response 8, None)) by (vm_compute; reflexivity).
  rewrite Hm in H. exists pre. rewrite H, <- Hb. reflexivity.
Defined.

Lemma rw_Write_keeps_nosniff w buf : nosniff w -> nosniff (rw_Write w buf).
Proof. intros H. exact H. Qed.

Lemma NewCodec_keeps_nosniff parseMessage decodeMessage (r : @Request Ctx) :
keeps_nosniff (NewRequest (json2.NewCodec parseMessage decodeMessage) r).
Proof. intros st w H. split; intros; exact H. Qed.


Lemma nosniff_set_before_encoding_witness :
nosniff (fst (ServeHTTP zeroValue server NewRecorder multiplyRequest)).
Proof.
pose proof (nosniff_set_before_encoding zeroValue server NewRecorder multiplyRequest) as H.
cbv zeta in H. destruct H as (_ & H & _).
destruct H as [_ H]; [eexists; exact multiply_called|].
apply H. intros codec Hsel. rewrite (selects_server_unique codec Hsel).
apply NewCodec_keeps_nosniff.
Defined.

Lemma envelope_arrayRequest :
  json2.envelope (req_Body arrayRequest)
  = Some [("jsonrpc", JStr "2.0"); ("params", JArr [JObj [("T", JStr "test")]]);
          ("method", JStr "Service1.Multiply"); ("id", JNum 1)].
Proof. vm_compute. reflexivity. Qed.

Lemma positional_params_rejected_witness :
  executeRaw server paramsArrayRequest (Service1Response 0)
  = (Some (json2.DecodeError decodeMessage), Service1Response 0)
  /\ Forall (fun e => is_call e = false)
       (snd (ServeHTTP zeroValue server NewRecorder arrayRequest)).
Proof.
  pose proof (positional_params_rejected parseMessage decodeMessage zeroValue
                server arrayRequest _ [JObj [("T", JStr "test")]] "Service1.Multiply"
                {| rcvr := Service1 |}
                {| method := Multiply; argsType := [typeNamed "Service1Request"] |}
                [] (typeNamed "Service1Request") []
                [("A", JNum 0); ("B", JNum 0)]
                selects_server_array (List.Forall_nil _) envelope_arrayRequest
                eq_refl eq_refl multiply_get eq_refl (List.Forall_nil _)
                ltac:(discriminate) eq_refl) as H.
  cbv zeta in H. destruct H as (_ & _ & Hnc & _ & _ & Hres).
  split; [exact (Hres (Service1Response 0)) | exact Hnc].
Defined.

(** Against C4 as stated: a request whose params is a positional array, for
    a method that declares the context alone.  No holder is decoded, so no
    decode fails: the method is called, and the response value that the
    client decodes is the method's result, not the zero value. *)
Lemma positional_params_served :
  let w' := fst (ServeHTTP zeroValue hello.server NewRecorder hello.pingRequest) in
  let log := snd (ServeHTTP zeroValue hello.server NewRecorder hello.pingRequest) in
  (exists fields,
      json2.envelope (req_Body hello.pingRequest) = Some fields
      /\ member "params" fields = Some (JArr [JNum 1]))
  /\ List.filter is_read log = []
  /\ List.filter is_call log
     = [ECall [ValueOf (JObj []); ValueOfContext ["HelloService.Ping"]]]
  /\ List.filter is_encoding log = [EWriteResponse (hello.PingResp "Pong")]
  /\ json2.DecodeClientResponse parseMessage decodeMessage (written w') (hello.PingResp "")
     = (None, hello.PingResp "Pong")
  /\ hello.PingResp "Pong" <> hello.PingResp "".
Proof.
  intros w' log. subst w' log.
  split. { eexists. split; vm_compute; reflexivity. }
  split; [vm_compute; reflexivity|]. split; [vm_compute; reflexivity|].
  split; [vm_compute; reflexivity|]. split; [vm_compute; reflexivity|]. discriminate.
Qed.

Lemma envelope_nullResultBody :
  json2.envelope nullResultBody
  = Some [("jsonrpc", JStr "2.0"); ("id", JNum 12345); ("result", JNull)].
Proof. vm_compute. reflexivity. Qed.

Lemma null_result_distinguished_witness :
  json2.DecodeClientResponse parseMessage decodeMessage nullResultBody JNull
  = (Some ErrNullResult, JNull).
Proof.
  exact (proj1 (null_result_distinguished parseMessage decodeMessage nullResultBody _ JNull
                  envelope_nullResultBody (or_introl eq_refl) eq_refl)).
Defined.

(** [TestService] and [TestDecodeNullResult], run. *)
Example TestService_multiply :
  execute server "Service1.Multiply" (Service1Request 4 2) (Service1Response 0)
  = (None, Service1Response 8).
Proof. vm_compute. reflexivity. Qed.

Example TestService_response_error :
  execute server "Service1.ResponseError" (Service1Request 4 2) (Service1Response 8)
  = (Some (ErrorPtr ErrResponseError), Service1Response 8).
Proof. vm_compute. reflexivity. Qed.

Example TestService_no_params :
  executeRaw server noParamsRequest (Service1Response 0)
  = (None, Service1Response Service1DefaultResponse).
Proof. vm_compute. reflexivity. Qed.

Example TestService_params_array :
  executeRaw server paramsArrayRequest (Service1Response 0)
  = (Some (json2.DecodeError decodeMessage), Service1Response 0).
Proof. vm_compute. reflexivity. Qed.

Example TestDecodeNullResult :
  json2.DecodeClientResponse parseMessage decodeMessage nullResultBody JNull
  = (Some ErrNullResult, JNull).
Proof. vm_compute. reflexivity. Qed.

End Scenarios.

(* ================================================================== *)
(** * Further properties *)

(** ** The recorder and [WriteError] *)

(** X1: two writes are one write of the two buffers joined; the first write
    to a recorder whose code is unset sets it to 200, an empty one too, and
    no write changes a code that is set; a recorder without a buffer drops
    the bytes; [WriteHeader] after a write replaces the code. *)
Theorem rw_Write_composes w a b code :
  rw_Write (rw_Write w a) b = rw_Write w (a +:+ b)
  /\ rw_Code (rw_Write w a) = (if (rw_Code w =? 0)%Z then 200 else rw_Code w)
  /\ rw_Code (rw_Write w "") <> 0
  /\ rw_Body (rw_Write w a) = (fun body => body +:+ a) <$> rw_Body w
  /\ rw_Code (rw_WriteHeader (rw_Write w a) code) = code
  /\ rw_HeaderMap (rw_Write w a) = rw_HeaderMap w
  /\ rw_Flushed (rw_Write w a) = rw_Flushed w.
Proof.
  split.
  { unfold rw_Write; cbn [rw_Code rw_HeaderMap rw_Body rw_Flushed]. f_equal.
    - destruct (Z.eqb_spec (rw_Code w) 0) as [E|E]; [reflexivity|].
      destruct (Z.eqb_spec (rw_Code w) 0); [contradiction | reflexivity].
    - destruct (rw_Body w); [|reflexivity]. now rewrite append_assoc. }
  split; [reflexivity|]. split.
  { unfold rw_Write; cbn [rw_Code]. destruct (Z.eqb_spec (rw_Code w) 0); [discriminate | assumption]. }
  split. { unfold rw_Write; cbn [rw_Body]. now destruct (rw_Body w). }
  repeat split.
Qed.

(** X2: what [WriteError] leaves: the status (200 when the status given is
    0), the message after what the body held, the plain-text content type,
    every other header and the flush mark as they were; and two calls are one
    call with the second status and the two messages joined. *)
Theorem WriteError_effect w status msg status' msg' :
  rw_Code (WriteError w status msg) = (if (status =? 0)%Z then 200 else status)
  /\ rw_Body (WriteError w status msg) = (fun body => body +:+ msg) <$> rw_Body w
  /\ Header_Get (rw_Header (WriteError w status msg)) "Content-Type"
     = "text/plain; charset=utf-8"
  /\ (forall key, CanonicalHeaderKey key <> "Content-Type" ->
        Header_Get (rw_Header (WriteError w status msg)) key = Header_Get (rw_Header w) key)
  /\ rw_Flushed (WriteError w status msg) = rw_Flushed w
  /\ WriteError (WriteError w status msg) status' msg' = WriteError w status' (msg +:+ msg').
Proof.
  split; [reflexivity|].
  split. { unfold WriteError, rw_Write; cbn [rw_Body rw_WriteHeader rw_Header_Set].
           now destruct (rw_Body w). }
  split; [apply WriteError_content_type|].
  split. { intros key Hk. unfold WriteError, rw_Write, rw_Header; cbn.
           apply Header_Get_Set_other. rewrite CanonicalHeaderKey_content_type. congruence. }
  split; [reflexivity|].
  unfold WriteError, rw_Write, rw_WriteHeader, rw_Header_Set, Header_Set;
    cbn [rw_Code rw_HeaderMap rw_Body rw_Flushed].
  f_equal.
  - apply insert_insert_eq.
  - destruct (rw_Body w); [|reflexivity]. now rewrite append_assoc.
Qed.

(** ** The content type *)

Lemma index_semicolon_split s : forall n,
  String.index 0 ";" s = Some n ->
  String.index 0 ";" (String.substring 0 n s) = None
  /\ exists rest, s = String.substring 0 n s +:+ String ";" rest.
Proof.
  induction s as [|c s IH]; intros n H.
  - discriminate H.
  - rewrite index_byte_cons in H. destruct (ascii_dec ";" c) as [<-|Hc].
    + injection H as <-. split; [reflexivity|]. exists s. reflexivity.
    + destruct (String.index 0 ";" s) as [m|] eqn:E; [|discriminate H].
      injection H as <-. destruct (IH m eq_refl) as [Hn [rest Hr]].
      cbn [String.substring]. split.
      * rewrite index_byte_cons. destruct (ascii_dec ";" c); [contradiction|].
        now rewrite Hn.
      * exists rest. rewrite append_String. now rewrite <- Hr.
Qed.

Section MoreDispatcherProperties.

Context {Ctx Val St : Type}.
Context {tables : UnicodeLower}.
Variable zeroValue : rtype -> Val.

Implicit Types (s : @Server Ctx Val St) (r : @Request Ctx) (w : ResponseRecorder).
Implicit Types (c : @CodecRequest Val St) (codec : @Codec Ctx Val St).
Implicit Types (bs : list (@ServerBeforeFunc Ctx Val St)) (ctx : Ctx).

(** X3: the content type that selects the codec is a prefix of the
    Content-Type header and holds no semicolon; it is the whole header when
    the header holds none. *)
Theorem contentTypeOf_prefix r :
  Index (contentTypeOf r) ";" = -1
  /\ (exists rest, Header_Get (req_Header r) "Content-Type" = contentTypeOf r +:+ rest)
  /\ (contentTypeOf r <> Header_Get (req_Header r) "Content-Type" ->
      exists rest,
        Header_Get (req_Header r) "Content-Type" = contentTypeOf r +:+ String ";" rest).
Proof.
  unfold contentTypeOf, Index, slice_to.
  destruct (String.index 0 ";" (Header_Get (req_Header r) "Content-Type")) as [n|] eqn:E.
  - destruct (index_semicolon_split _ n E) as [Hn [rest Hr]].
    destruct (Z.eqb_spec (Z.of_nat n) (-1)) as [H|_]; [lia|]. cbn [negb].
    rewrite Nat2Z.id, Hn. split; [reflexivity|]. split; eauto.
  - change (negb (-1 =? -1)%Z) with false. cbv iota. rewrite E.
    split; [reflexivity|]. split.
    + exists "". now rewrite append_nil_r.
    + intros H. contradiction.
Qed.


(** ** Building a server *)

Lemma fold_ServerBefore bs : forall s,
  fold_left (fun s0 (option : @ServerOption Ctx Val St) => option s0) (ServerBefore <$> bs) s
  = {| codecs := codecs s; services := services s; before := (before s ++ bs)%list |}.
Proof.
  induction bs as [|b bs IH]; intros s.
  - cbn. rewrite app_nil_r. now destruct s.
  - cbn [fmap list_fmap fold_left]. rewrite IH. cbn [ServerBefore codecs services before].
    now rewrite <- app_assoc.
Qed.

Lemma NewServer_hooks (sm : @serviceMap Ctx Val) bs :
  NewServer sm (ServerBefore <$> bs) = {| codecs := ∅; services := sm; before := bs |}.
Proof. unfold NewServer. now rewrite fold_ServerBefore. Qed.

(** X4: a server made by [NewServer] from hooks alone has no codec, the
    method table it was given and the hooks in their order; it answers every
    POST request with 415 and runs no hook. *)
Theorem new_server_rejects (sm : @serviceMap Ctx Val) bs w r :
  req_Method r = "POST" ->
  let s := NewServer sm (ServerBefore <$> bs) in
  codecs s = ∅ /\ services s = sm /\ before s = bs
  /\ ServeHTTP zeroValue s w r
     = (WriteError w 415 ("rpc: unrecognized Content-Type: " +:+ contentTypeOf r), [])
  /\ rw_Code (fst (ServeHTTP zeroValue s w r)) = 415.
Proof.
  intros HP s. subst s. rewrite NewServer_hooks. cbn [codecs services before].
  split; [reflexivity|]. split; [reflexivity|]. split; [reflexivity|].
  assert (E : ServeHTTP zeroValue {| codecs := ∅; services := sm; before := bs |} w r
              = (WriteError w 415 ("rpc: unrecognized Content-Type: " +:+ contentTypeOf r), [])).
  { rewrite (ServeHTTP_lookup zeroValue _ w r HP).
    - cbn [codecs]. now rewrite lookup_empty.
    - cbn [codecs]. rewrite map_size_empty. intros [_ H]. discriminate H. }
  rewrite E. split; [reflexivity|]. now apply WriteError_Code.
Qed.

(** ** The codec registry *)

(** X5: registering a codec leaves the method table, the hooks and the
    entries of the content types whose lower-case form is not that of its
    own as they were; registrations under content types of different
    lower-case forms commute, and registering the same codec twice is
    registering it once.  For content types of ASCII characters the
    lower-case forms differ exactly when the content types differ by more
    than letter case. *)
Theorem RegisterCodec_frame s (v1 v2 : option (@Codec Ctx Val St)) contentType1 contentType2 :
  ToLower contentType1 <> ToLower contentType2 ->
  codecs (RegisterCodec s v1 contentType1) !! ToLower contentType2
  = codecs s !! ToLower contentType2
  /\ RegisterCodec (RegisterCodec s v1 contentType1) v2 contentType2
     = RegisterCodec (RegisterCodec s v2 contentType2) v1 contentType1
  /\ RegisterCodec (RegisterCodec s v1 contentType1) v1 contentType1
     = RegisterCodec s v1 contentType1
  /\ services (RegisterCodec s v1 contentType1) = services s
  /\ before (RegisterCodec s v1 contentType1) = before s
  /\ (isASCII contentType1 = true -> isASCII contentType2 = true ->
      equal_up_to_case contentType1 contentType2 = false).
Proof.
  intros Hne.
  split. { unfold RegisterCodec; cbn [codecs]. now apply lookup_insert_ne. }
  split. { unfold RegisterCodec; cbn [codecs services before]. f_equal.
           now apply insert_insert_ne. }
  split. { unfold RegisterCodec; cbn [codecs services before]. f_equal.
           apply insert_insert_eq. }
  split; [reflexivity|]. split; [reflexivity|].
  intros Ha Hb. apply not_true_iff_false. intros Hf. apply Hne.
  now apply ToLower_ASCII_same.
Qed.

Lemma registerAll_snoc s (l : list (option (@Codec Ctx Val St) * string)) x :
  registerAll s (l ++ [x]) = RegisterCodec (registerAll s l) (fst x) (snd x).
Proof. unfold registerAll. now rewrite fold_left_app. Qed.

Lemma lastRegistered_snoc k (l : list (option (@Codec Ctx Val St) * string)) x :
  lastRegistered k (l ++ [x])
  = if decide (ToLower (snd x) = k) then Some (fst x) else lastRegistered k l.
Proof.
  induction l as [|y l IH]; cbn [app lastRegistered].
  - reflexivity.
  - rewrite IH. destruct (decide (ToLower (snd x) = k)); reflexivity.
Qed.

Lemma lastRegistered_In k (l : list (option (@Codec Ctx Val St) * string)) v :
  lastRegistered k l = Some v -> exists contentType, In (v, contentType) l /\ ToLower contentType = k.
Proof.
  induction l as [|[v' ct] l IH]; cbn [lastRegistered]; [discriminate|].
  destruct (lastRegistered k l) as [v''|].
  - intros Hv. injection Hv as ->. destruct (IH eq_refl) as (ct' & Hin & Hk).
    exists ct'. split; [now right | exact Hk].
  - cbn [fst snd]. destruct (decide (ToLower ct = k)) as [Hk|]; [|discriminate].
    intros Hv. injection Hv as ->. exists ct. split; [now left | exact Hk].
Qed.

(** X6: after any sequence of registrations, the entry of a key is the codec
    of the last registration whose content type has that key as its
    lower-case form, and the entry the server had before when there is no
    such registration; so an entry that the registrations made holds a codec
    that was registered under a content type of that lower-case form; the
    method table and the hooks are as they were. *)
Theorem registerAll_lookup s (l : list (option (@Codec Ctx Val St) * string)) k :
  codecs (registerAll s l) !! k
  = match lastRegistered k l with
    | Some v => Some v
    | None => codecs s !! k
    end
  /\ (forall v, codecs (registerAll s l) !! k = Some v ->
        codecs s !! k = Some v
        \/ exists contentType, In (v, contentType) l /\ ToLower contentType = k)
  /\ services (registerAll s l) = services s
  /\ before (registerAll s l) = before s.
Proof.
  assert (Hl : codecs (registerAll s l) !! k
               = match lastRegistered k l with
                 | Some v => Some v
                 | None => codecs s !! k
                 end).
  { induction l as [|x l IH] using rev_ind; [reflexivity|].
    rewrite registerAll_snoc, lastRegistered_snoc. unfold RegisterCodec; cbn [codecs].
    destruct (decide (ToLower (snd x) = k)) as [<-|Hne].
    - apply lookup_insert_eq.
    - rewrite lookup_insert_ne by exact Hne. exact IH. }
  split; [exact Hl|]. split.
  { intros v Hv. rewrite Hl in Hv.
    destruct (lastRegistered k l) as [v'|] eqn:E; [|now left].
    injection Hv as ->. right. now apply lastRegistered_In. }
  clear Hl. split.
  - induction l as [|x l IH] using rev_ind; [reflexivity|].
    rewrite registerAll_snoc. exact IH.
  - induction l as [|x l IH] using rev_ind; [reflexivity|].
    rewrite registerAll_snoc. exact IH.
Qed.

(** X7: a server with one registration, under [contentType].  When the
    codec registered is not nil, a POST request is served by it when its
    content type is empty or has the lower-case form of [contentType]; when
    it is nil, a request with an empty content type makes the dispatch
    panic; any other request is answered with 415.  For content types of
    ASCII characters, having the same lower-case form is differing in letter
    case only. *)
Theorem single_codec_server (sm : @serviceMap Ctx Val) bs (v : option (@Codec Ctx Val St))
    contentType w r :
  req_Method r = "POST" ->
  let s := RegisterCodec (NewServer sm (ServerBefore <$> bs)) v contentType in
  let rejected :=
    (Returned,
     (WriteError w 415 ("rpc: unrecognized Content-Type: " +:+ contentTypeOf r), [])) in
  size (codecs s) = 1%nat
  /\ match v with
     | Some codec =>
         contentTypeOf r = "" \/ ToLower (contentTypeOf r) = ToLower contentType ->
         dispatch zeroValue s w r = (Returned, serveCodec zeroValue s w r codec)
     | None =>
         (contentTypeOf r = "" -> dispatch zeroValue s w r = (Panicked, (w, [])))
         /\ (contentTypeOf r <> "" -> dispatch zeroValue s w r = rejected)
     end
  /\ (contentTypeOf r <> "" -> ToLower (contentTypeOf r) <> ToLower contentType ->
      dispatch zeroValue s w r = rejected)
  /\ (isASCII (contentTypeOf r) = true -> isASCII contentType = true ->
      (ToLower (contentTypeOf r) = ToLower contentType
       <-> equal_up_to_case (contentTypeOf r) contentType = true)).
Proof.
  intros HP s rejected.
  assert (Hc : codecs s = {[ToLower contentType := v]}).
  { unfold s. rewrite NewServer_hooks. unfold RegisterCodec; cbn [codecs].
    apply insert_empty. }
  assert (Hsz : size (codecs s) = 1%nat) by (rewrite Hc; apply map_size_singleton).
  assert (Hsole : contentTypeOf r = "" ->
                  dispatch zeroValue s w r
                  = match v with
                    | Some codec => (Returned, serveCodec zeroValue s w r codec)
                    | None => (Panicked, (w, []))
                    end).
  { intros Hct.
    destruct (dispatch_sole zeroValue s w r HP Hct Hsz) as (k & v' & Hm & _ & ->).
    rewrite Hc in Hm.
    assert (Hl : ({[k := v']} : gmap string (option Codec)) !! ToLower contentType = Some v)
      by (rewrite <- Hm; apply lookup_singleton_eq).
    apply lookup_singleton_Some in Hl. destruct Hl as [_ ->]. reflexivity. }
  assert (Hlook : contentTypeOf r <> "" ->
                  dispatch zeroValue s w r
                  = (Returned,
                     match ({[ToLower contentType := v]} : gmap string (option Codec))
                           !! ToLower (contentTypeOf r) with
                     | Some (Some codec) => serveCodec zeroValue s w r codec
                     | _ => snd rejected
                     end)).
  { intros Hne. rewrite (dispatch_lookup zeroValue s w r HP) by tauto. now rewrite Hc. }
  split; [exact Hsz|]. split; [|split].
  - destruct v as [codec|].
    + intros [Hct|Hf]; [now apply Hsole|].
      destruct (String.eqb_spec (contentTypeOf r) "") as [Hct|Hne]; [now apply Hsole|].
      rewrite (Hlook Hne), Hf. now rewrite lookup_singleton_eq.
    + split; [exact Hsole|]. intros Hne. rewrite (Hlook Hne).
      destruct (decide (ToLower contentType = ToLower (contentTypeOf r))) as [<-|Hk].
      * now rewrite lookup_singleton_eq.
      * now rewrite lookup_singleton_ne by exact Hk.
  - intros Hne Hk. rewrite (Hlook Hne).
    now rewrite lookup_singleton_ne by congruence.
  - intros Ha Hb. now apply ToLower_ASCII_same.
Qed.


(** ** The course of a dispatch *)

Lemma readArgs_fail_nonempty tys : forall ctx c refValue e c' log,
  readArgs zeroValue tys ctx c refValue = (inl e, c', log) -> log <> [].
Proof.
  induction tys as [|ty tys IH]; intros ctx c refValue e c' log H; cbn [readArgs] in H.
  - discriminate H.
  - destruct (decide (ty <> typeOfContext)).
    + destruct (cr_ReadRequest c (cr_state c) ty (zeroValue ty)) as [[[e'|] v] st'].
      * injection H as _ _ <-. discriminate.
      * destruct (readArgs zeroValue tys ctx (with_state c st') _) as [[res c''] log'].
        injection H as _ _ <-. discriminate.
    + exact (IH _ _ _ _ _ _ H).
Qed.

(** The log of a dispatch in the hands of a codec. *)
Lemma serveCodec_log_shape s w r codec :
  let log := snd (serveCodec zeroValue s w r codec) in
  let '(name, errMethod, st) :=
    cr_Method (NewRequest codec r) (cr_state (NewRequest codec r)) in
  match errMethod with
  | Some e => log = [ENewRequest codec; EMethod; EWriteError 400 e]
  | None =>
      exists logB logR tail,
        log = ([ENewRequest codec; EMethod] ++ logB ++ [EGet name] ++ logR ++ tail)%list
        /\ Forall (fun e => is_before e = true) logB
        /\ Forall (fun e => is_read e = true) logR
        /\ match get (services s) name with
           | inl errGet => logR = [] /\ tail = [EWriteError 400 errGet]
           | inr (svc, m) =>
               (exists e, logR <> [] /\ tail = [EWriteError 400 e])
               \/ (exists refValue x, tail = [ECall refValue; x] /\ is_encoding x = true)
           end
  end.
Proof.
  intros log. subst log.
  pose proof (serveCodec_stages zeroValue s w r codec) as Hst. cbv zeta in Hst.
  destruct (cr_Method (NewRequest codec r) (cr_state (NewRequest codec r)))
    as [[name [e|]] st].
  { now rewrite Hst. }
  pose proof (runBefore_is_before (before s) 0 name (req_Context r) (req_Header r)
                (with_state (NewRequest codec r) st)) as HB.
  destruct (runBefore 0 (before s) name (req_Context r) (req_Header r)
              (with_state (NewRequest codec r) st)) as [[[ctx h] c2] logB].
  cbn [snd] in HB. exists logB.
  destruct (get (services s) name) as [errGet|[svc m]].
  { exists [], [EWriteError 400 errGet]. rewrite Hst. cbn [snd].
    split; [reflexivity|]. split; [exact HB|]. split; [constructor|]. auto. }
  pose proof (readArgs_is_read zeroValue (argsType m) ctx c2 [rcvr svc]) as HR.
  pose proof (readArgs_fail_nonempty (argsType m) ctx c2 [rcvr svc]) as Hne.
  destruct (readArgs zeroValue (argsType m) ctx c2 [rcvr svc]) as [[[e|rv] c3] logR];
    cbn [snd] in HR; rewrite Hst; cbn [snd].
  - exists logR, [EWriteError 400 e]. split; [reflexivity|]. split; [exact HB|].
    split; [exact HR|]. left. exists e. split; [|reflexivity]. exact (Hne e c3 logR eq_refl).
  - exists logR, (snd (invoke w c3 m rv)). split; [reflexivity|]. split; [exact HB|].
    split; [exact HR|]. right. unfold invoke.
    destruct (method m rv) as [vr [er|]]; cbn [snd]; eexists _, _; split; reflexivity.
Qed.

Lemma existsb_none {A} (f g : A -> bool) (l : list A) :
  Forall (fun x => g x = true) l -> (forall x, g x = true -> f x = false) ->
  existsb f l = false.
Proof.
  intros H Hfg. induction H as [|x l Hx _ IH]; [reflexivity|].
  cbn. now rewrite (Hfg x Hx), IH.
Qed.

(** X8: in a dispatch whose codec gave the method name, the codec is asked to
    decode an argument or the method is called exactly when [HasMethod] holds
    of the name; when it does not, the dispatch ends with the error of the
    lookup, written through the codec with status 400. *)
Theorem HasMethod_decides s w r codec name st :
  selects s r codec ->
  cr_Method (NewRequest codec r) (cr_state (NewRequest codec r)) = (name, None, st) ->
  let log := snd (ServeHTTP zeroValue s w r) in
  (HasMethod s name = true <-> existsb (fun e => is_read e || is_call e) log = true)
  /\ (HasMethod s name = false ->
      exists errGet,
        get (services s) name = inl errGet
        /\ last log = Some (EWriteError 400 errGet)
        /\ In (EGet name) log).
Proof.
  intros Hsel HM log. subst log. rewrite (ServeHTTP_selects zeroValue s w r codec Hsel).
  pose proof (serveCodec_log_shape s w r codec) as Hsh. cbv zeta in Hsh. rewrite HM in Hsh.
  destruct Hsh as (logB & logR & tail & -> & HB & HR & Hg).
  assert (HeB : existsb (fun e : @event Ctx Val St => is_read e || is_call e) logB = false).
  { apply (existsb_none _ _ _ HB). intros [] H; try discriminate H; reflexivity. }
  unfold HasMethod. destruct (get (services s) name) as [errGet|[svc m]].
  - destruct Hg as [-> ->]. split.
    + rewrite !existsb_app, HeB. cbn. split; discriminate.
    + intros _. exists errGet. split; [reflexivity|]. split.
      * rewrite !app_assoc. apply last_snoc.
      * apply in_or_app. right. apply in_or_app. right. now left.
  - split; [|discriminate]. split; [|reflexivity]. intros _.
    rewrite !existsb_app. destruct Hg as [(e & Hne & ->)|(rv & x & -> & _)].
    + destruct logR as [|e0 logR]; [contradiction|].
      inversion HR as [|? ? He0 _]; subst. cbn. rewrite He0. cbn.
      now rewrite !orb_true_r.
    + cbn. now rewrite !orb_true_r.
Qed.

(** X9: the method table is consulted for a name exactly when a codec was
    selected and its [Method] gave that name without an error; when [Method]
    fails, the dispatch is the codec's [WriteError] and nothing else: no hook,
    no lookup. *)
Theorem lookup_after_method_name s w r name :
  let log := snd (ServeHTTP zeroValue s w r) in
  (In (EGet name) log <->
   exists codec st,
     selects s r codec
     /\ cr_Method (NewRequest codec r) (cr_state (NewRequest codec r)) = (name, None, st))
  /\ (forall codec name' e st,
        selects s r codec ->
        cr_Method (NewRequest codec r) (cr_state (NewRequest codec r)) = (name', Some e, st) ->
        log = [ENewRequest codec; EMethod; EWriteError 400 e]).
Proof.
  intros log. subst log. split; [split|].
  - intros Hin.
    destruct (ServeHTTP_cases zeroValue s w r) as [E|[E|[E|(codec & Hsel & E)]]];
      rewrite E in Hin; try destruct Hin.
    pose proof (serveCodec_log_shape s w r codec) as Hsh. cbv zeta in Hsh.
    destruct (cr_Method (NewRequest codec r) (cr_state (NewRequest codec r)))
      as [[name' [e|]] st] eqn:HM.
    { rewrite Hsh in Hin. destruct Hin as [H|[H|[H|[]]]]; discriminate H. }
    exists codec, st. split; [exact Hsel|].
    destruct Hsh as (logB & logR & tail & Hlog & HB & HR & Hg). rewrite Hlog in Hin.
    assert (name = name'); [|now subst].
    apply in_app_or in Hin. destruct Hin as [[H|[H|[]]]|Hin]; try discriminate H.
    apply in_app_or in Hin. destruct Hin as [Hin|Hin].
    { rewrite Forall_forall in HB. apply list_elem_of_In in Hin.
      specialize (HB _ Hin). discriminate HB. }
    apply in_app_or in Hin. destruct Hin as [[H|[]]|Hin]; [now injection H|].
    apply in_app_or in Hin. destruct Hin as [Hin|Hin].
    { rewrite Forall_forall in HR. apply list_elem_of_In in Hin.
      specialize (HR _ Hin). discriminate HR. }
    destruct (get (services s) name') as [errGet|[svc m]].
    + destruct Hg as [_ ->]. destruct Hin as [H|[]]; discriminate H.
    + destruct Hg as [(e & _ & ->)|(rv & x & -> & Hx)].
      * destruct Hin as [H|[]]; discriminate H.
      * destruct Hin as [H|[H|[]]]; [discriminate H|]. subst x. discriminate Hx.
  - intros (codec & st & Hsel & HM).
    rewrite (ServeHTTP_selects zeroValue s w r codec Hsel).
    pose proof (serveCodec_log_shape s w r codec) as Hsh. cbv zeta in Hsh. rewrite HM in Hsh.
    destruct Hsh as (logB & logR & tail & -> & _).
    apply in_or_app. right. apply in_or_app. right. now left.
  - intros codec name' e st Hsel HM.
    rewrite (ServeHTTP_selects zeroValue s w r codec Hsel).
    pose proof (serveCodec_log_shape s w r codec) as Hsh. cbv zeta in Hsh.
    now rewrite HM in Hsh.
Qed.






Lemma readArgs_contexts tys : forall ctx c refValue,
  Forall (fun ty => ty = typeOfContext) tys ->
  readArgs zeroValue tys ctx c refValue
  = (inr (refValue ++ ((fun _ => ValueOfContext ctx) <$> tys))%list, c, []).
Proof.
  induction tys as [|ty tys IH]; intros ctx c refValue H.
  - cbn. now rewrite app_nil_r.
  - inversion H as [|? ? Hty Hrest]; subst. cbn [readArgs].
    rewrite decide_False by tauto. rewrite (IH _ _ _ Hrest). cbn [fmap list_fmap].
    now rewrite <- app_assoc.
Qed.

(** X11: a method whose declared parameters are all of the context type,
    one without parameters among them, is called whatever the request's
    params are: the codec's [ReadRequest] is not called, and every argument
    is the context that the hooks returned. *)
Theorem context_only_method_called s w r codec name st svc m :
  selects s r codec ->
  cr_Method (NewRequest codec r) (cr_state (NewRequest codec r)) = (name, None, st) ->
  get (services s) name = inr (svc, m) ->
  Forall (fun ty => ty = typeOfContext) (argsType m) ->
  let init := (req_Context r, req_Header r, with_state (NewRequest codec r) st) in
  let ctx := fst (fst (fold_left (applyBefore name) (before s) init)) in
  let log := snd (ServeHTTP zeroValue s w r) in
  List.filter is_read log = []
  /\ List.filter is_call log
     = [ECall (rcvr svc :: ((fun _ => ValueOfContext ctx) <$> argsType m))].
Proof.
  intros Hsel HM Hget Hall init ctx log. subst log.
  rewrite (ServeHTTP_selects zeroValue s w r codec Hsel).
  pose proof (serveCodec_stages zeroValue s w r codec) as Hst. cbv zeta in Hst.
  rewrite HM, Hget in Hst.
  pose proof (runBefore_fold (before s) 0 name (req_Context r) (req_Header r)
                (with_state (NewRequest codec r) st)) as Hfold.
  pose proof (runBefore_is_before (before s) 0 name (req_Context r) (req_Header r)
                (with_state (NewRequest codec r) st)) as HB.
  destruct (runBefore 0 (before s) name (req_Context r) (req_Header r)
              (with_state (NewRequest codec r) st)) as [[[ctx' h] c2] logB].
  destruct Hfold as (Hfin & _ & _). cbn [snd] in HB.
  assert (Hctx : ctx = ctx') by (unfold ctx, init; now rewrite <- Hfin).
  rewrite (readArgs_contexts (argsType m) ctx' c2 [rcvr svc] Hall) in Hst.
  rewrite Hst. cbn [snd]. rewrite Hctx.
  assert (HBr : List.filter is_read logB = []).
  { apply filter_drop. eapply Forall_impl; [exact HB|].
    intros [] H; try discriminate H; reflexivity. }
  assert (HBc : List.filter is_call logB = []).
  { apply filter_drop. eapply Forall_impl; [exact HB|].
    intros [] H; try discriminate H; reflexivity. }
  unfold invoke. destruct (method m _) as [vr [er|]]; cbn [snd];
    rewrite !List.filter_app, ?HBr, ?HBc; split; reflexivity.
Qed.

End MoreDispatcherProperties.

(** ** The service of the tests *)

Section Service1Properties.

Import json_test.

Lemma wrap_int_range n : - 2 ^ 63 <= wrap_int n < 2 ^ 63.
Proof. unfold wrap_int. pose proof (Z.mod_pos_bound (n + 2 ^ 63) (2 ^ 64)). lia. Qed.

Lemma wrap_int_small n : - 2 ^ 63 <= n < 2 ^ 63 -> wrap_int n = n.
Proof. intros H. unfold wrap_int. rewrite Z.mod_small; lia. Qed.

(** X12: [Multiply] never returns an error and is symmetric in [A] and [B];
    its result fits Go's [int]; it is the sentinel 9999 when both are zero,
    the product when they are not both zero and the product fits, and so 0
    when one of them alone is zero. *)
Theorem Multiply_result (rcv : @Value Ctx json) ty A B :
  let res := Multiply [rcv; PtrTo ty (Service1Request A B)] in
  snd res = None
  /\ res = Multiply [rcv; PtrTo ty (Service1Request B A)]
  /\ exists n,
       fst res = Service1Response n
       /\ - 2 ^ 63 <= n < 2 ^ 63
       /\ (A = 0 -> B = 0 -> n = Service1DefaultResponse)
       /\ (A <> 0 \/ B <> 0 -> - 2 ^ 63 <= A * B < 2 ^ 63 -> n = A * B)
       /\ (A = 0 /\ B <> 0 \/ A <> 0 /\ B = 0 -> n = 0).
Proof.
  intros res. subst res. unfold Multiply.
  change (intField "A" (Service1Request A B)) with A.
  change (intField "B" (Service1Request A B)) with B.
  change (intField "A" (Service1Request B A)) with B.
  change (intField "B" (Service1Request B A)) with A.
  destruct (Z.eqb_spec A 0) as [HA|HA]; destruct (Z.eqb_spec B 0) as [HB|HB]; cbn [andb fst snd].
  - split; [reflexivity|]. split; [reflexivity|].
    exists Service1DefaultResponse. split; [reflexivity|]. unfold Service1DefaultResponse.
    repeat split; try lia.
  - split; [reflexivity|]. split; [now rewrite Z.mul_comm|].
    exists (wrap_int (A * B)). split; [reflexivity|]. split; [apply wrap_int_range|].
    split; [lia|]. split; [intros _ H; now apply wrap_int_small|].
    intros _. subst A. reflexivity.
  - split; [reflexivity|]. split; [now rewrite Z.mul_comm|].
    exists (wrap_int (A * B)). split; [reflexivity|]. split; [apply wrap_int_range|].
    split; [lia|]. split; [intros _ H; now apply wrap_int_small|].
    intros _. subst B. now rewrite Z.mul_0_r.
  - split; [reflexivity|]. split; [now rewrite Z.mul_comm|].
    exists (wrap_int (A * B)). split; [reflexivity|]. split; [apply wrap_int_range|].
    split; [lia|]. split; [intros _ H; now apply wrap_int_small|]. lia.
Qed.


(** X13: [Multiply] behind the dispatcher, with any codec: when the codec
    decodes the params into a request holding [A] and [B], the one call is
    [Multiply] on the receiver and that request, and the one response is its
    result, written by [WriteResponse]; no error is written. *)
Theorem Multiply_dispatched {St : Type} {tables : UnicodeLower} (zeroValue : rtype -> json)
    (s : @Server Ctx json St) w r codec name st svc ty A B st' :
  selects s r codec ->
  cr_Method (NewRequest codec r) (cr_state (NewRequest codec r)) = (name, None, st) ->
  get (services s) name = inr (svc, {| method := Multiply; argsType := [ty] |}) ->
  ty <> typeOfContext ->
  let init := (req_Context r, req_Header r, with_state (NewRequest codec r) st) in
  let c := snd (fold_left (applyBefore name) (before s) init) in
  cr_ReadRequest c (cr_state c) ty (zeroValue ty) = (None, Service1Request A B, st') ->
  let log := snd (ServeHTTP zeroValue s w r) in
  let result :=
    Service1Response
      (if (A =? 0)%Z && (B =? 0)%Z then Service1DefaultResponse else wrap_int (A * B)) in
  List.filter is_call log = [ECall [rcvr svc; PtrTo ty (Service1Request A B)]]
  /\ List.filter is_encoding log = [EWriteResponse result]
  /\ fst (ServeHTTP zeroValue s w r)
     = fst (cr_WriteResponse (NewRequest codec r) st'
              (rw_Header_Set w "x-content-type-options" "nosniff") result).
Proof.
  intros Hsel HM Hget Hty init c Hread log result. subst log result.
  rewrite (ServeHTTP_selects zeroValue s w r codec Hsel).
  pose proof (serveCodec_stages zeroValue s w r codec) as Hst. cbv zeta in Hst.
  rewrite HM, Hget in Hst. cbn [argsType] in Hst.
  pose proof (runBefore_fold (before s) 0 name (req_Context r) (req_Header r)
                (with_state (NewRequest codec r) st)) as Hfold.
  pose proof (runBefore_is_before (before s) 0 name (req_Context r) (req_Header r)
                (with_state (NewRequest codec r) st)) as HB.
  pose proof (runBefore_same_object (before s) 0 name (req_Context r) (req_Header r)
                (with_state (NewRequest codec r) st)) as [st2 Hobj].
  destruct (runBefore 0 (before s) name (req_Context r) (req_Header r)
              (with_state (NewRequest codec r) st)) as [[[ctx' h] c2] logB].
  destruct Hfold as (Hfin & _ & _). cbn [fst snd] in HB, Hobj.
  assert (Hc : c = c2) by (unfold c, init; now rewrite <- Hfin).
  rewrite Hc in Hread. cbn [readArgs] in Hst.
  rewrite decide_True in Hst by exact Hty. rewrite Hread in Hst. cbn [app] in Hst.
  assert (HBc : List.filter is_call logB = []).
  { apply filter_drop. eapply Forall_impl; [exact HB|].
    intros [] He; try discriminate He; reflexivity. }
  assert (HBe : List.filter is_encoding logB = []).
  { apply filter_drop. eapply Forall_impl; [exact HB|].
    intros [] He; try discriminate He; reflexivity. }
  unfold invoke in Hst. cbn [method] in Hst. unfold Multiply in Hst.
  change (intField "A" (Service1Request A B)) with A in Hst.
  change (intField "B" (Service1Request A B)) with B in Hst.
  subst c2.
  destruct ((A =? 0)%Z && (B =? 0)%Z); rewrite Hst; cbn [fst snd];
    (split; [|split]; cbn [List.filter is_call is_encoding];
     rewrite ?List.filter_app, ?HBc, ?HBe; reflexivity).
Qed.

End Service1Properties.

(** ** The further properties on the services of the tests *)

Section MoreScenarios.

Import json_test.

Lemma new_server_rejects_witness :
  rw_Code (fst (ServeHTTP zeroValue (NewServer Service1_table [ServerBefore tagMethod])
                  NewRecorder multiplyRequest)) = 415
  /\ snd (ServeHTTP zeroValue (NewServer Service1_table [ServerBefore tagMethod])
            NewRecorder multiplyRequest) = [].
Proof.
  pose proof (new_server_rejects zeroValue Service1_table [tagMethod] NewRecorder
                multiplyRequest eq_refl) as H.
  cbv zeta in H. destruct H as (_ & _ & _ & HS & HC).
  split; [exact HC|]. change ([ServerBefore tagMethod]) with (ServerBefore <$> [tagMethod]).
  now rewrite HS.
Defined.

Lemma RegisterCodec_frame_witness :
  codecs (RegisterCodec server None "text/xml") !! "application/json"
  = codecs server !! "application/json"
  /\ equal_up_to_case "text/xml" "application/json" = false.
Proof.
  pose proof (RegisterCodec_frame server None (Some NewCodec) "text/xml" "application/json"
                ltac:(discriminate)) as H.
  destruct H as (H1 & _ & _ & _ & _ & H6). split; [exact H1|]. now apply H6.
Defined.

(** Two registrations under one content type in two letter cases, and a
    third under another: the second is found, by the lower-case key. *)
Lemma registerAll_lookup_witness :
  let l := [(None, "Application/JSON"); (Some NewCodec, "APPLICATION/json");
            (None, "text/xml")] in
  codecs (registerAll (NewServer Service1_table []) l) !! "application/json"
  = Some (Some NewCodec)
  /\ codecs (registerAll (NewServer Service1_table []) l) !! "Application/JSON" = None.
Proof.
  intros l. split.
  - now rewrite (proj1 (registerAll_lookup (NewServer Service1_table []) l "application/json")).
  - now rewrite (proj1 (registerAll_lookup (NewServer Service1_table []) l "Application/JSON")).
Defined.

Lemma single_codec_server_witness :
  dispatch zeroValue
    (RegisterCodec (NewServer Service1_table []) (Some NewCodec) "application/json")
    NewRecorder scaledRequest
  = (Returned,
     serveCodec zeroValue
       (RegisterCodec (NewServer Service1_table []) (Some NewCodec) "application/json")
       NewRecorder scaledRequest NewCodec)
  /\ dispatch zeroValue
       (RegisterCodec (NewServer Service1_table [] : @Server Ctx json string) None
          "application/json")
       NewRecorder bareRequest
     = (Panicked, (NewRecorder, [])).
Proof.
  pose proof (single_codec_server zeroValue Service1_table [] (Some NewCodec)
                "application/json" NewRecorder scaledRequest eq_refl) as H.
  pose proof (single_codec_server (St := string) zeroValue Service1_table [] None
                "application/json" NewRecorder bareRequest eq_refl) as H'.
  cbv zeta in H, H'. destruct H as (_ & H & _). destruct H' as (_ & [H' _] & _). split.
  - apply H. right. rewrite contentTypeOf_scaledRequest. reflexivity.
  - apply H'. reflexivity.
Defined.

Lemma contentTypeOf_unknownRequest : contentTypeOf hello.unknownRequest = "application/json".
Proof. vm_compute. reflexivity. Qed.

Lemma selects_server_unknown : selects server hello.unknownRequest NewCodec.
Proof.
  split; [reflexivity|]. right. rewrite contentTypeOf_unknownRequest. split.
  - intros [H _]. discriminate H.
  - exact lookup_server.
Qed.

Lemma method_unknown :
  cr_Method (NewRequest NewCodec hello.unknownRequest)
    (cr_state (NewRequest NewCodec hello.unknownRequest))
  = ("Service1.Divide", None, req_Body hello.unknownRequest).
Proof. vm_compute. reflexivity. Qed.

Lemma HasMethod_decides_witness :
  HasMethod server "Service1.Divide" = false
  /\ exists errGet,
       get (services server) "Service1.Divide" = inl errGet
       /\ last (snd (ServeHTTP zeroValue server NewRecorder hello.unknownRequest))
          = Some (EWriteError 400 errGet).
Proof.
  split; [reflexivity|].
  pose proof (HasMethod_decides zeroValue server NewRecorder hello.unknownRequest NewCodec
                "Service1.Divide" (req_Body hello.unknownRequest)
                selects_server_unknown method_unknown) as H.
  cbv zeta in H. destruct H as [_ H]. destruct (H eq_refl) as (errGet & Hg & Hl & _).
  exists errGet. split; [exact Hg | exact Hl].
Defined.

Lemma contentTypeOf_pingRequest : contentTypeOf hello.pingRequest = "application/json".
Proof. vm_compute. reflexivity. Qed.

Lemma lookup_hello : codecs hello.server !! "application/json" = Some (Some NewCodec).
Proof.
  unfold hello.server, RegisterCodec; cbn [codecs].
  change (ToLower "application/json") with "application/json". apply lookup_insert_eq.
Qed.

Lemma selects_hello_ping : selects hello.server hello.pingRequest NewCodec.
Proof.
  split; [reflexivity|]. right. rewrite contentTypeOf_pingRequest. split.
  - intros [H _]. discriminate H.
  - exact lookup_hello.
Qed.

Lemma method_ping :
  cr_Method (NewRequest NewCodec hello.pingRequest)
    (cr_state (NewRequest NewCodec hello.pingRequest))
  = ("HelloService.Ping", None, req_Body hello.pingRequest).
Proof. vm_compute. reflexivity. Qed.

Lemma context_only_method_called_witness :
  List.filter is_read (snd (ServeHTTP zeroValue hello.server NewRecorder hello.pingRequest)) = []
  /\ List.filter is_call (snd (ServeHTTP zeroValue hello.server NewRecorder hello.pingRequest))
     = [ECall [ValueOf (JObj []); ValueOfContext ["HelloService.Ping"]]].
Proof.
  pose proof (context_only_method_called zeroValue hello.server NewRecorder hello.pingRequest
                NewCodec "HelloService.Ping" (req_Body hello.pingRequest)
                {| rcvr := ValueOf (JObj []) |}
                {| method := hello.Ping; argsType := [typeOfContext] |}
                selects_hello_ping method_ping eq_refl
                (List.Forall_cons _ _ _ eq_refl (List.Forall_nil _))) as H.
  cbv zeta in H. exact H.
Defined.

Lemma read_multiply :
  let init := (req_Context multiplyRequest, req_Header multiplyRequest,
               with_state (NewRequest NewCodec multiplyRequest) (req_Body multiplyRequest)) in
  let c := snd (fold_left (applyBefore "Service1.Multiply") (before server) init) in
  cr_ReadRequest c (cr_state c) (typeNamed "Service1Request")
    (zeroValue (typeNamed "Service1Request"))
  = (None, Service1Request 4 2, req_Body multiplyRequest).
Proof. vm_compute. reflexivity. Qed.

Lemma Multiply_dispatched_witness :
  List.filter is_encoding (snd (ServeHTTP zeroValue server NewRecorder multiplyRequest))
  = [EWriteResponse (Service1Response 8)]
  /\ fst (ServeHTTP zeroValue server NewRecorder multiplyRequest)
     = fst (cr_WriteResponse (NewRequest NewCodec multiplyRequest) (req_Body multiplyRequest)
              (rw_Header_Set NewRecorder "x-content-type-options" "nosniff")
              (Service1Response 8)).
Proof.
  pose proof (Multiply_dispatched zeroValue server NewRecorder multiplyRequest NewCodec
                "Service1.Multiply" (req_Body multiplyRequest) {| rcvr := Service1 |}
                (typeNamed "Service1Request") 4 2 (req_Body multiplyRequest)
                selects_server_multiply method_multiply multiply_get
                ltac:(discriminate) read_multiply) as H.
  cbv zeta in H. exact (proj2 H).
Defined.

End MoreScenarios.
